(** * EasyDeL: NF4 quantisation, model forward calls, decoder blocks and the
    DBRX router, embedded shallowly and checked against the specification.

    Part I holds the embedding (one module per source file), Part II the
    theorems.  Floating-point arrays are modelled in two ways, each where the
    source needs it:
    - [linear_nf4] works on IEEE-754 binary32 values ([spec_float] with
      [prec = 24], [emax = 128]), because the zero-block behaviour depends on
      NaN and signed zeros;
    - the DBRX router works on real numbers, the exact arithmetic that the
      float32 computation approximates, because softmax and the p-norm have
      no executable float model here. *)

From Stdlib Require Import String Ascii DecimalString.
From Stdlib Require Import ZArith List Lia Bool Arith.
From Stdlib Require Import Sorted.
From Stdlib Require Import SpecFloat.
From Stdlib Require Import QArith Qround Qreals.
From Stdlib Require Import Reals Lra.
Import ListNotations.

(* ################################################################# *)
(** * Part I: the embedding *)

(** ** Python exceptions and fallible results *)

Module Py.

Inductive exn : Type :=
| ValueError (msg : string)
| AssertionError (msg : string)
| TypeError (msg : string)
| AttributeError (msg : string)
| RuntimeError (msg : string)
| ZeroDivisionError (msg : string).

Inductive result (A : Type) : Type :=
| Ok (a : A)
| Raise (e : exn).
Arguments Ok {A} a.
Arguments Raise {A} e.

Definition bind {A B} (r : result A) (k : A -> result B) : result B :=
  match r with
  | Ok a => k a
  | Raise e => Raise e
  end.

Definition is_ok {A} (r : result A) : bool :=
  match r with Ok _ => true | Raise _ => false end.

Definition is_some {A} (o : option A) : bool :=
  match o with Some _ => true | None => false end.

Definition is_none {A} (o : option A) : bool := negb (is_some o).

Definition raises_ValueError {A} (r : result A) : bool :=
  match r with Raise (ValueError _) => true | _ => false end.

(** [str(n)] for a non-negative Python int. *)
Definition str_of_nat (n : nat) : string :=
  NilEmpty.string_of_uint (Nat.to_uint n).

(** Floating-point element types of [jax.numpy] arrays. *)
Inductive Dtype : Type := bfloat16 | float16 | float32 | float64.

End Py.

Notation "x <- c1 ;; c2" := (Py.bind c1 (fun x => c2))
  (at level 61, c1 at next level, right associativity).

(** Running a computation per row: the first exception ends the run. *)
Fixpoint all_rows {A} (rs : list (Py.result A)) : Py.result (list A) :=
  match rs with
  | [] => Py.Ok []
  | r :: rs' => a <- r ;; l <- all_rows rs' ;; Py.Ok (a :: l)
  end.

(** ** [easydel/layers/quantization/linear_nf4.py] *)

Module linear_nf4.
Import Py.

(** float32 values: [jnp.float32] is IEEE-754 binary32. *)
Definition f32 : Type := spec_float.
Definition prec : Z := 24.
Definition emax : Z := 128.

Definition f32_div (x y : f32) : f32 := SFdiv prec emax x y.
Definition f32_mul (x y : f32) : f32 := SFmul prec emax x y.
Definition f32_abs (x : f32) : f32 := SFabs x.

Definition pos_zero : f32 := S754_zero false.
Definition one : f32 := S754_finite false 8388608 (-23).

Definition is_nan (x : f32) : bool :=
  match x with S754_nan => true | _ => false end.

Definition is_inf (x : f32) : bool :=
  match x with S754_infinity _ => true | _ => false end.

(** A zero of either sign. *)
Definition is_zero (x : f32) : bool :=
  match x with S754_zero _ => true | _ => false end.

(** A finite non-zero value of magnitude at most [2^-126], the least normal
    number: a subnormal, or that number itself.  The operations above are
    those of IEEE-754; the compiled code may flush operands and results in
    this range to zero, so statements about computed values are made for
    computations that stay out of it. *)
Definition least_normal : f32 := S754_finite false 8388608 (-149).

Definition is_tiny (x : f32) : bool :=
  match x with
  | S754_finite _ _ _ => SFleb (f32_abs x) least_normal
  | _ => false
  end.

Definition zero_entry (x : f32) : Prop := is_zero x = true.

(** The 16 levels, each literal rounded to float32 as [jnp.array(...,
    dtype=jnp.float32)] does. *)
Definition NF4_TABLE : list f32 :=
  [ S754_finite true 8388608 (-23);     (* -1.0 *)
    S754_finite true 11680177 (-24);    (* -0.6961928009986877 *)
    S754_finite true 8809264 (-24);     (* -0.5250730514526367 *)
    S754_finite true 13251232 (-25);    (* -0.39491748809814453 *)
    S754_finite true 9544269 (-25);     (* -0.28444138169288635 *)
    S754_finite true 12399935 (-26);    (* -0.18477343022823334 *)
    S754_finite true 12220529 (-27);    (* -0.09105003625154495 *)
    S754_zero false;                    (* 0.0 *)
    S754_finite false 10681087 (-27);   (* 0.07958029955625534 *)
    S754_finite false 10799843 (-26);   (* 0.16093020141124725 *)
    S754_finite false 16516317 (-26);   (* 0.24611230194568634 *)
    S754_finite false 11338554 (-25);   (* 0.33791524171829224 *)
    S754_finite false 14787768 (-25);   (* 0.44070982933044434 *)
    S754_finite false 9439147 (-24);    (* 0.5626170039176941 *)
    S754_finite false 12129203 (-24);   (* 0.7229568362236023 *)
    S754_finite false 8388608 (-23) ].  (* 1.0 *)

Definition NF4_BOUNDARIES : list f32 :=
  [ S754_infinity true;                 (* -inf *)
    S754_finite true 14228696 (-24);    (* -0.8480964004993439 *)
    S754_finite true 10244720 (-24);    (* -0.6106329262256622 *)
    S754_finite true 15434880 (-25);    (* -0.4599952697753906 *)
    S754_finite true 11397750 (-25);    (* -0.33967943489551544 *)
    S754_finite true 15744236 (-26);    (* -0.23460740596055984 *)
    S754_finite true 9255100 (-26);     (* -0.13791173323988914 *)
    S754_finite true 12220529 (-28);    (* -0.045525018125772476 *)
    S754_finite false 10681087 (-28);   (* 0.03979014977812767 *)
    S754_finite false 16140386 (-27);   (* 0.1202552504837513 *)
    S754_finite false 13658080 (-26);   (* 0.2035212516784668 *)
    S754_finite false 9798356 (-25);    (* 0.2920137718319893 *)
    S754_finite false 13063161 (-25);   (* 0.3893125355243683 *)
    S754_finite false 8416516 (-24);    (* 0.5016634166240692 *)
    S754_finite false 10784175 (-24);   (* 0.6427869200706482 *)
    S754_finite false 14453210 (-24) ]. (* 0.8614784181118011 *)

(** *** The array primitives the two functions call *)

Section Reshape.
Context {A : Type}.

(** Row-major split of a flat array into rows of [cols] entries. *)
Fixpoint rows_of (fuel cols : nat) (l : list A) : list (list A) :=
  match fuel with
  | O => []
  | S fuel' =>
      match l with
      | [] => []
      | _ => firstn cols l :: rows_of fuel' cols (skipn cols l)
      end
  end.

(** [a.reshape(-1, cols)]: raises unless [cols] divides the size; with
    [cols = 0] the size of the free axis is a division by zero. *)
Definition reshape_rows (cols : nat) (l : list A) : result (list (list A)) :=
  if (cols =? 0)%nat then
    Raise (ZeroDivisionError "integer division or modulo by zero")
  else if (length l mod cols =? 0)%nat then
    Ok (rows_of (length l) cols l)
  else
    Raise (TypeError "cannot reshape array").

(** [a.reshape(rows, cols)] of a flat array. *)
Definition reshape_to (rows cols : nat) (l : list A) : result (list (list A)) :=
  if (length l =? rows * cols)%nat then
    if (cols =? 0)%nat then Ok (repeat [] rows)
    else Ok (rows_of (length l) cols l)
  else
    Raise (TypeError "cannot reshape array").

End Reshape.

(** [jnp.max] of two entries: NaN propagates. *)
Definition f32_max (x y : f32) : f32 :=
  if is_nan x then x
  else if is_nan y then y
  else if SFltb x y then y else x.

(** [jnp.max(row)] over a non-empty row. *)
Definition row_max (row : list f32) : f32 :=
  match row with
  | [] => S754_nan
  | x :: rest => fold_left f32_max rest x
  end.

(** The order [jnp.searchsorted] compares with: the usual one on numbers,
    with NaN after every number. *)
Definition sort_lt (x y : f32) : bool :=
  match x, y with
  | S754_nan, _ => false
  | _, S754_nan => true
  | _, _ => SFltb x y
  end.

(** [jnp.searchsorted(a, v)] ([side='left']) for sorted [a]: the number of
    leading entries strictly below [v]. *)
Fixpoint searchsorted (a : list f32) (v : f32) : Z :=
  match a with
  | [] => 0
  | b :: a' => if sort_lt b v then 1 + searchsorted a' v else 0
  end.

(** *** Lines 90-94: packing two codes per byte *)

(** A 4-bit code. *)
Definition is_code (c : Z) : Prop := (0 <= c < 16)%Z.

(** [(q0 << 4) | q1] followed by [.astype(jnp.uint8)]. *)
Definition pack_pair (q0 q1 : Z) : Z :=
  (Z.lor (Z.shiftl q0 4) q1) mod 256.

(** [quantized.reshape(-1, 2)] and the packing of each row. *)
Fixpoint pack_pairs (quantized : list Z) : result (list Z) :=
  match quantized with
  | [] => Ok []
  | q0 :: q1 :: rest =>
      packed <- pack_pairs rest ;;
      Ok (pack_pair q0 q1 :: packed)
  | [_] => Raise (TypeError "cannot reshape array")
  end.

(** *** Lines 102-104: unpacking *)

Definition high_nibble (p : Z) : Z := Z.land (Z.shiftr p 4) 15.
Definition low_nibble (p : Z) : Z := Z.land p 15.

(** [jnp.stack([high, low], axis=1).reshape(-1)]. *)
Fixpoint unpack_nibbles (packed_values : list Z) : list Z :=
  match packed_values with
  | [] => []
  | p :: rest => high_nibble p :: low_nibble p :: unpack_nibbles rest
  end.

(** *** [single_quantize_and_pack_nf4] *)

Definition normalize_row (row : list f32) (absmax : f32) : list f32 :=
  map (fun x => f32_div x absmax) row.

Fixpoint normalize_rows (blocks : list (list f32)) (absmax : list f32)
  : list (list f32) :=
  match blocks, absmax with
  | row :: blocks', a :: absmax' =>
      normalize_row row a :: normalize_rows blocks' absmax'
  | _, _ => []
  end.

Definition quantize_value (x : f32) : Z := searchsorted NF4_BOUNDARIES x - 1.

Definition single_quantize_and_pack_nf4 (blocks : list f32) (block_size : nat)
  : result (list Z * list f32) :=
  blocks <- reshape_rows block_size blocks ;;
  let absmax := map (fun row => row_max (map f32_abs row)) blocks in
  let normalized := normalize_rows blocks absmax in
  let quantized := map quantize_value (concat normalized) in
  packed <- pack_pairs quantized ;;
  Ok (packed, absmax).

(** *** [single_dequantize_nf4] *)

Fixpoint scale_rows (dequantized : list (list f32)) (absmax : list f32)
  : list (list f32) :=
  match dequantized, absmax with
  | row :: rows', a :: absmax' =>
      map (fun x => f32_mul x a) row :: scale_rows rows' absmax'
  | _, _ => []
  end.

Definition single_dequantize_nf4 (packed_values : list Z) (absmax : list f32)
    (block_size : nat) : result (list (list f32)) :=
  let unpacked := unpack_nibbles packed_values in
  let dequantized := map (fun i => nth (Z.to_nat i) NF4_TABLE S754_nan) unpacked in
  let num_blocks := length absmax in
  dequantized <- reshape_to num_blocks block_size dequantized ;;
  Ok (scale_rows dequantized absmax).

(** *** [quantize_and_pack_nf4] *)

(** An array: its shape and its entries in row-major order. *)
Record ndarray : Type := { shape : list nat; data : list f32 }.

(** Arrays of more than two dimensions are mapped over their leading axis
    ([jax.vmap]); the recursion is on the number of dimensions. *)
Fixpoint quantize_and_pack_nf4_shape (shp : list nat) (blocks : list f32)
    (block_size : nat) : result (list Z * list f32) :=
  match shp with
  | d0 :: rest =>
      if (2 <? length shp)%nat then
        slices <- reshape_to d0 (fold_right Nat.mul 1%nat rest) blocks ;;
        outs <- all_rows (map (fun slice =>
                               quantize_and_pack_nf4_shape rest slice block_size)
                            slices) ;;
        Ok (concat (map fst outs), concat (map snd outs))
      else single_quantize_and_pack_nf4 blocks block_size
  | [] => single_quantize_and_pack_nf4 blocks block_size
  end.

Definition quantize_and_pack_nf4 (blocks : ndarray) (block_size : nat)
  : result (list Z * list f32) :=
  quantize_and_pack_nf4_shape (shape blocks) (data blocks) block_size.

(** *** [dequantize_nf4] *)

(** On the one-dimensional arrays [quantize_and_pack_nf4] returns for an
    array of at most two dimensions; the [jax.vmap] branch
    ([packed_values.ndim > 2]) is not taken. *)
Definition dequantize_nf4 (packed_values : list Z) (absmax : list f32)
    (block_size : nat) : result (list (list f32)) :=
  single_dequantize_nf4 packed_values absmax block_size.

(** *** Python values and calls *)

(** The values [LinearNF4] handles.  [VObject] stands for an object that is
    only stored and handed on (an initialiser, a precision setting, a
    dot-general function), named by the parameter it came in through. *)
Inductive pyval : Type :=
| VNone
| VArray (a : ndarray)
| VBytes (b : list Z)
| VFloats (l : list f32)
| VInt (n : nat)
| VBool (b : bool)
| VDtype (d : Dtype)
| VParam (value : pyval)
| VObject (name : string).

(** Binding [args] to the required positional parameters [params] of
    function [name]: too few or too many arguments raise [TypeError] before
    the body runs. *)
Definition call_positional {A} (name : string) (params : list string)
    (body : list pyval -> result A) (args : list pyval) : result A :=
  if (length args <? length params)%nat then
    Raise (TypeError (name ++ "() missing "
                      ++ str_of_nat (length params - length args)
                      ++ " required positional argument: "
                      ++ String.concat ", " (skipn (length args) params))%string)
  else if (length params <? length args)%nat then
    Raise (TypeError (name ++ "() takes "
                      ++ str_of_nat (length params)
                      ++ " positional arguments but "
                      ++ str_of_nat (length args) ++ " were given")%string)
  else body args.

(** The attributes of an object, most recent first. *)
Definition instance : Type := list (string * pyval).

Definition setattr (self : instance) (name : string) (v : pyval) : instance :=
  (name, v) :: filter (fun kv => negb (String.eqb (fst kv) name)) self.

Fixpoint getattr (self : instance) (name : string) : option pyval :=
  match self with
  | [] => None
  | (k, v) :: rest => if String.eqb k name then Some v else getattr rest name
  end.

(** *** [class LinearNF4] *)

Module LinearNF4.

Section Class.

(** What the constructor receives from [flax] and [jax]: random keys, the
    [rngs] stream object whose [params()] method hands out a key and advances
    the stream, and initialisers, which are total functions from a key, a
    shape and a dtype to an array. *)
Variables Key Rngs : Type.
Variable rngs_params : Rngs -> Key * Rngs.

Definition Initializer : Type := Key -> list nat -> Dtype -> ndarray.

(** [@staticmethod def _quantize_kernel(kernel, block_size)]. *)
Definition _quantize_kernel : list pyval -> result (list Z * list f32) :=
  call_positional "_quantize_kernel" ["kernel"; "block_size"]%string
    (fun args =>
       match args with
       | [VArray kernel; VInt block_size] =>
           quantize_and_pack_nf4 kernel block_size
       | _ => Raise (TypeError "unsupported operand")
       end).

Definition opt_dtype (d : option Dtype) : pyval :=
  match d with Some d => VDtype d | None => VNone end.

(** [__init__]: the state threaded through is the [rngs] stream and [self];
    the result is what the constructor raises, if anything. *)
Definition __init__ (self : instance) (in_features out_features : nat)
    (use_bias : bool) (dtype : option Dtype) (param_dtype : Dtype)
    (precision : pyval) (do_init : bool)
    (kernel_init bias_init : Initializer) (dot_general : pyval)
    (rngs : Rngs) (block_size : nat) : (Rngs * instance) * result unit :=
  let '(rngs, quantized) :=
    if do_init then
      let '(kernel_key, rngs) := rngs_params rngs in
      let kernel :=
        kernel_init kernel_key [in_features; out_features] param_dtype in
      (rngs,
       q <- _quantize_kernel [VArray kernel] ;;
       Ok (VBytes (fst q), VFloats (snd q)))
    else (rngs, Ok (VNone, VNone)) in
  match quantized with
  | Raise e => ((rngs, self), Raise e)
  | Ok (packed_kernel, scales) =>
      let self := setattr self "packed_kernel" (VParam packed_kernel) in
      let self := setattr self "scales" (VParam scales) in
      let '(rngs, self) :=
        if use_bias && do_init then
          let '(bias_key, rngs) := rngs_params rngs in
          (rngs,
           setattr self "bias"
             (VParam (VArray (bias_init bias_key [out_features] param_dtype))))
        else (rngs, setattr self "bias" (VParam VNone)) in
      let self := setattr self "in_features" (VInt in_features) in
      let self := setattr self "out_features" (VInt out_features) in
      let self := setattr self "use_bias" (VBool use_bias) in
      let self := setattr self "dtype" (opt_dtype dtype) in
      let self := setattr self "param_dtype" (VDtype param_dtype) in
      let self := setattr self "precision" precision in
      let self := setattr self "kernel_init" (VObject "kernel_init") in
      let self := setattr self "bias_init" (VObject "bias_init") in
      let self := setattr self "dot_general" dot_general in
      let self := setattr self "block_size" (VInt block_size) in
      ((rngs, self), Ok tt)
  end.

End Class.

Section Methods.

(** What the methods receive from [flax] and [jax]: the default stream
    [nnx.Rngs(0)]; the two steps of [dtypes.promote_dtype], which picks one
    element type from the requested [dtype] and all the arrays
    ([canonicalize_dtype]) and casts each array that is not [None] to it
    ([jnp.asarray]); the call [self.dot_general(inputs, kernel, ...,
    precision=self.precision)]; the broadcast addition of the bias; and
    [nnx.eval_shape(lambda: nnx.Linear(...))], the object [to_linear] starts
    from, built from nine attributes of [self]. *)
Variables Key Rngs : Type.
Variable rngs_params : Rngs -> Key * Rngs.
Variable default_rngs : Rngs.
Variable canonicalize_dtype :
  pyval -> ndarray -> ndarray -> option ndarray -> Dtype.
Variable asarray : ndarray -> Dtype -> ndarray.
Variable dot_general_apply : pyval -> ndarray -> ndarray -> pyval -> result ndarray.
Variable add_bias : ndarray -> ndarray -> result ndarray.
Variable nnx_Linear :
  pyval -> pyval -> pyval -> pyval -> pyval -> pyval -> pyval -> pyval -> pyval
  -> instance.

(** The attributes of an [nnx.Linear] that [from_linear] reads; [lin_kernel]
    and [lin_bias] are the [.value] of its parameters. *)
Record Linear : Type := {
  lin_in_features : nat;
  lin_out_features : nat;
  lin_use_bias : bool;
  lin_dtype : option Dtype;
  lin_param_dtype : Dtype;
  lin_precision : pyval;
  lin_kernel_init : Initializer Key;
  lin_bias_init : Initializer Key;
  lin_dot_general : pyval;
  lin_kernel : ndarray;
  lin_bias : pyval
}.

(** A kernel as [nnx.Linear] holds it: two dimensions, [in_features *
    out_features] entries. *)
Definition kernel_of (linear : Linear) : Prop :=
  shape (lin_kernel linear) = [lin_in_features linear; lin_out_features linear]
  /\ length (data (lin_kernel linear))
     = (lin_in_features linear * lin_out_features linear)%nat.

(** [self.<name>]. *)
Definition attribute (self : instance) (name : string) : result pyval :=
  match getattr self name with
  | Some v => Ok v
  | None =>
      Raise (AttributeError ("'LinearNF4' object has no attribute '"
                             ++ name ++ "'")%string)
  end.

(** [self.<name>.value]. *)
Definition param_value (self : instance) (name : string) : result pyval :=
  p <- attribute self name ;;
  match p with
  | VParam v => Ok v
  | _ => Raise (AttributeError "object has no attribute 'value'")
  end.

(** [_dequantize_kernel]: the three arguments are read, [dequantize_nf4]
    runs (it reads [packed_values.ndim] first and [len(absmax)] later, which
    [None] does not have), and the result is reshaped. *)
Definition _dequantize_kernel (self : instance) : result ndarray :=
  packed_values <- param_value self "packed_kernel" ;;
  absmax <- param_value self "scales" ;;
  block_size <- attribute self "block_size" ;;
  rows <- match packed_values, absmax, block_size with
          | VBytes packed_values, VFloats absmax, VInt block_size =>
              dequantize_nf4 packed_values absmax block_size
          | VBytes _, _, _ =>
              Raise (TypeError "object of type 'NoneType' has no len()")
          | _, _, _ =>
              Raise (AttributeError "'NoneType' object has no attribute 'ndim'")
          end ;;
  in_features <- attribute self "in_features" ;;
  out_features <- attribute self "out_features" ;;
  match in_features, out_features with
  | VInt in_features, VInt out_features =>
      if (length (concat rows) =? in_features * out_features)%nat then
        Ok {| shape := [in_features; out_features]; data := concat rows |}
      else Raise (TypeError "cannot reshape array")
  | _, _ => Raise (TypeError "cannot reshape array")
  end.

Definition get_kernel (self : instance) : result ndarray :=
  _dequantize_kernel self.

Definition get_quantized_kernel (self : instance) : result (pyval * pyval) :=
  packed_kernel <- param_value self "packed_kernel" ;;
  scales <- param_value self "scales" ;;
  Ok (packed_kernel, scales).

(** [__call__]. *)
Definition __call__ (self : instance) (inputs : ndarray) : result ndarray :=
  kernel <- _dequantize_kernel self ;;
  bias <- param_value self "bias" ;;
  dtype <- attribute self "dtype" ;;
  bias <- match bias with
          | VNone => Ok None
          | VArray bias => Ok (Some bias)
          | _ => Raise (TypeError "not a valid JAX array type")
          end ;;
  let dtype := canonicalize_dtype dtype inputs kernel bias in
  let inputs := asarray inputs dtype in
  let kernel := asarray kernel dtype in
  let bias := option_map (fun bias => asarray bias dtype) bias in
  dot_general <- attribute self "dot_general" ;;
  precision <- attribute self "precision" ;;
  y <- dot_general_apply dot_general inputs kernel precision ;;
  use_bias <- attribute self "use_bias" ;;
  match use_bias with
  | VBool use_bias =>
      if Bool.eqb use_bias (is_some bias) then
        match bias with
        | Some bias => add_bias y bias
        | None => Ok y
        end
      else Raise (AssertionError "")
  | _ => Raise (AssertionError "")
  end.

(** [from_linear]; [rngs = None] stands for the default.  The object is
    built by [__init__] with [do_init] left at its default [False]; then the
    kernel of [linear] is quantized and the parameters are assigned. *)
Definition from_linear (linear : Linear) (rngs : option Rngs) (block_size : nat)
  : result instance :=
  let rngs := match rngs with Some rngs => rngs | None => default_rngs end in
  let '((_, instance0), built) :=
    __init__ Key Rngs rngs_params [] (lin_in_features linear)
      (lin_out_features linear) (lin_use_bias linear) (lin_dtype linear)
      (lin_param_dtype linear) (lin_precision linear) false
      (lin_kernel_init linear) (lin_bias_init linear) (lin_dot_general linear)
      rngs block_size in
  _ <- built ;;
  quantized <- _quantize_kernel [VArray (lin_kernel linear); VInt block_size] ;;
  let instance0 :=
    setattr instance0 "packed_kernel" (VParam (VBytes (fst quantized))) in
  let instance0 := setattr instance0 "scales" (VParam (VFloats (snd quantized))) in
  let instance0 :=
    if lin_use_bias linear
    then setattr instance0 "bias" (VParam (lin_bias linear))
    else instance0 in
  Ok instance0.

(** [to_linear]. *)
Definition to_linear (self : instance) : result instance :=
  in_features <- attribute self "in_features" ;;
  out_features <- attribute self "out_features" ;;
  use_bias <- attribute self "use_bias" ;;
  dtype <- attribute self "dtype" ;;
  param_dtype <- attribute self "param_dtype" ;;
  precision <- attribute self "precision" ;;
  kernel_init <- attribute self "kernel_init" ;;
  bias_init <- attribute self "bias_init" ;;
  dot_general <- attribute self "dot_general" ;;
  let linear :=
    nnx_Linear in_features out_features use_bias dtype param_dtype precision
      kernel_init bias_init dot_general in
  dequantized_kernel <- _dequantize_kernel self ;;
  let linear := setattr linear "kernel" (VParam (VArray dequantized_kernel)) in
  match use_bias with
  | VBool true =>
      bias <- param_value self "bias" ;;
      Ok (setattr linear "bias" (VParam bias))
  | _ => Ok linear
  end.

End Methods.

Arguments lin_in_features {Key} l.
Arguments lin_out_features {Key} l.
Arguments lin_use_bias {Key} l.
Arguments lin_dtype {Key} l.
Arguments lin_param_dtype {Key} l.
Arguments lin_precision {Key} l.
Arguments lin_kernel_init {Key} l.
Arguments lin_bias_init {Key} l.
Arguments lin_dot_general {Key} l.
Arguments lin_kernel {Key} l.
Arguments lin_bias {Key} l.
Arguments kernel_of {Key} linear.

End LinearNF4.

End linear_nf4.

(** ** Arrays as the model wrappers see them: shape and element type *)

Module nnx.
Import Py.

(** [input_ids]: integer token ids of shape (batch, sequence). *)
Record IdsArray : Type := { ids_batch : nat; ids_len : nat }.

(** Hidden states, embeddings and logits: shape (batch, sequence, features)
    and the element type. *)
Record Array3 : Type :=
  { batch : nat; seq_len : nat; features : nat; dtype_of : Dtype }.

(** Exactly one of the two inputs of a forward call is supplied. *)
Definition exactly_one (input_ids : option IdsArray)
    (input_embeds : option Array3) : bool :=
  xorb (is_some input_ids) (is_some input_embeds).

(** [nnx.Embed(num_embeddings, features, dtype=dtype)(ids)]. *)
Definition Embed (features0 : nat) (dtype : Dtype) (ids : IdsArray) : Array3 :=
  {| batch := ids_batch ids; seq_len := ids_len ids;
     features := features0; dtype_of := dtype |}.

(** The element type [lax.dot_general] returns on two operands of type [d]. *)
Definition lax_dot_general (d : Dtype) : Dtype := d.

(** [nnx.Linear(in, out, dtype=dtype, dot_general=...)(x)]: input and kernel
    are first promoted to [dtype] ([dtypes.promote_dtype(..., dtype=dtype)],
    as in [LinearNF4.__call__]) and then multiplied by [dot_general], given
    here by the element type it returns. *)
Definition Linear (out_features : nat) (dtype : Dtype)
    (dot_general : Dtype -> Dtype) (x : Array3) : Array3 :=
  {| batch := batch x; seq_len := seq_len x;
     features := out_features; dtype_of := dot_general dtype |}.

(** [x.astype(dtype)]. *)
Definition astype (x : Array3) (dtype : Dtype) : Array3 :=
  {| batch := batch x; seq_len := seq_len x;
     features := features x; dtype_of := dtype |}.

(** The assertion message shared by the models that check the length. *)
Definition max_position_message (max_position_embeddings sequence_length : nat)
  : string :=
  ("Maximum Position Embedding Reached ! (Excepted <= "
   ++ str_of_nat max_position_embeddings ++ " got "
   ++ str_of_nat sequence_length ++ ")")%string.

End nnx.

(** ** [easydel/modules/mistral/modeling_mistral_flax.py] *)

Module modeling_mistral_flax.
Import Py nnx.

Record MistralConfig : Type := {
  hidden_size : nat;
  vocab_size : nat;
  max_position_embeddings : nat;
  tie_word_embeddings : bool;
  use_scan_mlp : bool;
  scan_mlp_chunk_size : nat;
  bits : option nat;
  easy_method : string
}.

Section Model.

(** The decoder layers followed by the final norm, on well-formed inputs. *)
Variable decoder_stack : Array3 -> Array3.
(** [get_dot_general_by_bits(bits, easy_method)]: the [dot_general] override
    the keyword arguments of [lm_head] carry, if any. *)
Variable get_dot_general_by_bits :
  option nat -> string -> option (Dtype -> Dtype).
(** The element type of [jax.lax.dot_general] on operands of two types. *)
Variable lax_dot_general2 : Dtype -> Dtype -> Dtype.

(** Lines 417-423 of [MistralModel.__call__]: the input check and the
    embedding lookup. *)
Definition MistralModel_inputs (config : MistralConfig) (dtype : Dtype)
    (input_ids : option IdsArray) (inputs_embeds : option Array3)
  : result Array3 :=
  if xorb (is_none input_ids) (is_some inputs_embeds) then
    Raise (ValueError "You cannot specify both input_ids and inputs_embeds at the same time, and must specify either one")
  else
    match inputs_embeds with
    | Some e => Ok e
    | None =>
        match input_ids with
        | Some ids => Ok (Embed (hidden_size config) dtype ids)
        | None => Raise (AttributeError "'NoneType' object has no attribute 'astype'")
        end
    end.

Definition MistralModel_call (config : MistralConfig) (dtype : Dtype)
    (input_ids : option IdsArray) (inputs_embeds : option Array3)
  : result Array3 :=
  inputs_embeds <- MistralModel_inputs config dtype input_ids inputs_embeds ;;
  let sequence_length := seq_len inputs_embeds in
  if (sequence_length <=? max_position_embeddings config)%nat then
    Ok (decoder_stack inputs_embeds)
  else
    Raise (AssertionError
             (max_position_message (max_position_embeddings config)
                                   sequence_length)).

(** [MistralForCausalLM.__call__]; the result is the logits array. *)
Definition MistralForCausalLM_call (config : MistralConfig)
    (dtype param_dtype : Dtype)
    (input_ids : option IdsArray) (inputs_embeds : option Array3)
  : result Array3 :=
  hidden_states <- MistralModel_call config dtype input_ids inputs_embeds ;;
  let lm_logits :=
    if tie_word_embeddings config then
      {| batch := batch hidden_states; seq_len := seq_len hidden_states;
         features := vocab_size config;
         dtype_of := lax_dot_general2 (dtype_of hidden_states) param_dtype |}
    else
      Linear (vocab_size config) dtype
        (match get_dot_general_by_bits (bits config) (easy_method config) with
         | Some dot_general => dot_general
         | None => lax_dot_general
         end)
        hidden_states in
  Ok lm_logits.

End Model.

Section DecoderLayer.

(** Hidden states with their addition; the sub-modules of one layer, with
    masks, positions, cache view and frequencies fixed. *)
Variable T : Type.
Variable add : T -> T -> T.
Variables input_layernorm post_attention_layernorm self_attn mlp : T -> T.
(** [block_wise_ffn(mlp, x, chunk_size)]. *)
Variable block_wise_ffn : (T -> T) -> T -> nat -> T.

(** [MistralDecoderLayer.__call__], first component of the result. *)
Definition MistralDecoderLayer_call (config : MistralConfig) (hidden_states : T)
  : T :=
  let residual := hidden_states in
  let attention_output := self_attn (input_layernorm hidden_states) in
  let hidden_states := add attention_output residual in
  let ffd_inp := post_attention_layernorm hidden_states in
  let feed_forward_hidden_states :=
    if use_scan_mlp config then
      block_wise_ffn mlp ffd_inp (scan_mlp_chunk_size config)
    else mlp ffd_inp in
  add hidden_states feed_forward_hidden_states.

End DecoderLayer.

Section Positions.

(** Two's-complement wrap of an [int32] result. *)
Definition int32 (z : Z) : Z :=
  ((z + 2147483648) mod 4294967296 - 2147483648)%Z.

(** [jnp.cumsum(row)] on [int32] entries, from the running sum [acc]. *)
Fixpoint cumsum_from (acc : Z) (row : list Z) : list Z :=
  match row with
  | [] => []
  | m :: row' => int32 (acc + m) :: cumsum_from (int32 (acc + m)) row'
  end.

Definition cumsum (row : list Z) : list Z := cumsum_from 0 row.

(** Lines 429-436 of [MistralModel.__call__] (the same lines are in
    [GPTNeoXModel.__call__] and [DbrxModel.__call__]): the mask and the
    position ids the layers receive, for masks and position ids of shape
    [(batch_size, sequence_length)]. *)
Definition MistralModel_positions (batch_size sequence_length : nat)
    (attention_mask position_ids : option (list (list Z)))
  : list (list Z) * list (list Z) :=
  let attention_mask :=
    match attention_mask with
    | Some attention_mask => attention_mask
    | None => repeat (repeat 1%Z sequence_length) batch_size
    end in
  let position_ids :=
    match position_ids with
    | Some position_ids => position_ids
    | None =>
        map (fun row => map (fun c => int32 (Z.max (int32 (c - 1)) 0))
                            (cumsum row))
            attention_mask
    end in
  (attention_mask, position_ids).

End Positions.

Section Layers.

(** Hidden states and attention weights; a layer, with the mask, the
    positions, its cache view and the frequencies fixed, returns both; the
    final norm. *)
Variables T A : Type.
Variable norm : T -> T.

(** The loop of [MistralModel.__call__] over [self.layers]. *)
Fixpoint MistralModel_layers (layers : list (T -> T * A))
    (output_attentions output_hidden_states : bool) (hidden_states : T)
    (all_hidden_states : option (list T)) (all_attentions : option (list A))
  : T * option (list T) * option (list A) :=
  match layers with
  | [] => (hidden_states, all_hidden_states, all_attentions)
  | block :: layers' =>
      let all_hidden_states :=
        if output_hidden_states
        then option_map (fun l => l ++ [hidden_states]) all_hidden_states
        else all_hidden_states in
      let layer_outputs := block hidden_states in
      let hidden_states := fst layer_outputs in
      let all_attentions :=
        if output_attentions
        then option_map (fun l => l ++ [snd layer_outputs]) all_attentions
        else all_attentions in
      MistralModel_layers layers' output_attentions output_hidden_states
        hidden_states all_hidden_states all_attentions
  end.

(** Lines 414-415 and 441-467: what is collected while the layers run. *)
Definition MistralModel_outputs (layers : list (T -> T * A))
    (output_attentions output_hidden_states : bool) (inputs_embeds : T)
  : T * option (list T) * option (list A) :=
  let all_attentions := if output_attentions then Some [] else None in
  let all_hidden_states := if output_hidden_states then Some [] else None in
  let '(hidden_states, all_hidden_states, all_attentions) :=
    MistralModel_layers layers output_attentions output_hidden_states
      inputs_embeds all_hidden_states all_attentions in
  let hidden_states := norm hidden_states in
  let all_hidden_states :=
    if output_hidden_states
    then option_map (fun l => l ++ [hidden_states]) all_hidden_states
    else all_hidden_states in
  (hidden_states, all_hidden_states, all_attentions).

End Layers.

Section SequenceClassification.

(** The score vector of one token, and [self.score(self.model(...)[0])]:
    the scores of every token of every batch row, or what the model
    raises. *)
Variable Scores : Type.
Variable score_of_model :
  option (list (list Z)) -> option Array3 -> result (list (list Scores)).

(** [jnp.argmax]: the first position of the largest entry; an empty axis
    raises. *)
Fixpoint argmax_from (best_index : nat) (best : Z) (index : nat) (l : list Z)
  : nat :=
  match l with
  | [] => best_index
  | v :: l' =>
      if (best <? v)%Z then argmax_from index v (S index) l'
      else argmax_from best_index best (S index) l'
  end.

Definition argmax (l : list Z) : result nat :=
  match l with
  | [] => Raise (ValueError "attempt to get argmax of an empty sequence")
  | v :: l' => Ok (argmax_from 0 v 1 l')
  end.

(** Lines 651-656 for one row of [input_ids]. *)
Definition sequence_length (pad_token_id : Z) (row : list Z) : result Z :=
  let is_pad := map (fun t => if (t =? pad_token_id)%Z then 1%Z else 0%Z) row in
  first_pad <- argmax is_pad ;;
  Ok ((Z.of_nat first_pad - 1) mod Z.of_nat (length row))%Z.

(** [row[index]] as [jax] reads it: a negative index counts from the
    end, an index out of range is clamped; [unspecified] is what a read
    from an empty row yields. *)
Variable unspecified : Scores.

Definition take (row : list Scores) (index : Z) : Scores :=
  let n := Z.of_nat (length row) in
  let index := if (index <? 0)%Z then (index + n)%Z else index in
  nth (Z.to_nat (Z.min (Z.max index 0) (n - 1))) row unspecified.

(** [logits[jnp.arange(batch_size), sequence_lengths]], one index per
    batch row. *)
Definition pool (logits : list (list Scores)) (sequence_lengths : list Z)
  : list Scores :=
  map (fun row_index => take (fst row_index) (snd row_index))
      (combine logits sequence_lengths).

(** [MistralForSequenceClassification.__call__]: the pooled logits.
    [pad_token_id] is [config.pad_token_id]. *)
Definition MistralForSequenceClassification_call (pad_token_id : option Z)
    (input_ids : option (list (list Z))) (inputs_embeds : option Array3)
  : result (list Scores) :=
  logits <- score_of_model input_ids inputs_embeds ;;
  batch_size <- match input_ids, inputs_embeds with
                | Some input_ids, _ => Ok (length input_ids)
                | None, Some inputs_embeds => Ok (batch inputs_embeds)
                | None, None =>
                    Raise (AttributeError "'NoneType' object has no attribute 'shape'")
                end ;;
  if is_none pad_token_id && negb (batch_size =? 1)%nat then
    Raise (ValueError "Cannot handle batch sizes > 1 if no padding token is defined.")
  else
    sequence_lengths <-
      match pad_token_id, input_ids with
      | Some pad_token_id, Some input_ids =>
          all_rows (map (sequence_length pad_token_id) input_ids)
      | _, _ => Ok (repeat (-1)%Z batch_size)
      end ;;
    Ok (pool logits sequence_lengths).

End SequenceClassification.

End modeling_mistral_flax.

(** ** [easydel/modules/gpt_neo_x/modeling_gpt_neo_x_flax.py] *)

Module modeling_gpt_neo_x_flax.
Import Py nnx.

Record GPTNeoXConfig : Type := {
  hidden_size : nat;
  vocab_size : nat;
  max_position_embeddings : nat;
  tie_word_embeddings : bool;
  use_parallel_residual : bool
}.

Section Model.

Variable decoder_stack : Array3 -> Array3.

(** Lines 378-386 of [GPTNeoXModel.__call__]. *)
Definition GPTNeoXModel_inputs (config : GPTNeoXConfig) (dtype : Dtype)
    (input_ids : option IdsArray) (input_embeds : option Array3)
  : result Array3 :=
  if is_some input_ids && is_some input_embeds then
    Raise (ValueError "You cannot specify both decoder_input_ids and decoder_input_embeds at the same time")
  else
    match input_embeds, input_ids with
    | None, Some ids => Ok (Embed (hidden_size config) dtype ids)
    | _, _ =>
        Raise (ValueError "you should specify input_embeds or input_ids one of them")
    end.

Definition GPTNeoXModel_call (config : GPTNeoXConfig) (dtype : Dtype)
    (input_ids : option IdsArray) (input_embeds : option Array3)
  : result Array3 :=
  input_embeds <- GPTNeoXModel_inputs config dtype input_ids input_embeds ;;
  let sequence_length := seq_len input_embeds in
  if (sequence_length <=? max_position_embeddings config)%nat then
    Ok (decoder_stack input_embeds)
  else
    Raise (AssertionError
             (max_position_message (max_position_embeddings config)
                                   sequence_length)).

(** [GPTNeoXForCausalLM.__call__]; the result is the logits array. *)
Definition GPTNeoXForCausalLM_call (config : GPTNeoXConfig) (dtype : Dtype)
    (input_ids : option IdsArray) (input_embeds : option Array3)
  : result Array3 :=
  hidden_states <- GPTNeoXModel_call config dtype input_ids input_embeds ;;
  let lm_logits :=
    if tie_word_embeddings config then
      Linear (vocab_size config) dtype lax_dot_general hidden_states
    else
      Linear (vocab_size config) dtype lax_dot_general hidden_states in
  let lm_logits := astype lm_logits float32 in
  Ok lm_logits.

End Model.

Section Block.

Variable T : Type.
Variable add : T -> T -> T.
Variables input_layernorm post_attention_layernorm attention mlp : T -> T.

(** [GPTNeoXBlock.__call__], first component of the result. *)
Definition GPTNeoXBlock_call (config : GPTNeoXConfig) (hidden_states : T) : T :=
  let attn := attention (input_layernorm hidden_states) in
  if use_parallel_residual config then
    let mlp0 := mlp (post_attention_layernorm hidden_states) in
    add (add mlp0 hidden_states) attn
  else
    let hidden_states := add attn hidden_states in
    add (mlp (post_attention_layernorm hidden_states)) hidden_states.

End Block.

End modeling_gpt_neo_x_flax.

(** ** [easydel/modules/dbrx/modelling_dbrx_flax.py] *)

Module modelling_dbrx_flax.
Import Py nnx.

(** Python floats of the configuration are rationals; [int(q)] truncates
    towards zero. *)
Definition py_int (q : Q) : Z :=
  if Qle_bool 0 q then Qfloor q else Qceiling q.

(** The fields of [config.ffn_config] that [DbrxRouter.__init__] reads. *)
Record DbrxFFNConfig : Type := {
  moe_num_experts : Z;
  moe_top_k : nat;
  moe_jitter_eps : option Q;
  moe_normalize_expert_weights : option Q;
  uniform_expert_assignment : bool
}.

(** Modelled from the spec: [dbrx_configuration.py] is not among the sources;
    the fields are the ones [modelling_dbrx_flax.py] reads, together with the
    configured maximum position count ([max_seq_len], which the configuration
    also answers to as [max_position_embeddings]). *)
Record DbrxConfig : Type := {
  d_model : nat;
  vocab_size : nat;
  max_seq_len : nat;
  bits : option nat;
  easy_method : string;
  ffn_config : DbrxFFNConfig
}.

Definition hidden_size (config : DbrxConfig) : nat := d_model config.
Definition max_position_embeddings (config : DbrxConfig) : nat :=
  max_seq_len config.

Section Model.

Variable decoder_stack : Array3 -> Array3.
Variable get_dot_general_by_bits :
  option nat -> string -> option (Dtype -> Dtype).

(** Lines 732-741 of [DbrxModel.__call__]. *)
Definition DbrxModel_inputs (config : DbrxConfig) (dtype : Dtype)
    (input_ids : option IdsArray) (input_embeds : option Array3)
  : result Array3 :=
  if is_some input_ids && is_some input_embeds then
    Raise (ValueError "You cannot specify both decoder_input_ids and decoder_input_embeds at the same time")
  else
    match input_embeds, input_ids with
    | None, Some ids => Ok (Embed (d_model config) dtype ids)
    | _, _ =>
        Raise (ValueError "you should specify input_embeds or input_ids one of them")
    end.

(** The rest of [DbrxModel.__call__]: no length is compared with the
    configuration before the blocks run. *)
Definition DbrxModel_call (config : DbrxConfig) (dtype : Dtype)
    (input_ids : option IdsArray) (input_embeds : option Array3)
  : result Array3 :=
  input_embeds <- DbrxModel_inputs config dtype input_ids input_embeds ;;
  Ok (decoder_stack input_embeds).

(** [DbrxForCausalLM.__call__]; the result is the logits array. *)
Definition DbrxForCausalLM_call (config : DbrxConfig) (dtype : Dtype)
    (input_ids : option IdsArray) (input_embeds : option Array3)
  : result Array3 :=
  last_hidden_state <- DbrxModel_call config dtype input_ids input_embeds ;;
  let logits :=
    Linear (vocab_size config) dtype
      (match get_dot_general_by_bits (bits config) (easy_method config) with
       | Some dot_general => dot_general
       | None => lax_dot_general
       end)
      last_hidden_state in
  Ok logits.

End Model.

Section Block.

(** Hidden states with their addition; the sub-modules of one block, with
    masks, positions, cache view and frequencies fixed. *)
Variable T : Type.
Variable add : T -> T -> T.
Variables norm_1 norm_2 attn dropout ffn : T -> T.

(** [DbrxNormAttentionNorm.__call__]: residual and normalised states. *)
Definition DbrxNormAttentionNorm_call (hidden_states : T) : T * T :=
  let residual_states := hidden_states in
  let hidden_states := norm_1 hidden_states in
  let hidden_states := attn hidden_states in
  let hidden_states := dropout hidden_states in
  let hidden_states := add hidden_states residual_states in
  let residual_states := hidden_states in
  let hidden_states := norm_2 hidden_states in
  (residual_states, hidden_states).

(** [DbrxBlock.__call__], first component of the result. *)
Definition DbrxBlock_call (hidden_states : T) : T :=
  let '(resid_states, hidden_states) :=
    DbrxNormAttentionNorm_call hidden_states in
  let hidden_states := ffn hidden_states in
  add resid_states hidden_states.

End Block.

(** *** [DbrxRouter] *)

Local Open Scope R_scope.

(** A (batch, sequence, last-axis) array as nested lists. *)
Definition tensor3 (A : Type) : Type := list (list (list A)).

Definition map3 {A B} (f : A -> B) (t : tensor3 A) : tensor3 B :=
  map (map (map f)) t.

Fixpoint zip_with {A B C} (f : A -> B -> C) (l : list A) (m : list B) : list C :=
  match l, m with
  | a :: l', b :: m' => f a b :: zip_with f l' m'
  | _, _ => []
  end.

(** Element-wise product of two arrays of one shape. *)
Definition mul3 (x y : tensor3 R) : tensor3 R :=
  zip_with (zip_with (zip_with Rmult)) x y.

Definition shape3 {A} (t : tensor3 A) : nat * nat * nat :=
  (length t, length (hd [] t), length (hd [] (hd [] t))).

(** Row-major [flat.reshape(shape)]: entry [(b, s, j)] of the result is
    entry [(b * ns + s) * nk + j] of [flat]. *)
Definition reshape3 {A} (d : A) (flat : list A) (shape : nat * nat * nat)
  : tensor3 A :=
  let '(nb, ns, nk) := shape in
  map (fun b =>
         map (fun s =>
                map (fun j => nth ((b * ns + s) * nk + j)%nat flat d) (seq 0 nk))
             (seq 0 ns))
      (seq 0 nb).

(** Two's-complement wrap of an [int32] result. *)
Definition wrap32 (z : Z) : Z :=
  ((z + 2147483648) mod 4294967296 - 2147483648)%Z.

(** [jnp.arange(0, stop, dtype=int32)]. *)
Definition arange (stop : Z) : list Z :=
  map (fun i => wrap32 (Z.of_nat i)) (seq 0 (Z.to_nat stop)).

Definition sum (l : list R) : R := fold_right Rplus 0 l.

(** [jax.nn.softmax] over the last axis. *)
Definition softmax (logits : list R) : list R :=
  let x_max := fold_right Rmax (hd 0 logits) logits in
  let unnormalized := map (fun x => exp (x - x_max)) logits in
  map (fun u => u / sum unnormalized) unnormalized.

(** [jax.lax.top_k]: the [k] largest entries in descending order with their
    positions, the earlier position first among equal entries. *)
Definition better (a b : nat * R) : nat * R :=
  if Rlt_dec (snd a) (snd b) then b else a.

Definition best (c : nat * R) (cs : list (nat * R)) : nat * R :=
  fold_left better cs c.

(** The order [best] realises on candidates listed by increasing position:
    the larger value first, the earlier position first among equal
    values. *)
Definition candidate_before (a b : nat * R) : Prop :=
  snd b < snd a \/ (snd a = snd b /\ (fst a < fst b)%nat).

Fixpoint select (k : nat) (cands : list (nat * R)) : list (nat * R) :=
  match k with
  | O => []
  | S k' =>
      match cands with
      | [] => []
      | c :: cs =>
          let b := best c cs in
          b :: select k' (filter (fun p => negb (fst p =? fst b)%nat) cands)
      end
  end.

Definition top_k (operand : list R) (k : nat) : result (list R * list Z) :=
  if (length operand <? k)%nat then
    Raise (ValueError "k argument to top_k must be no larger than minor dimension")
  else
    let chosen := select k (combine (seq 0 (length operand)) operand) in
    Ok (map snd chosen, map (fun p => Z.of_nat (fst p)) chosen).

(** [jnp.linalg.norm(v, ord=ord, axis=-1)] for an integer [ord]. *)
Definition vector_norm (ord : Z) (v : list R) : R :=
  match ord with
  | 0%Z => INR (length (filter (fun x => if Req_dec_T x 0 then false else true) v))
  | 1%Z => sum (map Rabs v)
  | 2%Z => sqrt (sum (map (fun x => x * x) v))
  | _ => Rpower (sum (map (fun x => Rpower (Rabs x) (IZR ord)) v)) (/ IZR ord)
  end.

(** Truth value of an optional configuration float. *)
Definition truthy (q : option Q) : bool :=
  match q with
  | Some q => negb (Qeq_bool q 0)
  | None => false
  end.

(** Mapping with the position of each entry. *)
Fixpoint imap_from {A B} (i : nat) (f : nat -> A -> B) (l : list A) : list B :=
  match l with
  | [] => []
  | a :: l' => f i a :: imap_from (S i) f l'
  end.

Definition imap {A B} (f : nat -> A -> B) (l : list A) : list B :=
  imap_from 0 f l.

(** Lines 471-474 for one entry: the factor computed from the sample
    [noise] drawn for it. *)
Definition jitter_factor (moe_jitter_eps0 : Q) (noise : R) : R :=
  let low := 1 - Q2R moe_jitter_eps0 in
  let high := 1 + Q2R moe_jitter_eps0 in
  low + noise * (high - low).

(** [self.make_rng(name)] on a [DbrxRouter]: the class is a [flax.nnx]
    module; neither it nor [nnx.Module] defines [make_rng] (the method of
    [flax.linen] modules), so the attribute lookup raises before any key is
    made. *)
Definition make_rng (name : string) : result unit :=
  Raise (AttributeError "'DbrxRouter' object has no attribute 'make_rng'").

Section Router.

Variable config : DbrxFFNConfig.
(** [self.layer]: the learned projection of one hidden vector to the
    per-expert logits. *)
Variable layer : list R -> list R.

(** [jitter]: the key comes from [self.make_rng("params")]; [normal b s i]
    is the sample [jax.random.normal] would draw with it for position
    [(b, s, i)] of an array of the shape of [x]. *)
Definition jitter (normal : nat -> nat -> nat -> R) (x : tensor3 R)
  : result (tensor3 R) :=
  match moe_jitter_eps config with
  | None => Raise (RuntimeError "The router does not have moe_jitter_eps set.")
  | Some eps =>
      key <- make_rng "params" ;;
      Ok (imap (fun b =>
                  imap (fun s =>
                          imap (fun i _ => jitter_factor eps (normal b s i))))
               x)
  end.

(** Lines 479-482: the logits the routing is computed from. *)
Definition router_logits (normal : nat -> nat -> nat -> R) (x : tensor3 R)
    (deterministic : bool) : result (tensor3 R) :=
  x <- (if negb deterministic && is_some (moe_jitter_eps config) then
          factor <- jitter normal x ;; Ok (mul3 x factor)
        else Ok x) ;;
  Ok (map (map layer) x).

(** Lines 483-492 for the logits of one token. *)
Definition route_token (logits : list R) : result (list R * (list R * list Z)) :=
  let weights := softmax logits in
  top <- top_k weights (moe_top_k config) ;;
  let '(top_weights, top_experts) := top in
  let top_weights :=
    if truthy (moe_normalize_expert_weights config) then
      match moe_normalize_expert_weights config with
      | Some p =>
          map (fun w => w / vector_norm (py_int p) top_weights) top_weights
      | None => top_weights
      end
    else top_weights in
  Ok (weights, (top_weights, top_experts)).

(** Lines 494-507: the index array that replaces [top_experts]; the
    reshape raises unless the sizes agree. *)
Definition uniform_assignment (top_experts : tensor3 Z) : result (tensor3 Z) :=
  let '(nb, ns, nk) := shape3 top_experts in
  let size := wrap32 (Z.of_nat nb * Z.of_nat ns * Z.of_nat nk) in
  let indices := map (fun i => (i mod moe_num_experts config)%Z) (arange size) in
  if (length indices =? nb * ns * nk)%nat then
    Ok (reshape3 0%Z indices (shape3 top_experts))
  else Raise (TypeError "cannot reshape array").

(** Lines 483-511: everything after the projection. *)
Definition route (logits : tensor3 R)
  : result (tensor3 R * tensor3 R * tensor3 Z) :=
  routed <- all_rows (map (fun row => all_rows (map route_token row)) logits) ;;
  let weights := map (map fst) routed in
  let top_weights := map (map (fun r => fst (snd r))) routed in
  let top_experts := map (map (fun r => snd (snd r))) routed in
  top_experts <- (if uniform_expert_assignment config
                  then uniform_assignment top_experts
                  else Ok top_experts) ;;
  Ok (weights, top_weights, top_experts).

(** [DbrxRouter.__call__]. *)
Definition DbrxRouter_call (normal : nat -> nat -> nat -> R) (x : tensor3 R)
    (deterministic : bool)
  : result (tensor3 R * tensor3 R * tensor3 Z) :=
  logits <- router_logits normal x deterministic ;;
  route logits.

End Router.

(** The top-k weights are normalised with the L1 norm
    ([int(moe_normalize_expert_weights) == 1]) and there is at least one of
    them. *)
Definition l1_normalized (config : DbrxFFNConfig) : Prop :=
  (1 <= moe_top_k config)%nat
  /\ exists p, moe_normalize_expert_weights config = Some p /\ py_int p = 1%Z.

(** The call applies no jitter: line 479 is false. *)
Definition no_jitter (config : DbrxFFNConfig) (deterministic : bool) : Prop :=
  deterministic = true \/ moe_jitter_eps config = None.



(** *** [DbrxExpertGLU], [DbrxExperts] and [DbrxFFN] *)

Definition zeros_like (x : tensor3 R) : tensor3 R := map3 (fun _ => 0) x.

(** Element-wise sum of two arrays of one shape. *)
Definition add3 (x y : tensor3 R) : tensor3 R :=
  zip_with (zip_with (zip_with Rplus)) x y.

Definition dot (x y : list R) : R := sum (zip_with Rmult x y).

(** [jnp.matmul(x, jnp.expand_dims(w.T, 0))] for one token [x] and a
    matrix [w] given by its rows: one entry per row of [w]. *)
Definition matmul_transposed (x : list R) (w : list (list R)) : list R :=
  map (dot x) w.

(** [jnp.matmul(x, jnp.expand_dims(w, 0))] for one token [x] and a matrix
    [w] of [columns] columns given by its rows. *)
Definition matmul (x : list R) (w : list (list R)) (columns : nat) : list R :=
  map (fun d => sum (zip_with (fun a row => a * nth d row 0) x w))
      (seq 0 columns).

(** [jnp.sum(jnp.multiply(index == top_experts, top_weights), axis=-1)]
    for the slots of one token. *)
Definition expert_weight (index : Z) (top_experts : list Z)
    (top_weights : list R) : R :=
  sum (zip_with (fun e w => (if (index =? e)%Z then 1 else 0) * w)
                top_experts top_weights).

(** [c[:, :, None] * t]: every token of [t] scaled by its entry of [c]. *)
Definition scale_tokens (c : list (list R)) (t : tensor3 R) : tensor3 R :=
  zip_with (zip_with (fun c v => map (Rmult c) v)) c t.

Section FFN.

Variable config : DbrxFFNConfig.
(** [config.ffn_config.ffn_hidden_size] and [config.d_model]. *)
Variables ffn_hidden_size d_model : nat.
(** The router's projection, the three parameters of [DbrxExpertGLU], each
    of shape [(moe_num_experts * ffn_hidden_size, d_model)] and given by its
    rows, and the activation function, applied entry by entry. *)
Variable layer : list R -> list R.
Variables w1 v1 w2 : list (list R).
Variable activation_fn : R -> R.

(** [w.reshape(expert_shape)[expert_idx]]: the rows of one expert. *)
Definition expert_rows (w : list (list R)) (expert_idx : nat) : list (list R) :=
  firstn ffn_hidden_size (skipn (expert_idx * ffn_hidden_size) w).

(** [DbrxExpertGLU.__call__] on one token. *)
Definition DbrxExpertGLU_token (x : list R) (expert_idx : nat) : list R :=
  let expert_w1 := expert_rows w1 expert_idx in
  let expert_v1 := expert_rows v1 expert_idx in
  let expert_w2 := expert_rows w2 expert_idx in
  let x1 := matmul_transposed x expert_w1 in
  let x2 := matmul_transposed x expert_v1 in
  let x1 := map activation_fn x1 in
  let x1 := zip_with Rmult x1 x2 in
  matmul x1 expert_w2 d_model.

(** [DbrxExpertGLU.__call__]: the matrix products act on the last axis. *)
Definition DbrxExpertGLU_call (x : tensor3 R) (expert_idx : nat) : tensor3 R :=
  map (map (fun token => DbrxExpertGLU_token token expert_idx)) x.

(** [DbrxExperts.__call__]: every expert runs on every token. *)
Definition DbrxExperts_call (x weights top_weights : tensor3 R)
    (top_experts : tensor3 Z) : tensor3 R :=
  fold_left
    (fun final_hidden_state index =>
       let output_moe_layer := DbrxExpertGLU_call x index in
       add3 final_hidden_state
         (scale_tokens
            (zip_with (zip_with (expert_weight (Z.of_nat index)))
                      top_experts top_weights)
            output_moe_layer))
    (seq 0 (Z.to_nat (moe_num_experts config)))
    (zeros_like x).


End FFN.

End modelling_dbrx_flax.

(** ** [easydel/utils/helpers.py] *)

Module helpers.

Local Open Scope R_scope.

(** The exceptions of this file. *)
Inductive exception : Type :=
| RuntimeError (message : string)
| AssertionError
| KeyError (key : string).

Inductive outcome (A : Type) : Type :=
| Returned (a : A)
| Raised (e : exception).
Arguments Returned {A} a.
Arguments Raised {A} e.

(** *** [get_logger] *)

(** [_LOGGING_LEVELS]. *)
Definition _LOGGING_LEVELS : list (string * nat) :=
  [("CRITICAL", 50); ("FATAL", 50); ("ERROR", 40); ("WARNING", 30);
   ("WARN", 30); ("INFO", 20); ("DEBUG", 10); ("NOTSET", 0)]%string%nat.

Fixpoint level_of (key : string) (levels : list (string * nat)) : outcome nat :=
  match levels with
  | [] => Raised (KeyError key)
  | (k, v) :: levels' => if String.eqb k key then Returned v else level_of key levels'
  end.

(** The default of the parameter [level], computed once from the
    environment variable [LOGGING_LEVEL_ED]. *)
Definition default_level (LOGGING_LEVEL_ED : option string) : outcome nat :=
  level_of (match LOGGING_LEVEL_ED with Some v => v | None => "INFO"%string end)
           _LOGGING_LEVELS.

(** A [logging.StreamHandler] and a [logging.Logger], by the attributes
    set here; the loggers that [logging.getLogger] knows, by name. *)
Record Handler : Type := { handler_level : nat; formatter : string }.

Record Logger : Type := {
  logger_level : nat;
  propagate : bool;
  handlers : list Handler
}.

Fixpoint find_logger (key : string) (loggers : list (string * Logger))
  : option Logger :=
  match loggers with
  | [] => None
  | (k, v) :: loggers' =>
      if String.eqb k key then Some v else find_logger key loggers'
  end.

(** [logging.getLogger(name)]: the logger of that name, created at level
    [NOTSET] without handlers when the name is new. *)
Definition getLogger (key : string) (loggers : list (string * Logger)) : Logger :=
  match find_logger key loggers with
  | Some logger => logger
  | None => {| logger_level := 0; propagate := true; handlers := [] |}
  end.

Fixpoint store_logger (key : string) (logger : Logger)
    (loggers : list (string * Logger)) : list (string * Logger) :=
  match loggers with
  | [] => [(key, logger)]
  | (k, v) :: loggers' =>
      if String.eqb k key then (k, logger) :: loggers'
      else (k, v) :: store_logger key logger loggers'
  end.

(** [get_logger(name, level)] in the process of index [process_index]:
    the loggers afterwards; the logger returned is the one of that name. *)
Definition get_logger (process_index : nat) (key : string) (level : nat)
    (loggers : list (string * Logger)) : list (string * Logger) :=
  let level := if (0 <? process_index)%nat then 30%nat else level in
  let logger := getLogger key loggers in
  let console_handler :=
    {| handler_level := level;
       formatter := "%(asctime)s %(levelname)-8s [%(name)s] %(message)s" |} in
  store_logger key
    {| logger_level := level; propagate := false;
       handlers := handlers logger ++ [console_handler] |}
    loggers.

(** *** [class Timer] *)

Record Timer : Type := {
  name : string;
  elapsed : R;
  started : bool;
  start_time : R
}.

(** What was handed to the outside: a [logger.info] message, a
    [tensorboard_writer.scalar] call, a [wandb.log] call, a warning. *)
Inductive event : Type :=
| Info (message : string)
| Scalar (tag : string) (value : R) (iteration : nat)
| WandbLog (tag : string) (value : R) (iteration : nat)
| Warning (message : string).

(** The state the methods act on: the readings [time.time()] returns, one
    after the other; the [Timer] objects by address, so that a timer handed
    out and the entry of [Timers.timers] are one object; the fields of the
    [Timers] object; the events so far, most recent first. *)
Record State : Type := {
  now : nat -> R;
  ticks : nat;
  objects : list Timer;
  timers : list (string * nat);
  use_wandb : bool;
  tensorboard_writer : bool;
  events : list event
}.

(** Computations: the state after the call, and what it returned or
    raised.  What was changed before an exception stays changed. *)
Definition M (A : Type) : Type := State -> State * outcome A.

Definition ret {A} (a : A) : M A := fun s => (s, Returned a).

Definition raise {A} (e : exception) : M A := fun s => (s, Raised e).

Definition and_then {A B} (c : M A) (k : A -> M B) : M B :=
  fun s =>
    match c s with
    | (s', Returned a) => k a s'
    | (s', Raised e) => (s', Raised e)
    end.

Notation "x <~ c1 ;; c2" := (and_then c1 (fun x => c2))
  (at level 61, c1 at next level, right associativity).

(** [try: c finally: f]: [f] runs either way; what [f] raises replaces
    the outcome of [c]. *)
Definition try_finally {A} (c : M A) (f : M unit) : M A :=
  fun s =>
    match c s with
    | (s', r) =>
        match f s' with
        | (s'', Returned _) => (s'', r)
        | (s'', Raised e) => (s'', Raised e)
        end
    end.

(** [time.time()]. *)
Definition time_time : M R :=
  fun s =>
    ({| now := now s; ticks := S (ticks s); objects := objects s;
        timers := timers s; use_wandb := use_wandb s;
        tensorboard_writer := tensorboard_writer s; events := events s |},
     Returned (now s (ticks s))).

Definition emit (e : event) : M unit :=
  fun s =>
    ({| now := now s; ticks := ticks s; objects := objects s;
        timers := timers s; use_wandb := use_wandb s;
        tensorboard_writer := tensorboard_writer s; events := e :: events s |},
     Returned tt).

(** [Timer(name)]. *)
Definition Timer_init (name0 : string) : Timer :=
  {| name := name0; elapsed := 0; started := false; start_time := 0 |}.

(** Reading and writing the object at an address. *)
Definition get (self : nat) : M Timer :=
  fun s => (s, Returned (nth self (objects s) (Timer_init ""))).

Fixpoint replace_nth {A} (n : nat) (a : A) (l : list A) : list A :=
  match l, n with
  | [], _ => []
  | _ :: l', O => a :: l'
  | b :: l', S n' => b :: replace_nth n' a l'
  end.

Definition put (self : nat) (t : Timer) : M unit :=
  fun s =>
    ({| now := now s; ticks := ticks s;
        objects := replace_nth self t (objects s);
        timers := timers s; use_wandb := use_wandb s;
        tensorboard_writer := tensorboard_writer s; events := events s |},
     Returned tt).

Definition start (self : nat) : M unit :=
  t <~ get self ;;
  if started t then
    raise (RuntimeError ("Timer '" ++ name t ++ "' is already running"))
  else
    time <~ time_time ;;
    put self {| name := name t; elapsed := elapsed t; started := true;
                start_time := time |}.

Definition stop (self : nat) : M unit :=
  t <~ get self ;;
  if negb (started t) then
    raise (RuntimeError ("Timer '" ++ name t ++ "' is not running"))
  else
    time <~ time_time ;;
    put self {| name := name t; elapsed := elapsed t + (time - start_time t);
                started := false; start_time := start_time t |}.

Definition reset (self : nat) : M unit :=
  t <~ get self ;;
  put self {| name := name t; elapsed := 0; started := false; start_time := 0 |}.

Definition elapsed_time (self : nat) (reset0 : bool) : M R :=
  t <~ get self ;;
  _ <~ (if started t then stop self else ret tt) ;;
  t <~ get self ;;
  let total_time := elapsed t in
  _ <~ (if reset0 then reset self else ret tt) ;;
  ret total_time.

(** [with timer: body]: [__enter__] starts, [__exit__] stops and returns
    [None], so that what the body raised is raised again. *)
Definition with_timer {A} (self : nat) (body : M A) : M A :=
  _ <~ start self ;;
  try_finally body (stop self).

(** *** [class Timers] *)

Section Timers.

(** The text of [f"{value:.4f}"], and whether [wandb] could be imported. *)
Variable format_4f : R -> string.
Variable wandb_installed : bool.

Fixpoint lookup (key : string) (d : list (string * nat)) : option nat :=
  match d with
  | [] => None
  | (k, v) :: d' => if String.eqb k key then Some v else lookup key d'
  end.

(** [Timers.__call__]. *)
Definition Timers_call (name0 : string) : M nat :=
  fun s =>
    match lookup name0 (timers s) with
    | Some timer => (s, Returned timer)
    | None =>
        let timer := length (objects s) in
        ({| now := now s; ticks := ticks s;
            objects := objects s ++ [Timer_init name0];
            timers := (name0, timer) :: timers s; use_wandb := use_wandb s;
            tensorboard_writer := tensorboard_writer s; events := events s |},
         Returned timer)
    end.

(** [self.timers[name]]. *)
Definition timers_item (name0 : string) : M nat :=
  fun s =>
    match lookup name0 (timers s) with
    | Some timer => (s, Returned timer)
    | None => (s, Raised (KeyError name0))
    end.

Definition escape : string := String (Ascii.ascii_of_nat 27) "".

(** [_print_log]: the unit and the colour by the size of [elapsed_time],
    given in milliseconds. *)
Definition time_str_color (elapsed_time0 : R) : string * string :=
  if Rlt_dec elapsed_time0 1000 then
    (format_4f elapsed_time0 ++ " ms", escape ++ "[94m")%string
  else if Rlt_dec elapsed_time0 60000 then
    (format_4f (elapsed_time0 / 1000) ++ " sec", escape ++ "[92m")%string
  else if Rlt_dec elapsed_time0 3600000 then
    (format_4f (elapsed_time0 / 60000) ++ " min", escape ++ "[93m")%string
  else
    (format_4f (elapsed_time0 / 3600000) ++ " hr", escape ++ "[91m")%string.

Definition _print_log (name0 : string) (elapsed_time0 : R) : M unit :=
  let '(time_str, color) := time_str_color elapsed_time0 in
  emit (Info ("time took for " ++ name0 ++ " : " ++ color ++ time_str
              ++ escape ++ "[0m")%string).

(** A loop over [names]: the first exception ends it. *)
Fixpoint for_each (names : list string) (body : string -> M unit) : M unit :=
  match names with
  | [] => ret tt
  | name0 :: names' => _ <~ body name0 ;; for_each names' body
  end.

Definition set_use_wandb (b : bool) : M unit :=
  fun s =>
    ({| now := now s; ticks := ticks s; objects := objects s;
        timers := timers s; use_wandb := b;
        tensorboard_writer := tensorboard_writer s; events := events s |},
     Returned tt).

(** [Timers.write]. *)
Definition write (names : list string) (iteration : nat) (normalizer : R)
    (reset0 : bool) : M unit :=
  if Rlt_dec 0 normalizer then
    for_each names
      (fun name0 =>
         timer <~ timers_item name0 ;;
         total <~ elapsed_time timer reset0 ;;
         let value := total / normalizer in
         _ <~ (fun s =>
                 if tensorboard_writer s
                 then emit (Scalar ("timers/" ++ name0) value iteration) s
                 else ret tt s) ;;
         fun s =>
           if use_wandb s then
             if wandb_installed
             then emit (WandbLog ("timers/" ++ name0) value iteration) s
             else (_ <~ emit (Warning "`wandb` is not installed use `pip install wandb` (use_wandb=True will be ignored)") ;;
                   set_use_wandb false) s
           else ret tt s)
  else raise AssertionError.

(** [Timers.log]; [names] is a string or a list of strings. *)
Definition log (names : string + list string) (normalizer : R) (reset0 : bool)
  : M unit :=
  if Rlt_dec 0 normalizer then
    let names := match names with inl name0 => [name0] | inr names => names end in
    for_each names
      (fun name0 =>
         timer <~ timers_item name0 ;;
         total <~ elapsed_time timer reset0 ;;
         _print_log name0 (total * 1000 / normalizer))
  else raise AssertionError.

(** [with self.timed(name, log, reset): body]. *)
Definition timed {A} (name0 : string) (log0 reset0 : bool) (body : nat -> M A)
  : M A :=
  timer <~ Timers_call name0 ;;
  try_finally
    (_ <~ start timer ;; body timer)
    (_ <~ stop timer ;;
     if log0 then
       total <~ elapsed_time timer reset0 ;;
       _print_log name0 (total * 1000)
     else ret tt).

End Timers.

End helpers.

(** ** [easydel/modules/qwen2_vl/qwen2_vl_configuration.py] *)

Module qwen2_vl_configuration.

(** The values of a [rope_scaling] dictionary: strings, numbers and lists
    of integers ([mrope_section]). *)
Inductive value : Type :=
| Str (s : string)
| Num (q : Q)
| Ints (l : list Z).

(** A dictionary with string keys, in insertion order. *)
Definition dict : Type := list (string * value).

(** [key in d]. *)
Fixpoint contains (key : string) (d : dict) : bool :=
  match d with
  | [] => false
  | (k, _) :: d' => String.eqb k key || contains key d'
  end.

(** [d[key]]. *)
Fixpoint item (d : dict) (key : string) : option value :=
  match d with
  | [] => None
  | (k, v) :: d' => if String.eqb k key then Some v else item d' key
  end.

(** [d[key] = v]: a key that is there keeps its place. *)
Fixpoint setitem (d : dict) (key : string) (v : value) : dict :=
  match d with
  | [] => [(key, v)]
  | (k, w) :: d' =>
      if String.eqb k key then (k, v) :: d' else (k, w) :: setitem d' key v
  end.

(** [v == s] for a string [s]. *)
Definition equals_str (v : option value) (s : string) : bool :=
  match v with
  | Some (Str s') => String.eqb s' s
  | _ => false
  end.

(** Lines 217 and 225-228 of [Qwen2VLConfig.__init__]: what the dictionary handed
    in as [rope_scaling] holds afterwards.  [self.rope_scaling] is that
    very object, so the caller's dictionary and the attribute change
    together. *)
Definition Qwen2VLConfig_rope_scaling (rope_scaling : option dict)
  : option dict :=
  match rope_scaling with
  | None => None
  | Some d =>
      if contains "type" d then
        let d :=
          if equals_str (item d "type") "mrope"
          then setitem d "type" (Str "default") else d in
        match item d "type" with
        | Some v => Some (setitem d "rope_type" v)
        | None => Some d
        end
      else Some d
  end.

End qwen2_vl_configuration.

(** ** [train_clm.py] *)

Module train_clm.

(** One entry of [data_chunk["messages"]]. *)
Record message : Type := { role : string; content : string }.

Definition newline : string := String (Ascii.ascii_of_nat 10) "".

(** The text added to the prompt for one pair of contents. *)
Definition turn (uc ac : string) : string :=
  ("<|user|>" ++ newline ++ uc ++ "</s>" ++ newline ++ "<|assistant|>"
   ++ newline ++ ac ++ "</s>" ++ newline)%string.

(** [ultra_chat_prompting_process(data_chunk)["prompt"]] for
    [data_chunk["messages"] = messages]. *)
Definition ultra_chat_prompting_process (messages : list message) : string :=
  let user_part :=
    map content (filter (fun chunk => String.eqb (role chunk) "user") messages) in
  let assistant_part :=
    map content
        (filter (fun chunk => String.eqb (role chunk) "assistant") messages) in
  fold_left (fun prompt pair => (prompt ++ turn (fst pair) (snd pair))%string)
            (combine user_part assistant_part) ""%string.

End train_clm.

(** ** Concrete configurations and inputs used in the examples *)

Module instances.
Import Py nnx.
Import modeling_mistral_flax modeling_gpt_neo_x_flax modelling_dbrx_flax.

(** No [dot_general] override, as with the default [bits=None]. *)
Definition no_override (bits : option nat) (easy_method : string)
  : option (Dtype -> Dtype) := None.

Definition mistral_small : MistralConfig :=
  {| modeling_mistral_flax.hidden_size := 32;
     modeling_mistral_flax.vocab_size := 100;
     modeling_mistral_flax.max_position_embeddings := 16;
     modeling_mistral_flax.tie_word_embeddings := false;
     use_scan_mlp := false; scan_mlp_chunk_size := 4;
     modeling_mistral_flax.bits := None;
     modeling_mistral_flax.easy_method := "" |}.

Definition neox_small : GPTNeoXConfig :=
  {| modeling_gpt_neo_x_flax.hidden_size := 32;
     modeling_gpt_neo_x_flax.vocab_size := 100;
     modeling_gpt_neo_x_flax.max_position_embeddings := 16;
     modeling_gpt_neo_x_flax.tie_word_embeddings := false;
     use_parallel_residual := true |}.

Definition neox_sequential : GPTNeoXConfig :=
  {| modeling_gpt_neo_x_flax.hidden_size := 32;
     modeling_gpt_neo_x_flax.vocab_size := 100;
     modeling_gpt_neo_x_flax.max_position_embeddings := 16;
     modeling_gpt_neo_x_flax.tie_word_embeddings := false;
     use_parallel_residual := false |}.

(** Four experts, two per token, the override on. *)
Definition router_uniform : DbrxFFNConfig :=
  {| moe_num_experts := 4; moe_top_k := 2; moe_jitter_eps := None;
     moe_normalize_expert_weights := None;
     uniform_expert_assignment := true |}.

(** Two experts, both chosen, weights divided by their L1 norm. *)
Definition router_l1 : DbrxFFNConfig :=
  {| moe_num_experts := 2; moe_top_k := 2; moe_jitter_eps := None;
     moe_normalize_expert_weights := Some 1%Q;
     uniform_expert_assignment := false |}.


(** Jitter with [moe_jitter_eps = 0.1]. *)
Definition router_jitter : DbrxFFNConfig :=
  {| moe_num_experts := 2; moe_top_k := 1; moe_jitter_eps := Some (1 # 10)%Q;
     moe_normalize_expert_weights := Some 1%Q;
     uniform_expert_assignment := false |}.

Definition dbrx_small : DbrxConfig :=
  {| d_model := 32; vocab_size := 100; max_seq_len := 5;
     bits := None; easy_method := ""; ffn_config := router_l1 |}.

Definition ids_1x8 : IdsArray := {| ids_batch := 1; ids_len := 8 |}.
Definition ids_1x10 : IdsArray := {| ids_batch := 1; ids_len := 10 |}.

(** A projection with an all-zero kernel: every logit is zero. *)
Definition flat_layer (experts : nat) (v : list R) : list R :=
  repeat 0%R experts.

Definition no_noise (b s i : nat) : R := 0%R.

(** One batch row of two tokens, hidden size one. *)
Definition two_tokens : tensor3 R := [[[0%R]; [0%R]]].
Definition one_token : tensor3 R := [[[0%R]]].

(** A two-by-two kernel, one row per block of two: [-1, 0.5] and [1, 0]. *)
Definition kernel_rows : list (list linear_nf4.f32) :=
  [[S754_finite true 8388608 (-23); S754_finite false 8388608 (-24)];
   [linear_nf4.one; linear_nf4.pos_zero]].

(** A stream of unit keys, an initialiser that returns zeros, and an
    [nnx.Linear] of two inputs and two outputs holding [kernel_rows] and a
    bias of ones. *)
Definition unit_rngs (rngs : unit) : unit * unit := (tt, rngs).

Definition zeros_init (key : unit) (shp : list nat) (dtype : Py.Dtype)
  : linear_nf4.ndarray :=
  {| linear_nf4.shape := shp;
     linear_nf4.data := repeat linear_nf4.pos_zero (fold_right Nat.mul 1%nat shp) |}.

Definition bias_ones : linear_nf4.ndarray :=
  {| linear_nf4.shape := [2%nat];
     linear_nf4.data := [linear_nf4.one; linear_nf4.one] |}.

Definition linear_2x2 : linear_nf4.LinearNF4.Linear unit :=
  {| linear_nf4.LinearNF4.lin_in_features := 2;
     linear_nf4.LinearNF4.lin_out_features := 2;
     linear_nf4.LinearNF4.lin_use_bias := true;
     linear_nf4.LinearNF4.lin_dtype := None;
     linear_nf4.LinearNF4.lin_param_dtype := Py.float32;
     linear_nf4.LinearNF4.lin_precision := linear_nf4.VNone;
     linear_nf4.LinearNF4.lin_kernel_init := zeros_init;
     linear_nf4.LinearNF4.lin_bias_init := zeros_init;
     linear_nf4.LinearNF4.lin_dot_general := linear_nf4.VObject "dot_general";
     linear_nf4.LinearNF4.lin_kernel :=
       {| linear_nf4.shape := [2%nat; 2%nat];
          linear_nf4.data := concat kernel_rows |};
     linear_nf4.LinearNF4.lin_bias := linear_nf4.VArray bias_ones |}.

(** [LinearNF4.from_linear(linear_2x2, block_size=2)]. *)
Definition linear_nf4_2x2 : linear_nf4.instance :=
  match linear_nf4.LinearNF4.from_linear unit unit unit_rngs tt linear_2x2 None 2
  with
  | Py.Ok self => self
  | Py.Raise _ => []
  end.

(** Stand-ins for the library calls of [LinearNF4.__call__] and
    [to_linear]: no cast, a product that returns the kernel, an addition
    that returns its first operand, an empty [nnx.Linear] object. *)
Definition dtype_float32 (dtype : linear_nf4.pyval)
    (inputs kernel : linear_nf4.ndarray) (bias : option linear_nf4.ndarray)
  : Py.Dtype := Py.float32.
Definition no_cast (x : linear_nf4.ndarray) (dtype : Py.Dtype)
  : linear_nf4.ndarray := x.
Definition dot_returns_kernel (dot_general : linear_nf4.pyval)
    (inputs kernel : linear_nf4.ndarray) (precision : linear_nf4.pyval)
  : Py.result linear_nf4.ndarray := Py.Ok kernel.
Definition add_returns_first (y bias : linear_nf4.ndarray)
  : Py.result linear_nf4.ndarray := Py.Ok y.
Definition empty_Linear (in_features out_features use_bias dtype param_dtype
    precision kernel_init bias_init dot_general : linear_nf4.pyval)
  : linear_nf4.instance := [].

(** Four experts, two per token, no override: [router_uniform] without
    the override. *)
Definition router_top_2_of_4 : DbrxFFNConfig :=
  {| moe_num_experts := 4; moe_top_k := 2; moe_jitter_eps := None;
     moe_normalize_expert_weights := None;
     uniform_expert_assignment := false |}.

(** Three slots per token with two experts. *)
Definition router_3_of_2 : DbrxFFNConfig :=
  {| moe_num_experts := 2; moe_top_k := 3; moe_jitter_eps := None;
     moe_normalize_expert_weights := None;
     uniform_expert_assignment := false |}.

(** Two experts of one hidden unit on one feature, all parameters one; the
    identity as activation; equal top weights on both experts. *)
Definition expert_ones : list (list R) := [[1%R]; [1%R]].
Definition identity_activation (v : R) : R := v.
Definition half_weights : tensor3 R := [[[(1 / 2)%R; (1 / 2)%R]]].
Definition both_experts : tensor3 Z := [[[0%Z; 1%Z]]].

(** A model and score head that return the scores 10, 11, 12, 13 for the
    four tokens of one row. *)
Definition four_scores (input_ids : option (list (list Z)))
    (inputs_embeds : option Array3) : Py.result (list (list nat)) :=
  Py.Ok [[10; 11; 12; 13]]%nat.

(** A clock that reads 0, 1, 2, ... seconds, and a [Timers] object with one
    stopped timer named "step", [wandb] asked for, no tensorboard writer. *)
Definition one_timer : helpers.State :=
  {| helpers.now := INR; helpers.ticks := 0;
     helpers.objects := [helpers.Timer_init "step"];
     helpers.timers := [("step"%string, 0%nat)];
     helpers.use_wandb := true; helpers.tensorboard_writer := false;
     helpers.events := [] |}.

Definition plain_format (value : R) : string := "?".

End instances.

(* ################################################################# *)
(** * Part II: theorems *)

Section NF4_examples.
Import Py linear_nf4.

Example quantize_zero_block :
  single_quantize_and_pack_nf4 [S754_zero false; S754_zero true] 2
  = Ok ([255%Z], [pos_zero]).
Proof. reflexivity. Qed.

Example dequantize_zero_block :
  single_dequantize_nf4 [255%Z] [pos_zero] 2 = Ok [[pos_zero; pos_zero]].
Proof. reflexivity. Qed.

Example quantize_small_block :
  single_quantize_and_pack_nf4
    [S754_finite true 8388608 (-23); S754_finite false 8388608 (-24);
     one; S754_zero false] 4
  = Ok ([12%Z; 247%Z], [one]).
Proof. vm_compute. reflexivity. Qed.

End NF4_examples.

(** ** NF4: the nibble packing *)

Section NF4_packing.
Import Py linear_nf4.

Ltac split_code c :=
  let H := fresh "Hc" in
  assert (H : (c = 0 \/ c = 1 \/ c = 2 \/ c = 3 \/ c = 4 \/ c = 5 \/ c = 6
               \/ c = 7 \/ c = 8 \/ c = 9 \/ c = 10 \/ c = 11 \/ c = 12
               \/ c = 13 \/ c = 14 \/ c = 15)%Z) by (unfold is_code in *; lia);
  repeat (destruct H as [H | H]; [subst c | ]); try subst c.

Lemma high_nibble_pack_pair (q0 q1 : Z) :
  is_code q0 -> is_code q1 -> high_nibble (pack_pair q0 q1) = q0.
Proof.
  intros H0 H1. split_code q0; split_code q1; reflexivity.
Qed.

Lemma low_nibble_pack_pair (q0 q1 : Z) :
  is_code q0 -> is_code q1 -> low_nibble (pack_pair q0 q1) = q1.
Proof.
  intros H0 H1. split_code q0; split_code q1; reflexivity.
Qed.

Lemma pack_pair_byte (q0 q1 : Z) : (0 <= pack_pair q0 q1 < 256)%Z.
Proof. unfold pack_pair. apply Z.mod_pos_bound. lia. Qed.

Lemma pack_unpack_pairs (n : nat) :
  forall codes : list Z,
    length codes = (2 * n)%nat ->
    Forall is_code codes ->
    exists packed,
      pack_pairs codes = Ok packed
      /\ length packed = n
      /\ unpack_nibbles packed = codes.
Proof.
  induction n as [| n IH]; intros codes Hlen Hall.
  - destruct codes; [| discriminate]. exists []. auto.
  - destruct codes as [| q0 [| q1 rest]]; simpl in Hlen; try lia.
    inversion Hall as [| ? ? Hq0 Hall1]; subst.
    inversion Hall1 as [| ? ? Hq1 Hrest]; subst.
    destruct (IH rest) as (packed & Hp & Hl & Hu); [lia | assumption |].
    exists (pack_pair q0 q1 :: packed).
    cbn [pack_pairs]. rewrite Hp. cbn [bind unpack_nibbles length].
    rewrite high_nibble_pack_pair, low_nibble_pack_pair, Hu by assumption.
    auto.
Qed.

(** C8.  For an even-length sequence of 4-bit codes, packing the pairs into
    bytes (first code in the high nibble) succeeds, and unpacking the high
    and low nibbles of those bytes gives back the same sequence in order. *)
Theorem nf4_pack_unpack_roundtrip (codes : list Z) :
  Forall is_code codes ->
  Nat.Even (length codes) ->
  exists packed,
    pack_pairs codes = Ok packed /\ unpack_nibbles packed = codes.
Proof.
  intros Hall [n Hn].
  destruct (pack_unpack_pairs n codes Hn Hall) as (packed & Hp & _ & Hu).
  exists packed. auto.
Qed.

Lemma nf4_pack_unpack_roundtrip_witness :
  exists packed,
    pack_pairs [3; 12; 0; 15]%Z = Ok packed
    /\ unpack_nibbles packed = [3; 12; 0; 15]%Z.
Proof.
  apply (nf4_pack_unpack_roundtrip [3; 12; 0; 15]%Z).
  - repeat constructor; unfold is_code; lia.
  - exists 2%nat. reflexivity.
Defined.

End NF4_packing.

(** ** NF4: a block of zeros *)

Section NF4_zero_block.
Import Py linear_nf4.

Lemma rows_of_nil {A} (fuel cols : nat) : @rows_of A fuel cols [] = [].
Proof. destruct fuel; reflexivity. Qed.

(** Splitting [n * cols] entries gives [n] rows of [cols] entries, and a
    property of all entries is a property of all rows. *)
Lemma rows_of_Forall {A} (P : A -> Prop) (cols : nat) (Hcols : (0 < cols)%nat) :
  forall (n : nat) (l : list A) (fuel : nat),
    length l = (n * cols)%nat ->
    (length l <= fuel)%nat ->
    Forall P l ->
    length (rows_of fuel cols l) = n
    /\ Forall (fun row => length row = cols /\ Forall P row) (rows_of fuel cols l).
Proof.
  induction n as [| n IH]; intros l fuel Hlen Hfuel HP.
  - destruct l; [| discriminate]. rewrite rows_of_nil. auto.
  - destruct fuel as [| fuel]; [simpl in Hlen; lia |].
    destruct l as [| a l']; [simpl in Hlen; lia |].
    remember (a :: l') as l eqn:El.
    assert (Hlen' : length l = (cols + n * cols)%nat) by (rewrite Hlen; lia).
    assert (Hsplit : firstn cols l ++ skipn cols l = l) by apply firstn_skipn.
    rewrite <- Hsplit in HP. apply Forall_app in HP as [HP1 HP2].
    assert (Hfirst : length (firstn cols l) = cols)
      by (rewrite length_firstn; lia).
    assert (Hskip : length (skipn cols l) = (n * cols)%nat)
      by (rewrite length_skipn; lia).
    destruct (IH (skipn cols l) fuel Hskip) as [IHlen IHall];
      [ rewrite length_skipn; lia | assumption | ].
    replace (rows_of (S fuel) cols l)
      with (firstn cols l :: rows_of fuel cols (skipn cols l))
      by (rewrite El; reflexivity).
    split; [simpl; congruence | constructor; auto].
Qed.

Lemma Forall_eq_rows {A} (c : A) (cols : nat) (rows : list (list A)) :
  Forall (fun row => length row = cols /\ Forall (eq c) row) rows ->
  rows = repeat (repeat c cols) (length rows).
Proof.
  induction 1 as [| row rows [Hl Hr] _ IH]; [reflexivity |].
  simpl. f_equal; [| exact IH].
  rewrite <- Hl. apply Forall_eq_repeat. exact Hr.
Qed.

Lemma fold_max_zeros (rest : list f32) :
  Forall (eq pos_zero) rest -> fold_left f32_max rest pos_zero = pos_zero.
Proof.
  induction 1 as [| x rest Hx _ IH]; [reflexivity |].
  subst x. simpl. exact IH.
Qed.

Lemma abs_zero_entry (x : f32) : zero_entry x -> f32_abs x = pos_zero.
Proof. destruct x; unfold zero_entry; simpl; intros H; try discriminate H; reflexivity. Qed.

(** The absolute maximum of a non-empty block of zeros is [+0.0]. *)
Lemma row_max_zeros (row : list f32) :
  row <> [] -> Forall zero_entry row -> row_max (map f32_abs row) = pos_zero.
Proof.
  intros Hne Hall. destruct row as [| x rest]; [congruence |].
  inversion Hall as [| ? ? Hx Hrest]; subst. simpl.
  rewrite (abs_zero_entry x Hx). apply fold_max_zeros.
  clear - Hrest. induction Hrest as [| y rest Hy _ IH]; simpl; constructor; auto.
  symmetry. apply abs_zero_entry. exact Hy.
Qed.

(** Dividing a zero by the zero absmax gives NaN. *)
Lemma div_zero_zero (x : f32) : zero_entry x -> f32_div x pos_zero = S754_nan.
Proof. destruct x; unfold zero_entry; simpl; intros H; try discriminate H; reflexivity. Qed.

Lemma normalize_zero_row (row : list f32) :
  Forall zero_entry row ->
  normalize_row row pos_zero = repeat S754_nan (length row).
Proof.
  induction 1 as [| x row Hx _ IH]; [reflexivity |].
  unfold normalize_row in *. simpl. rewrite IH, (div_zero_zero x Hx). reflexivity.
Qed.

Lemma zero_rows_stage (cols : nat) (Hcols : (0 < cols)%nat) (rows : list (list f32)) :
  Forall (fun row => length row = cols /\ Forall zero_entry row) rows ->
  map (fun row => row_max (map f32_abs row)) rows = repeat pos_zero (length rows)
  /\ concat (normalize_rows rows (repeat pos_zero (length rows)))
     = repeat S754_nan (length rows * cols).
Proof.
  induction 1 as [| row rows [Hl Hz] _ [IHa IHn]]; [auto |].
  split.
  - simpl. rewrite IHa, row_max_zeros; auto.
    intros ->. simpl in Hl. lia.
  - simpl. rewrite IHn, normalize_zero_row, Hl, <- repeat_app; auto.
Qed.

Lemma quantize_nan : quantize_value S754_nan = 15%Z.
Proof. reflexivity. Qed.

Lemma pack_pairs_all_15 (n : nat) :
  pack_pairs (repeat 15%Z (2 * n)) = Ok (repeat 255%Z n).
Proof.
  induction n as [| n IH]; [reflexivity |].
  replace (2 * S n)%nat with (S (S (2 * n))) by lia.
  cbn [repeat pack_pairs]. rewrite IH. reflexivity.
Qed.

Lemma unpack_all_255 (n : nat) :
  unpack_nibbles (repeat 255%Z n) = repeat 15%Z (2 * n).
Proof.
  induction n as [| n IH]; [reflexivity |].
  replace (2 * S n)%nat with (S (S (2 * n))) by lia.
  cbn [repeat unpack_nibbles]. rewrite IH. reflexivity.
Qed.

Lemma table_top_level : nth (Z.to_nat 15) NF4_TABLE S754_nan = one.
Proof. reflexivity. Qed.

Lemma scale_ones_by_zero (cols n : nat) :
  scale_rows (repeat (repeat one cols) n) (repeat pos_zero n)
  = repeat (repeat pos_zero cols) n.
Proof.
  induction n as [| n IH]; [reflexivity |].
  cbn [repeat scale_rows]. rewrite IH, map_repeat. reflexivity.
Qed.

(** An array made of [n] blocks of [block_size] zeros, of either sign, is
    quantised to bytes [0xFF] with every absmax zero, and dequantised to
    blocks of [+0.0]; no exception is raised. *)
Lemma nf4_all_zero_array (blocks : list f32) (block_size n : nat) :
  (0 < block_size)%nat ->
  length blocks = (n * block_size)%nat ->
  Nat.Even (length blocks) ->
  Forall zero_entry blocks ->
  exists packed absmax dequantized,
    single_quantize_and_pack_nf4 blocks block_size = Ok (packed, absmax)
    /\ single_dequantize_nf4 packed absmax block_size = Ok dequantized
    /\ dequantized = repeat (repeat pos_zero block_size) n
    /\ Forall (Forall (fun x => is_nan x = false /\ is_inf x = false)) dequantized.
Proof.
  intros Hbs Hlen [k Hk] Hzero.
  destruct (rows_of_Forall zero_entry block_size Hbs n blocks (length blocks)
              Hlen (Nat.le_refl _) Hzero) as [Hrows Hall].
  destruct (zero_rows_stage block_size Hbs _ Hall) as [Habs Hnorm].
  rewrite Hrows in Habs, Hnorm.
  exists (repeat 255%Z k), (repeat pos_zero n), (repeat (repeat pos_zero block_size) n).
  split; [| split; [| split]].
  - unfold single_quantize_and_pack_nf4, reshape_rows.
    destruct (Nat.eqb_spec block_size 0) as [E | _]; [lia |].
    rewrite Hlen, Nat.Div0.mod_mul, Nat.eqb_refl. cbn [bind].
    rewrite <- Hlen, Habs, Hnorm, map_repeat, quantize_nan.
    rewrite <- Hlen, Hk, pack_pairs_all_15. reflexivity.
  - unfold single_dequantize_nf4, reshape_to.
    rewrite unpack_all_255, !map_repeat, !repeat_length, <- Hk, Hlen, Nat.eqb_refl.
    destruct (Nat.eqb_spec block_size 0) as [E | _]; [lia |].
    cbn [bind]. rewrite table_top_level.
    assert (Hones : Forall (eq one) (repeat one (n * block_size)))
      by (apply Forall_forall; intros x Hx; symmetry; exact (repeat_spec _ _ _ Hx)).
    destruct (rows_of_Forall (eq one) block_size Hbs n (repeat one (n * block_size))
                (n * block_size)) as [Hn Hrs];
      [ apply repeat_length | rewrite repeat_length; lia | exact Hones | ].
    rewrite (Forall_eq_rows one block_size _ Hrs), Hn.
    rewrite scale_ones_by_zero. reflexivity.
  - reflexivity.
  - apply Forall_forall. intros row Hrow. apply repeat_spec in Hrow. subst row.
    apply Forall_forall. intros x Hx. apply repeat_spec in Hx. subst x. auto.
Qed.

Lemma length_concat_rows {A} (cols : nat) (rows : list (list A)) :
  Forall (fun row => length row = cols) rows ->
  length (concat rows) = (length rows * cols)%nat.
Proof.
  induction 1 as [| row rows Hrow _ IH]; [reflexivity |].
  cbn. rewrite length_app, IH, Hrow. reflexivity.
Qed.

Lemma rows_of_concat {A} (cols : nat) (Hcols : (0 < cols)%nat) (rows : list (list A)) :
  Forall (fun row => length row = cols) rows ->
  forall fuel, (length (concat rows) <= fuel)%nat ->
  rows_of fuel cols (concat rows) = rows.
Proof.
  induction 1 as [| row rows Hrow Hrows IH]; intros fuel Hfuel.
  - apply rows_of_nil.
  - cbn [concat] in *. rewrite length_app in Hfuel.
    destruct fuel as [| fuel]; [lia |].
    destruct row as [| a row']; [cbn in Hrow; lia |].
    remember (a :: row') as row eqn:Erow.
    assert (Hfirst : firstn cols (row ++ concat rows) = row).
    { rewrite <- Hrow. rewrite <- (Nat.add_0_r (length row)).
      rewrite firstn_app_2. cbn. apply app_nil_r. }
    assert (Hskip : skipn cols (row ++ concat rows) = concat rows).
    { rewrite <- Hrow. rewrite skipn_app, skipn_all, Nat.sub_diag. reflexivity. }
    replace (rows_of (S fuel) cols (row ++ concat rows))
      with (firstn cols (row ++ concat rows)
            :: rows_of fuel cols (skipn cols (row ++ concat rows)))
      by (rewrite Erow; reflexivity).
    rewrite Hfirst, Hskip, IH by lia. reflexivity.
Qed.

Lemma normalize_rows_map (f : list f32 -> f32) (rows : list (list f32)) :
  normalize_rows rows (map f rows)
  = map (fun row => normalize_row row (f row)) rows.
Proof. induction rows as [| row rows IH]; cbn; [| rewrite IH]; reflexivity. Qed.

Lemma pack_pairs_length (packed : list Z) :
  forall quantized, pack_pairs quantized = Ok packed ->
  length quantized = (2 * length packed)%nat.
Proof.
  induction packed as [| p packed IH]; intros [| q0 [| q1 rest]] H; cbn in H;
    try discriminate H; try reflexivity.
  - destruct (pack_pairs rest); discriminate H.
  - destruct (pack_pairs rest) as [packed' |] eqn:E; cbn in H; [| discriminate H].
    injection H as _ ->. cbn. rewrite (IH rest E). lia.
Qed.

Lemma pack_pairs_app (packed1 : list Z) :
  forall quantized1 quantized2 packed2,
    pack_pairs quantized1 = Ok packed1 ->
    pack_pairs quantized2 = Ok packed2 ->
    pack_pairs (quantized1 ++ quantized2) = Ok (packed1 ++ packed2).
Proof.
  induction packed1 as [| p packed1 IH];
    intros [| q0 [| q1 rest]] quantized2 packed2 H1 H2; cbn in H1;
    try discriminate H1.
  - exact H2.
  - destruct (pack_pairs rest); discriminate H1.
  - destruct (pack_pairs rest) as [packed' |] eqn:E; cbn in H1; [| discriminate H1].
    injection H1 as <- ->. cbn [app pack_pairs].
    rewrite (IH rest quantized2 packed2 E H2). reflexivity.
Qed.

Lemma pack_pairs_even (k : nat) :
  forall quantized, length quantized = (2 * k)%nat ->
  exists packed, pack_pairs quantized = Ok packed.
Proof.
  induction k as [| k IH]; intros [| q0 [| q1 rest]] H; cbn in H; try lia.
  - exists []. reflexivity.
  - destruct (IH rest) as [packed Hp]; [lia |].
    exists (pack_pair q0 q1 :: packed). cbn. rewrite Hp. reflexivity.
Qed.

Lemma pack_pairs_concat (cols : nat) (Heven : Nat.Even cols) (qrows : list (list Z)) :
  Forall (fun q => length q = cols) qrows ->
  exists prows,
    pack_pairs (concat qrows) = Ok (concat prows)
    /\ Forall2 (fun q p => pack_pairs q = Ok p) qrows prows.
Proof.
  destruct Heven as [k Hk].
  induction 1 as [| q qrows Hq _ (prows & Hcat & HF)].
  - exists []. split; [reflexivity | constructor].
  - destruct (pack_pairs_even k q) as [p Hp]; [lia |].
    exists (p :: prows). cbn [concat]. split.
    + apply pack_pairs_app; assumption.
    + constructor; assumption.
Qed.

Lemma unpack_nibbles_app (packed1 packed2 : list Z) :
  unpack_nibbles (packed1 ++ packed2)
  = unpack_nibbles packed1 ++ unpack_nibbles packed2.
Proof. induction packed1 as [| p packed1 IH]; cbn; [| rewrite IH]; reflexivity. Qed.

Lemma unpack_nibbles_concat (prows : list (list Z)) :
  unpack_nibbles (concat prows) = concat (map unpack_nibbles prows).
Proof.
  induction prows as [| p prows IH]; cbn; [reflexivity |].
  rewrite unpack_nibbles_app, IH. reflexivity.
Qed.

Lemma unpack_nibbles_length (packed : list Z) :
  length (unpack_nibbles packed) = (2 * length packed)%nat.
Proof. induction packed as [| p packed IH]; cbn; [| rewrite IH]; lia. Qed.

Lemma scale_rows_nth (rows : list (list f32)) :
  forall absmax i,
    length absmax = length rows -> (i < length rows)%nat ->
    nth i (scale_rows rows absmax) []
    = map (fun x => f32_mul x (nth i absmax S754_nan)) (nth i rows []).
Proof.
  induction rows as [| row rows IH]; intros [| a absmax] i Hlen Hi; cbn in *;
    try lia.
  destruct i as [| i]; [reflexivity |]. apply IH; lia.
Qed.

Lemma scale_rows_length (rows : list (list f32)) :
  forall absmax, length absmax = length rows ->
  length (scale_rows rows absmax) = length rows.
Proof.
  induction rows as [| row rows IH]; intros [| a absmax] Hlen; cbn in *; try lia.
  rewrite IH; lia.
Qed.

Lemma Forall2_nth {A B} (R : A -> B -> Prop) (l : list A) (l' : list B)
    (d : A) (d' : B) :
  Forall2 R l l' -> forall i, (i < length l)%nat -> R (nth i l d) (nth i l' d').
Proof.
  induction 1 as [| a b l l' Hab _ IH]; intros i Hi; cbn in Hi; [lia |].
  destruct i as [| i]; [exact Hab | apply IH; lia].
Qed.

Lemma nth_map_in_range {A B} (f : A -> B) (l : list A) (i : nat) (d : A) (d' : B) :
  (i < length l)%nat -> nth i (map f l) d' = f (nth i l d).
Proof.
  intros Hi. rewrite (nth_indep _ d' (f d)) by (rewrite length_map; exact Hi).
  apply map_nth.
Qed.

Lemma nf4_zero_block_in_array (rows : list (list f32)) (block_size : nat) :
  (0 < block_size)%nat ->
  Nat.Even block_size ->
  Forall (fun row => length row = block_size) rows ->
  exists packed absmax dequantized,
    single_quantize_and_pack_nf4 (concat rows) block_size = Ok (packed, absmax)
    /\ single_dequantize_nf4 packed absmax block_size = Ok dequantized
    /\ length dequantized = length rows
    /\ forall i, (i < length rows)%nat ->
         Forall zero_entry (nth i rows []) ->
         nth i absmax S754_nan = pos_zero
         /\ nth i dequantized [] = repeat pos_zero block_size.
Proof.
  intros Hbs Heven Hrows.
  set (f := fun row : list f32 => row_max (map f32_abs row)).
  set (qrows := map (fun row => map quantize_value (normalize_row row (f row))) rows).
  assert (Hq : Forall (fun q => length q = block_size) qrows).
  { unfold qrows. apply Forall_map. apply Forall_forall. intros row Hrow.
    unfold normalize_row. rewrite !length_map.
    exact (proj1 (Forall_forall _ _) Hrows row Hrow). }
  destruct (pack_pairs_concat block_size Heven qrows Hq) as (prows & Hpack & HF).
  set (drows := map (fun p => map (fun i => nth (Z.to_nat i) NF4_TABLE S754_nan)
                                  (unpack_nibbles p)) prows).
  assert (Hlenp : length prows = length rows).
  { rewrite <- (Forall2_length HF). unfold qrows. apply length_map. }
  assert (Hd : Forall (fun d => length d = block_size) drows).
  { unfold drows. apply Forall_map. apply Forall_forall. intros p Hp.
    rewrite length_map, unpack_nibbles_length.
    destruct (In_nth _ _ [] Hp) as (i & Hi & <-).
    assert (Hi' : (i < length qrows)%nat) by (rewrite (Forall2_length HF); exact Hi).
    pose proof (Forall2_nth _ _ _ [] [] HF i Hi') as Hpi.
    rewrite <- (pack_pairs_length _ _ Hpi).
    exact (proj1 (Forall_forall _ _) Hq _ (nth_In _ [] Hi')). }
  exists (concat prows), (map f rows), (scale_rows drows (map f rows)).
  assert (Hquant : single_quantize_and_pack_nf4 (concat rows) block_size
                   = Ok (concat prows, map f rows)).
  { unfold single_quantize_and_pack_nf4, reshape_rows.
    destruct (Nat.eqb_spec block_size 0) as [E | _]; [lia |].
    rewrite (length_concat_rows block_size rows Hrows), Nat.Div0.mod_mul, Nat.eqb_refl.
    cbn [bind].
    rewrite <- (length_concat_rows block_size rows Hrows).
    rewrite (rows_of_concat block_size Hbs rows Hrows) by lia.
    fold f. rewrite normalize_rows_map, concat_map, map_map. fold qrows.
    rewrite Hpack. reflexivity. }
  assert (Hdeq : single_dequantize_nf4 (concat prows) (map f rows) block_size
                 = Ok (scale_rows drows (map f rows))).
  { unfold single_dequantize_nf4, reshape_to.
    rewrite unpack_nibbles_concat, concat_map, map_map. fold drows.
    rewrite (length_concat_rows block_size drows Hd), length_map.
    replace (length drows) with (length rows)
      by (unfold drows; rewrite length_map; symmetry; exact Hlenp).
    rewrite Nat.eqb_refl.
    destruct (Nat.eqb_spec block_size 0) as [E | _]; [lia |].
    cbn [bind].
    replace (length rows * block_size)%nat with (length (concat drows))
      by (rewrite (length_concat_rows block_size drows Hd); unfold drows;
          rewrite length_map, Hlenp; reflexivity).
    rewrite (rows_of_concat block_size Hbs drows Hd) by lia. reflexivity. }
  assert (Hlend : length drows = length rows)
    by (unfold drows; rewrite length_map; exact Hlenp).
  split; [exact Hquant |]. split; [exact Hdeq |]. split.
  - rewrite scale_rows_length; [exact Hlend | rewrite length_map; symmetry; exact Hlend].
  - intros i Hi Hzero.
    assert (Hrow : length (nth i rows []) = block_size)
      by exact (proj1 (Forall_forall _ _) Hrows _ (nth_In _ [] Hi)).
    assert (Habs : nth i (map f rows) S754_nan = pos_zero).
    { rewrite (nth_map_in_range f rows i [] S754_nan Hi). unfold f.
      apply row_max_zeros; [| exact Hzero].
      intros E. rewrite E in Hrow. cbn in Hrow. lia. }
    split; [exact Habs |].
    rewrite scale_rows_nth by (rewrite ?length_map; lia).
    rewrite Habs.
    assert (Hqi : nth i qrows [] = repeat 15%Z block_size).
    { unfold qrows.
      rewrite (nth_map_in_range _ rows i [] [] Hi).
      rewrite <- (nth_map_in_range f rows i [] S754_nan Hi), Habs.
      rewrite normalize_zero_row by exact Hzero.
      rewrite map_repeat, quantize_nan, Hrow. reflexivity. }
    assert (Hi' : (i < length qrows)%nat) by (unfold qrows; rewrite length_map; exact Hi).
    pose proof (Forall2_nth _ _ _ [] [] HF i Hi') as Hpi.
    destruct Heven as [k Hk]. rewrite Hqi, Hk, pack_pairs_all_15 in Hpi.
    injection Hpi as Hpi.
    unfold drows.
    rewrite (nth_map_in_range _ prows i [] [] ltac:(lia)), <- Hpi.
    rewrite unpack_all_255, !map_repeat, table_top_level, <- Hk. reflexivity.
Qed.

(** C4.  Quantising and then dequantising raises no exception and gives
    exactly [+0.0], hence neither NaN nor an infinity, for the entries of a
    block of zeros (of either sign): in an array made of such blocks only,
    whatever the block size, and for every such block inside an arbitrary
    weight array when the block size is even, as the defaults 64 and 128
    are.  The sizes are the ones the functions accept: the block size
    divides the number of entries, which is even. *)
Theorem nf4_zero_block_roundtrip :
  (forall (blocks : list f32) (block_size n : nat),
      (0 < block_size)%nat ->
      length blocks = (n * block_size)%nat ->
      Nat.Even (length blocks) ->
      Forall zero_entry blocks ->
      exists packed absmax dequantized,
        single_quantize_and_pack_nf4 blocks block_size = Ok (packed, absmax)
        /\ single_dequantize_nf4 packed absmax block_size = Ok dequantized
        /\ dequantized = repeat (repeat pos_zero block_size) n
        /\ Forall (Forall (fun x => is_nan x = false /\ is_inf x = false))
             dequantized)
  /\ (forall (rows : list (list f32)) (block_size : nat),
         (0 < block_size)%nat ->
         Nat.Even block_size ->
         Forall (fun row => length row = block_size) rows ->
         exists packed absmax dequantized,
           single_quantize_and_pack_nf4 (concat rows) block_size
           = Ok (packed, absmax)
           /\ single_dequantize_nf4 packed absmax block_size = Ok dequantized
           /\ length dequantized = length rows
           /\ forall i, (i < length rows)%nat ->
                Forall zero_entry (nth i rows []) ->
                nth i absmax S754_nan = pos_zero
                /\ nth i dequantized [] = repeat pos_zero block_size).
Proof.
  split.
  - exact nf4_all_zero_array.
  - exact nf4_zero_block_in_array.
Qed.

Lemma nf4_zero_block_roundtrip_witness :
  (exists packed absmax dequantized,
      single_quantize_and_pack_nf4
        [S754_zero false; S754_zero true; S754_zero false; S754_zero false] 2
      = Ok (packed, absmax)
      /\ single_dequantize_nf4 packed absmax 2 = Ok dequantized
      /\ dequantized = repeat (repeat pos_zero 2) 2
      /\ Forall (Forall (fun x => is_nan x = false /\ is_inf x = false))
           dequantized)
  /\ (exists packed absmax dequantized,
         single_quantize_and_pack_nf4
           (concat [[one; S754_finite true 8388608 (-24)];
                    [S754_zero true; S754_zero false]]) 2
         = Ok (packed, absmax)
         /\ single_dequantize_nf4 packed absmax 2 = Ok dequantized
         /\ nth 1 dequantized [] = repeat pos_zero 2).
Proof.
  destruct nf4_zero_block_roundtrip as [Hall Hblock]. split.
  - apply (Hall [S754_zero false; S754_zero true; S754_zero false; S754_zero false]
             2%nat 2%nat).
    + lia.
    + reflexivity.
    + exists 2%nat. reflexivity.
    + repeat constructor.
  - destruct (Hblock [[one; S754_finite true 8388608 (-24)];
                      [S754_zero true; S754_zero false]] 2%nat)
      as (packed & absmax & dequantized & Hq & Hd & _ & Hzero).
    + lia.
    + exists 1%nat. reflexivity.
    + repeat constructor.
    + exists packed, absmax, dequantized. split; [exact Hq |]. split; [exact Hd |].
      apply (Hzero 1%nat); [cbn; lia | repeat constructor].
Defined.

End NF4_zero_block.

(** ** Model wrappers: input validation, length check, logits type *)

Section Forward.
Import Py nnx.
Import modeling_mistral_flax modeling_gpt_neo_x_flax modelling_dbrx_flax.

Variable decoder_stack : Array3 -> Array3.
Variable get_dot_general_by_bits :
  option nat -> string -> option (Dtype -> Dtype).
Variable lax_dot_general2 : Dtype -> Dtype -> Dtype.

(** Mistral rejects with [ValueError] exactly the calls that do not supply
    exactly one input. *)
Lemma mistral_validation (config : MistralConfig) (dtype : Dtype)
    (input_ids : option IdsArray) (inputs_embeds : option Array3) :
  raises_ValueError
    (MistralModel_call decoder_stack config dtype input_ids inputs_embeds)
  = negb (exactly_one input_ids inputs_embeds).
Proof.
  unfold MistralModel_call, MistralModel_inputs, exactly_one.
  destruct input_ids, inputs_embeds; cbn; try reflexivity;
    match goal with |- context [(?a <=? ?b)%nat] => destruct (a <=? b)%nat end;
    reflexivity.
Qed.

Lemma neox_ids_alone_no_ValueError (config : GPTNeoXConfig) (dtype : Dtype)
    (ids : IdsArray) :
  raises_ValueError (GPTNeoXModel_call decoder_stack config dtype (Some ids) None)
  = false.
Proof.
  unfold GPTNeoXModel_call. cbn. destruct (_ <=? _)%nat; reflexivity.
Qed.

(** C2.  What the three input checks do.  Mistral raises [ValueError] if and
    only if not exactly one of [input_ids] and the embeddings is supplied.
    DBRX and GPT-NeoX raise [ValueError] when both or neither are supplied
    and do not when [input_ids] alone is, but they also raise it, with the
    message that asks for one of the two, when the embeddings alone are
    supplied. *)
Theorem forward_input_validation :
  (forall config dtype input_ids inputs_embeds,
      raises_ValueError
        (MistralModel_call decoder_stack config dtype input_ids inputs_embeds)
      = negb (exactly_one input_ids inputs_embeds))
  /\ (forall (config : DbrxConfig) dtype ids embeds,
         raises_ValueError
           (DbrxModel_call decoder_stack config dtype (Some ids) (Some embeds))
         = true
         /\ raises_ValueError (DbrxModel_call decoder_stack config dtype None None)
            = true
         /\ raises_ValueError
              (DbrxModel_call decoder_stack config dtype (Some ids) None)
            = false
         /\ DbrxModel_call decoder_stack config dtype None (Some embeds)
            = Raise (ValueError
                       "you should specify input_embeds or input_ids one of them"))
  /\ (forall (config : GPTNeoXConfig) dtype ids embeds,
         raises_ValueError
           (GPTNeoXModel_call decoder_stack config dtype (Some ids) (Some embeds))
         = true
         /\ raises_ValueError
              (GPTNeoXModel_call decoder_stack config dtype None None)
            = true
         /\ raises_ValueError
              (GPTNeoXModel_call decoder_stack config dtype (Some ids) None)
            = false
         /\ GPTNeoXModel_call decoder_stack config dtype None (Some embeds)
            = Raise (ValueError
                       "you should specify input_embeds or input_ids one of them")).
Proof.
  split; [exact mistral_validation |].
  split; intros config dtype ids embeds; repeat split;
    try reflexivity; apply neox_ids_alone_no_ValueError.
Qed.

(** The length check of Mistral and GPT-NeoX, for a call whose inputs were
    accepted with embeddings [e]: beyond the limit the call ends in the
    assertion error, within the limit the layers run. *)
Lemma mistral_length_check (config : MistralConfig) (dtype : Dtype)
    (input_ids : option IdsArray) (inputs_embeds : option Array3) (e : Array3) :
  MistralModel_inputs config dtype input_ids inputs_embeds = Ok e ->
  MistralModel_call decoder_stack config dtype input_ids inputs_embeds
  = if (seq_len e <=? modeling_mistral_flax.max_position_embeddings config)%nat
    then Ok (decoder_stack e)
    else Raise (AssertionError
                  (max_position_message (modeling_mistral_flax.max_position_embeddings config) (seq_len e))).
Proof.
  intros H. unfold MistralModel_call. rewrite H. reflexivity.
Qed.

Lemma neox_length_check (config : GPTNeoXConfig) (dtype : Dtype)
    (input_ids : option IdsArray) (input_embeds : option Array3) (e : Array3) :
  GPTNeoXModel_inputs config dtype input_ids input_embeds = Ok e ->
  GPTNeoXModel_call decoder_stack config dtype input_ids input_embeds
  = if (seq_len e <=? modeling_gpt_neo_x_flax.max_position_embeddings config)%nat
    then Ok (decoder_stack e)
    else Raise (AssertionError
                  (max_position_message (modeling_gpt_neo_x_flax.max_position_embeddings config) (seq_len e))).
Proof.
  intros H. unfold GPTNeoXModel_call. rewrite H. reflexivity.
Qed.

Example max_position_message_5_10 :
  max_position_message 5 10
  = "Maximum Position Embedding Reached ! (Excepted <= 5 got 10)"%string.
Proof. reflexivity. Qed.

(** C9, as amended.  A Mistral call fed [input_ids] alone or embeddings alone,
    and a GPT-NeoX call fed [input_ids] alone, raises [AssertionError] when
    the sequence is longer than [max_position_embeddings], with a message
    that holds the configured maximum and the actual length in decimal, and
    runs the layers otherwise.  A DBRX call fed [input_ids] alone runs its
    blocks whatever the length. *)
Theorem forward_sequence_length_check :
  (forall (config : MistralConfig) dtype ids,
      MistralModel_call decoder_stack config dtype (Some ids) None
      = if (ids_len ids <=? modeling_mistral_flax.max_position_embeddings config)%nat
        then Ok (decoder_stack
                   (Embed (modeling_mistral_flax.hidden_size config) dtype ids))
        else Raise (AssertionError
                      ("Maximum Position Embedding Reached ! (Excepted <= "
                       ++ str_of_nat (modeling_mistral_flax.max_position_embeddings config) ++ " got "
                       ++ str_of_nat (ids_len ids) ++ ")")))
  /\ (forall (config : MistralConfig) dtype embeds,
         MistralModel_call decoder_stack config dtype None (Some embeds)
         = if (seq_len embeds <=? modeling_mistral_flax.max_position_embeddings config)%nat
           then Ok (decoder_stack embeds)
           else Raise (AssertionError
                         ("Maximum Position Embedding Reached ! (Excepted <= "
                          ++ str_of_nat (modeling_mistral_flax.max_position_embeddings config) ++ " got "
                          ++ str_of_nat (seq_len embeds) ++ ")")))
  /\ (forall (config : GPTNeoXConfig) dtype ids,
         GPTNeoXModel_call decoder_stack config dtype (Some ids) None
         = if (ids_len ids <=? modeling_gpt_neo_x_flax.max_position_embeddings config)%nat
           then Ok (decoder_stack
                      (Embed (modeling_gpt_neo_x_flax.hidden_size config) dtype ids))
           else Raise (AssertionError
                         ("Maximum Position Embedding Reached ! (Excepted <= "
                          ++ str_of_nat (modeling_gpt_neo_x_flax.max_position_embeddings config) ++ " got "
                          ++ str_of_nat (ids_len ids) ++ ")")))
  /\ (forall (config : DbrxConfig) dtype ids,
         DbrxModel_call decoder_stack config dtype (Some ids) None
         = Ok (decoder_stack (Embed (d_model config) dtype ids))).
Proof.
  split; [| split; [| split]].
  - intros config dtype ids.
    rewrite (mistral_length_check config dtype (Some ids) None
               (Embed (modeling_mistral_flax.hidden_size config) dtype ids))
      by reflexivity.
    reflexivity.
  - intros config dtype embeds.
    rewrite (mistral_length_check config dtype None (Some embeds) embeds)
      by reflexivity.
    reflexivity.
  - intros config dtype ids.
    rewrite (neox_length_check config dtype (Some ids) None
               (Embed (modeling_gpt_neo_x_flax.hidden_size config) dtype ids))
      by reflexivity.
    reflexivity.
  - reflexivity.
Qed.

(** The logits of GPT-NeoX are cast to float32 whatever the compute type. *)
Lemma neox_logits_float32 (config : GPTNeoXConfig) (dtype : Dtype)
    (input_ids : option IdsArray) (input_embeds : option Array3)
    (logits : Array3) :
  GPTNeoXForCausalLM_call decoder_stack config dtype input_ids input_embeds
  = Ok logits ->
  dtype_of logits = float32.
Proof.
  unfold GPTNeoXForCausalLM_call.
  destruct (GPTNeoXModel_call _ _ _ _ _) as [h | e]; cbn; [| discriminate].
  destruct (modeling_gpt_neo_x_flax.tie_word_embeddings config);
    intros H; injection H as <-; reflexivity.
Qed.

(** The logits of Mistral (embeddings not tied) and DBRX come out of
    [lm_head] in the compute type when no [dot_general] override is
    configured. *)
Lemma mistral_logits_compute_dtype (config : MistralConfig)
    (dtype param_dtype : Dtype)
    (input_ids : option IdsArray) (inputs_embeds : option Array3)
    (logits : Array3) :
  modeling_mistral_flax.tie_word_embeddings config = false ->
  get_dot_general_by_bits (modeling_mistral_flax.bits config)
    (modeling_mistral_flax.easy_method config) = None ->
  MistralForCausalLM_call decoder_stack get_dot_general_by_bits lax_dot_general2
    config dtype param_dtype input_ids inputs_embeds = Ok logits ->
  dtype_of logits = dtype.
Proof.
  intros Htie Hbits. unfold MistralForCausalLM_call.
  destruct (MistralModel_call _ _ _ _ _) as [h | e]; cbn; [| discriminate].
  rewrite Htie, Hbits. intros H; injection H as <-; reflexivity.
Qed.

Lemma dbrx_logits_compute_dtype (config : DbrxConfig) (dtype : Dtype)
    (input_ids : option IdsArray) (input_embeds : option Array3)
    (logits : Array3) :
  get_dot_general_by_bits (bits config) (easy_method config) = None ->
  DbrxForCausalLM_call decoder_stack get_dot_general_by_bits
    config dtype input_ids input_embeds = Ok logits ->
  dtype_of logits = dtype.
Proof.
  intros Hbits. unfold DbrxForCausalLM_call.
  destruct (DbrxModel_call _ _ _ _ _) as [h | e]; cbn; [| discriminate].
  rewrite Hbits. intros H; injection H as <-; reflexivity.
Qed.

(** C3, as amended.  Whenever a causal-LM call returns, the GPT-NeoX logits
    are float32 for every compute type, while the logits of Mistral (with
    untied embeddings) and of DBRX, with no [dot_general] override
    configured, have the compute type the model was built with. *)
Theorem causal_lm_logits_dtype :
  (forall (config : GPTNeoXConfig) dtype input_ids input_embeds logits,
      GPTNeoXForCausalLM_call decoder_stack config dtype input_ids input_embeds
      = Ok logits ->
      dtype_of logits = float32)
  /\ (forall (config : MistralConfig) dtype param_dtype input_ids inputs_embeds
             logits,
         modeling_mistral_flax.tie_word_embeddings config = false ->
         get_dot_general_by_bits (modeling_mistral_flax.bits config)
           (modeling_mistral_flax.easy_method config) = None ->
         MistralForCausalLM_call decoder_stack get_dot_general_by_bits
           lax_dot_general2 config dtype param_dtype input_ids inputs_embeds
         = Ok logits ->
         dtype_of logits = dtype)
  /\ (forall (config : DbrxConfig) dtype input_ids input_embeds logits,
         get_dot_general_by_bits (bits config) (easy_method config) = None ->
         DbrxForCausalLM_call decoder_stack get_dot_general_by_bits
           config dtype input_ids input_embeds = Ok logits ->
         dtype_of logits = dtype).
Proof.
  split; [exact neox_logits_float32 |].
  split; [exact mistral_logits_compute_dtype | exact dbrx_logits_compute_dtype].
Qed.

End Forward.

(** A call the claim about float32 logits fails on, and calls each part of
    the amended statement applies to. *)

Section Forward_instances.
Import Py nnx instances.
Import modeling_mistral_flax modeling_gpt_neo_x_flax modelling_dbrx_flax.

Lemma causal_lm_logits_dtype_witness :
  dtype_of {| batch := 1; seq_len := 8; features := 100; dtype_of := float32 |}
  = float32
  /\ dtype_of {| batch := 1; seq_len := 8; features := 100; dtype_of := bfloat16 |}
     = bfloat16
  /\ dtype_of {| batch := 1; seq_len := 10; features := 100; dtype_of := float16 |}
     = float16.
Proof.
  pose proof (causal_lm_logits_dtype (fun h => h) no_override (fun d _ => d))
    as (Hneox & Hmistral & Hdbrx).
  split; [| split].
  - apply (Hneox neox_small bfloat16 (Some ids_1x8) None). reflexivity.
  - apply (Hmistral mistral_small bfloat16 float32 (Some ids_1x8) None);
      reflexivity.
  - apply (Hdbrx dbrx_small float16 (Some ids_1x10) None); reflexivity.
Defined.

(** With compute type bfloat16, a Mistral causal-LM call returns bfloat16
    logits, not float32 ones. *)
Lemma mistral_bfloat16_logits_not_float32 :
  exists logits,
    MistralForCausalLM_call (fun h => h) no_override (fun d _ => d)
      mistral_small bfloat16 bfloat16 (Some ids_1x8) None = Ok logits
    /\ dtype_of logits <> float32.
Proof.
  eexists. split; [reflexivity |]. cbn. discriminate.
Qed.

(** A DBRX call on ten tokens with a configured maximum of five positions
    raises nothing: its blocks run. *)
Lemma dbrx_long_sequence_not_rejected :
  (max_position_embeddings dbrx_small < ids_len ids_1x10)%nat
  /\ is_ok (DbrxModel_call (fun h => h) dbrx_small float32 (Some ids_1x10) None)
     = true.
Proof. split; [cbn; lia | reflexivity]. Qed.

End Forward_instances.

(** ** [LinearNF4.__init__] *)

Section LinearNF4_constructor.
Import Py linear_nf4 linear_nf4.LinearNF4.

Variables Key Rngs : Type.
Variable rngs_params : Rngs -> Key * Rngs.

Lemma getattr_setattr_eq (self : instance) (name : string) (v : pyval) :
  getattr (setattr self name v) name = Some v.
Proof. unfold setattr. cbn. rewrite String.eqb_refl. reflexivity. Qed.

Lemma getattr_filter_neq (self : instance) (name other : string) :
  name <> other ->
  getattr (filter (fun kv => negb (String.eqb (fst kv) name)) self) other
  = getattr self other.
Proof.
  intros Hneq. induction self as [| [k v] rest IH]; [reflexivity |].
  cbn. destruct (String.eqb_spec k name) as [-> | Hk]; cbn.
  - destruct (String.eqb_spec name other); [contradiction | exact IH].
  - rewrite IH. reflexivity.
Qed.

Lemma getattr_setattr_neq (self : instance) (name other : string) (v : pyval) :
  name <> other ->
  getattr (setattr self name v) other = getattr self other.
Proof.
  intros Hneq. unfold setattr. cbn.
  destruct (String.eqb_spec name other); [contradiction |].
  apply getattr_filter_neq. exact Hneq.
Qed.

(** The one-argument call of the two-parameter static method. *)
Lemma quantize_kernel_one_argument (kernel : ndarray) :
  _quantize_kernel [VArray kernel]
  = Raise (TypeError
             "_quantize_kernel() missing 1 required positional argument: block_size").
Proof. reflexivity. Qed.

(** C10.  With [do_init=True] the constructor raises [TypeError], whatever
    the other arguments are, and [self] is left as it was: no attribute has
    been stored.  With [do_init=False] it returns, and [packed_kernel] and
    [scales] are parameters holding [None]. *)
Theorem linear_nf4_constructor :
  (forall self in_features out_features use_bias dtype param_dtype precision
          (kernel_init bias_init : Initializer Key) dot_general rngs block_size,
      exists rngs' msg,
        __init__ Key Rngs rngs_params self in_features out_features use_bias
          dtype param_dtype precision true kernel_init bias_init dot_general
          rngs block_size
        = ((rngs', self), Raise (TypeError msg)))
  /\ (forall self in_features out_features use_bias dtype param_dtype precision
             (kernel_init bias_init : Initializer Key) dot_general rngs block_size,
         exists self',
           __init__ Key Rngs rngs_params self in_features out_features use_bias
             dtype param_dtype precision false kernel_init bias_init dot_general
             rngs block_size
           = ((rngs, self'), Ok tt)
           /\ getattr self' "packed_kernel" = Some (VParam VNone)
           /\ getattr self' "scales" = Some (VParam VNone)).
Proof.
  split; intros.
  - unfold __init__. destruct (rngs_params rngs) as [kernel_key rngs'].
    rewrite quantize_kernel_one_argument. cbn. eauto.
  - unfold __init__. rewrite andb_false_r. eexists. split; [reflexivity |].
    split.
    + rewrite !getattr_setattr_neq by discriminate.
      apply getattr_setattr_eq.
    + rewrite !getattr_setattr_neq by discriminate.
      apply getattr_setattr_eq.
Qed.

End LinearNF4_constructor.

(** ** Decoder blocks *)

Section Decoder_blocks.
Import modeling_mistral_flax modeling_gpt_neo_x_flax.

Variable T : Type.
Variable add : T -> T -> T.
Variables pre_attention_norm post_attention_norm attention mlp : T -> T.
Variable block_wise_ffn : (T -> T) -> T -> nat -> T.

(** Element-wise addition of arrays is commutative. *)
Hypothesis add_comm : forall a b, add a b = add b a.
(** Chunked application of a position-wise MLP computes what the MLP does. *)
Hypothesis block_wise_ffn_mlp : forall f y chunk, block_wise_ffn f y chunk = f y.

(** C7.  The parallel-residual GPT-NeoX block returns
    [mlp(post_norm(x)) + x + attention(pre_norm(x))]; the sequential GPT-NeoX
    block and the Mistral layer form [h = x + attention(pre_norm(x))] and
    return [h + mlp(post_norm(h))].  The DBRX block follows the sequential
    pipeline as well, with dropout on the attention output and the expert
    network in the place of the MLP. *)
Theorem decoder_block_pipeline :
  (forall (config : GPTNeoXConfig) x,
      use_parallel_residual config = true ->
      GPTNeoXBlock_call T add pre_attention_norm post_attention_norm attention mlp
        config x
      = add (add (mlp (post_attention_norm x)) x) (attention (pre_attention_norm x)))
  /\ (forall (config : GPTNeoXConfig) x,
         use_parallel_residual config = false ->
         let h := add x (attention (pre_attention_norm x)) in
         GPTNeoXBlock_call T add pre_attention_norm post_attention_norm attention
           mlp config x
         = add h (mlp (post_attention_norm h)))
  /\ (forall (config : MistralConfig) x,
         let h := add x (attention (pre_attention_norm x)) in
         MistralDecoderLayer_call T add pre_attention_norm post_attention_norm
           attention mlp block_wise_ffn config x
         = add h (mlp (post_attention_norm h)))
  /\ (forall (dropout : T -> T) x,
         let h := add x (dropout (attention (pre_attention_norm x))) in
         modelling_dbrx_flax.DbrxBlock_call T add pre_attention_norm
           post_attention_norm attention dropout mlp x
         = add h (mlp (post_attention_norm h))).
Proof.
  split; [| split; [| split]].
  - intros config x Hpar. unfold GPTNeoXBlock_call. rewrite Hpar. reflexivity.
  - intros config x Hseq h. unfold GPTNeoXBlock_call. rewrite Hseq.
    rewrite (add_comm (attention (pre_attention_norm x)) x).
    apply add_comm.
  - intros config x h. unfold MistralDecoderLayer_call.
    rewrite (add_comm (attention (pre_attention_norm x)) x).
    destruct (use_scan_mlp config); [rewrite block_wise_ffn_mlp |]; reflexivity.
  - intros dropout x h. unfold modelling_dbrx_flax.DbrxBlock_call,
      modelling_dbrx_flax.DbrxNormAttentionNorm_call.
    rewrite (add_comm (dropout (attention (pre_attention_norm x))) x).
    reflexivity.
Qed.

End Decoder_blocks.

Section Decoder_block_instances.
Import modeling_mistral_flax modeling_gpt_neo_x_flax instances.

Lemma decoder_block_pipeline_witness :
  GPTNeoXBlock_call Z Z.add (Z.mul 2) (Z.mul 3) (Z.add 5) Z.opp neox_small 7%Z
  = (Z.opp (3 * 7) + 7 + (5 + 2 * 7))%Z
  /\ GPTNeoXBlock_call Z Z.add (Z.mul 2) (Z.mul 3) (Z.add 5) Z.opp
       neox_sequential 7%Z
     = (let h := 7 + (5 + 2 * 7) in h + Z.opp (3 * h))%Z
  /\ MistralDecoderLayer_call Z Z.add (Z.mul 2) (Z.mul 3) (Z.add 5) Z.opp
       (fun f y _ => f y) mistral_small 7%Z
     = (let h := 7 + (5 + 2 * 7) in h + Z.opp (3 * h))%Z
  /\ modelling_dbrx_flax.DbrxBlock_call Z Z.add (Z.mul 2) (Z.mul 3) (Z.add 5)
       (fun y => y) Z.opp 7%Z
     = (let h := 7 + (5 + 2 * 7) in h + Z.opp (3 * h))%Z.
Proof.
  pose proof (decoder_block_pipeline Z Z.add (Z.mul 2) (Z.mul 3) (Z.add 5) Z.opp
                (fun f y _ => f y) Z.add_comm (fun f y chunk => eq_refl))
    as (Hpar & Hseq & Hmistral & Hdbrx).
  split; [| split; [| split]].
  - apply (Hpar neox_small 7%Z). reflexivity.
  - apply (Hseq neox_sequential 7%Z). reflexivity.
  - apply (Hmistral mistral_small 7%Z).
  - apply (Hdbrx (fun y => y) 7%Z).
Defined.

End Decoder_block_instances.

(** ** The DBRX router *)

Section Router_lists.
Import Py modelling_dbrx_flax.

Lemma all_rows_Forall2 {A B} (f : A -> result B) (Q : A -> B -> Prop)
    (l : list A) :
  (forall a, In a l -> exists b, f a = Ok b /\ Q a b) ->
  exists l', all_rows (map f l) = Ok l' /\ Forall2 Q l l'.
Proof.
  induction l as [| a l IH]; intros H.
  - exists []. split; [reflexivity | constructor].
  - destruct (H a (or_introl eq_refl)) as (b & Hb & HQ).
    destruct IH as (l' & Hl' & HF); [intros a' Ha'; apply H; right; exact Ha' |].
    exists (b :: l'). cbn. rewrite Hb. cbn. rewrite Hl'. cbn.
    split; [reflexivity | constructor; assumption].
Qed.

Lemma nth_map_seq {A} (f : nat -> A) (n i : nat) (d : A) :
  (i < n)%nat -> nth i (map f (seq 0 n)) d = f i.
Proof.
  intros Hi.
  rewrite (nth_indep _ d (f 0%nat)) by (rewrite length_map, length_seq; exact Hi).
  rewrite map_nth, seq_nth by exact Hi. reflexivity.
Qed.

Lemma reshape3_nth {A} (d : A) (flat : list A) (nb ns nk b s j : nat) :
  (b < nb)%nat -> (s < ns)%nat -> (j < nk)%nat ->
  nth j (nth s (nth b (reshape3 d flat (nb, ns, nk)) []) []) d
  = nth ((b * ns + s) * nk + j) flat d.
Proof.
  intros Hb Hs Hj. unfold reshape3.
  rewrite (nth_map_seq _ nb b [] Hb), (nth_map_seq _ ns s [] Hs),
          (nth_map_seq _ nk j d Hj).
  reflexivity.
Qed.

Lemma wrap32_small (z : Z) : (0 <= z < 2147483648)%Z -> wrap32 z = z.
Proof. intros H. unfold wrap32. rewrite Z.mod_small; lia. Qed.

Lemma arange_nth (n i : nat) :
  (Z.of_nat n <= 2147483648)%Z -> (i < n)%nat ->
  nth i (arange (Z.of_nat n)) 0%Z = Z.of_nat i.
Proof.
  intros Hn Hi. unfold arange. rewrite Nat2Z.id.
  rewrite nth_map_seq by exact Hi. apply wrap32_small. lia.
Qed.

Lemma arange_length (n : nat) : length (arange (Z.of_nat n)) = n.
Proof. unfold arange. rewrite Nat2Z.id, length_map, length_seq. reflexivity. Qed.

(** *** [top_k] *)

Lemma best_in (cs : list (nat * R)) :
  forall c, In (best c cs) (c :: cs).
Proof.
  unfold best. induction cs as [| a cs IH]; intros c; cbn; [auto |].
  destruct (IH (better c a)) as [H | H].
  - unfold better in H at 1. destruct (Rlt_dec (snd c) (snd a)); auto.
  - auto.
Qed.

Lemma filter_other_index (b : nat * R) (l : list (nat * R)) :
  ~ In (fst b) (map fst l) ->
  filter (fun p => negb (fst p =? fst b)%nat) l = l.
Proof.
  induction l as [| a l IH]; intros H; [reflexivity |]. cbn in *.
  destruct (Nat.eqb_spec (fst a) (fst b)) as [E | _]; cbn.
  - exfalso. apply H. left. exact E.
  - f_equal. apply IH. intros Hin. apply H. right. exact Hin.
Qed.

Lemma filter_drop_one (b : nat * R) (l : list (nat * R)) :
  NoDup (map fst l) -> In b l ->
  length (filter (fun p => negb (fst p =? fst b)%nat) l) = (length l - 1)%nat.
Proof.
  induction l as [| a l IH]; intros Hnd Hin; [contradiction |].
  cbn in Hnd. inversion Hnd as [| ? ? Hnotin Hnd']; subst.
  destruct Hin as [-> | Hin].
  - cbn. rewrite Nat.eqb_refl. cbn.
    rewrite filter_other_index by exact Hnotin. lia.
  - cbn. destruct (Nat.eqb_spec (fst a) (fst b)) as [E | _]; cbn.
    + exfalso. apply Hnotin. rewrite E. apply in_map. exact Hin.
    + rewrite IH by assumption.
      destruct l; [contradiction | cbn; lia].
Qed.

Lemma NoDup_map_filter {A B} (f : A -> B) (g : A -> bool) (l : list A) :
  NoDup (map f l) -> NoDup (map f (filter g l)).
Proof.
  induction l as [| a l IH]; intros H; [constructor |].
  cbn in H. inversion H as [| ? ? Hnotin Hnd]; subst. cbn.
  destruct (g a); cbn; [| auto].
  constructor; [| auto].
  intros Hin. apply Hnotin. apply in_map_iff in Hin as (x & Hx & Hin).
  apply filter_In in Hin as [Hin _]. rewrite <- Hx. apply in_map. exact Hin.
Qed.

Lemma select_length (k : nat) :
  forall cands,
    NoDup (map fst cands) -> (k <= length cands)%nat ->
    length (select k cands) = k.
Proof.
  induction k as [| k IH]; intros cands Hnd Hk; [reflexivity |].
  destruct cands as [| c cs]; [cbn in Hk; lia |].
  cbn [select length]. f_equal. apply IH.
  - apply NoDup_map_filter. exact Hnd.
  - rewrite (filter_drop_one (best c cs) (c :: cs) Hnd (best_in cs c)).
    cbn in *. lia.
Qed.

Lemma select_In (k : nat) :
  forall cands p, In p (select k cands) -> In p cands.
Proof.
  induction k as [| k IH]; intros cands p H; [contradiction |].
  destruct cands as [| c cs]; [contradiction |].
  cbn [select] in H. destruct H as [<- | H].
  - apply best_in.
  - apply IH in H. apply filter_In in H as [H _]. exact H.
Qed.

Lemma map_fst_combine_same {A B} (l : list A) :
  forall m : list B, length l = length m -> map fst (combine l m) = l.
Proof.
  induction l as [| a l IH]; intros [| b m] H; try discriminate H; [reflexivity |].
  cbn. f_equal. apply IH. cbn in H. lia.
Qed.

(** [top_k] returns when [k] is within the operand: [k] values taken from
    the operand, with [k] positions. *)
Lemma top_k_ok (operand : list R) (k : nat) :
  (k <= length operand)%nat ->
  exists values indices,
    top_k operand k = Ok (values, indices)
    /\ length values = k /\ length indices = k
    /\ (forall v, In v values -> In v operand).
Proof.
  intros Hk. unfold top_k.
  destruct (Nat.ltb_spec (length operand) k) as [Hlt | _]; [lia |].
  set (cands := combine (seq 0 (length operand)) operand).
  assert (Hlen : length cands = length operand)
    by (unfold cands; rewrite length_combine, length_seq; lia).
  assert (Hnd : NoDup (map fst cands)).
  { unfold cands. rewrite map_fst_combine_same by (rewrite length_seq; reflexivity).
    apply seq_NoDup. }
  eexists _, _. split; [reflexivity |].
  rewrite !length_map, select_length by (try assumption; lia).
  repeat split.
  intros v Hv. apply in_map_iff in Hv as ([i w] & <- & Hin).
  apply select_In in Hin. unfold cands in Hin.
  apply in_combine_r in Hin. exact Hin.
Qed.

Section Top_k_order.
Local Open Scope R_scope.

Lemma in_combine_seq (operand : list R) (p : nat * R) :
  In p (combine (seq 0 (length operand)) operand) ->
  (fst p < length operand)%nat /\ snd p = nth (fst p) operand 0.
Proof.
  assert (H : forall start, In p (combine (seq start (length operand)) operand) ->
                (start <= fst p < start + length operand)%nat
                /\ snd p = nth (fst p - start) operand 0).
  { induction operand as [| a operand IH]; intros start Hin; [contradiction |].
    cbn in Hin. destruct Hin as [<- | Hin].
    - cbn [fst snd length]. rewrite Nat.sub_diag. split; [lia | reflexivity].
    - destruct (IH (S start) Hin) as [Hr Hv]. cbn [length]. split; [lia |].
      rewrite Hv. replace (fst p - start)%nat with (S (fst p - S start)) by lia.
      reflexivity. }
  intros Hin. destruct (H 0%nat Hin) as [Hr Hv].
  rewrite Nat.sub_0_r in Hv. split; [lia | exact Hv].
Qed.

Lemma combine_seq_In (operand : list R) (i : nat) :
  (i < length operand)%nat ->
  In (i, nth i operand 0) (combine (seq 0 (length operand)) operand).
Proof.
  assert (H : forall start j, (j < length operand)%nat ->
                In ((start + j)%nat, nth j operand 0)
                   (combine (seq start (length operand)) operand)).
  { induction operand as [| a operand IH]; intros start j Hj; cbn in Hj; [lia |].
    destruct j as [| j]; cbn [seq combine length nth].
    - left. rewrite Nat.add_0_r. reflexivity.
    - right. replace (start + S j)%nat with (S start + j)%nat by lia.
      apply IH. lia. }
  intros Hi. exact (H 0%nat i Hi).
Qed.

(** *** The order of the positions [top_k] returns *)


Lemma candidate_before_irrefl (a : nat * R) : ~ candidate_before a a.
Proof. unfold candidate_before. intros [H | [_ H]]; [lra | lia]. Qed.














End Top_k_order.

End Router_lists.

Section Router_tokens.
Import Py modelling_dbrx_flax.
Local Open Scope R_scope.

Lemma softmax_length (logits : list R) : length (softmax logits) = length logits.
Proof. unfold softmax. rewrite !length_map. reflexivity. Qed.

Lemma sum_positive (l : list R) :
  l <> [] -> Forall (fun x => 0 < x) l -> 0 < sum l.
Proof.
  intros Hne Hall. destruct Hall as [| x l Hx Hl]; [congruence |].
  clear Hne. cbn. revert x Hx. induction Hl as [| y l Hy _ IH]; intros x Hx; cbn.
  - lra.
  - specialize (IH y Hy). cbn in IH. lra.
Qed.

Lemma softmax_positive (logits : list R) :
  logits <> [] -> Forall (fun w => 0 < w) (softmax logits).
Proof.
  intros Hne. unfold softmax.
  set (x_max := fold_right Rmax (hd 0 logits) logits).
  set (unnormalized := map (fun x => exp (x - x_max)) logits).
  assert (Hpos : Forall (fun u => 0 < u) unnormalized).
  { apply Forall_forall. intros u Hu. apply in_map_iff in Hu as (x & <- & _).
    apply exp_pos. }
  assert (Hsum : 0 < sum unnormalized).
  { apply sum_positive; [| exact Hpos].
    unfold unnormalized. destruct logits; [congruence | discriminate]. }
  apply Forall_forall. intros w Hw. apply in_map_iff in Hw as (u & <- & Hu).
  apply Rdiv_lt_0_compat; [| exact Hsum].
  exact (proj1 (Forall_forall _ _) Hpos u Hu).
Qed.

Lemma sum_map_div (c : R) (l : list R) :
  sum (map (fun w => w / c) l) = sum l / c.
Proof.
  unfold sum. induction l as [| a l IH]; cbn; [unfold Rdiv; ring |].
  rewrite IH. unfold Rdiv. ring.
Qed.

Lemma map_Rabs_positive (l : list R) :
  Forall (fun x => 0 < x) l -> map Rabs l = l.
Proof.
  induction 1 as [| x l Hx _ IH]; [reflexivity |].
  cbn. rewrite IH, Rabs_right by lra. reflexivity.
Qed.

(** Positive weights divided by their L1 norm sum to one. *)
Lemma l1_normalized_sum (values : list R) :
  values <> [] -> Forall (fun x => 0 < x) values ->
  sum (map (fun w => w / vector_norm 1 values) values) = 1.
Proof.
  intros Hne Hpos. rewrite sum_map_div. cbn [vector_norm].
  rewrite map_Rabs_positive by exact Hpos.
  apply Rdiv_diag. pose proof (sum_positive values Hne Hpos). lra.
Qed.

Lemma py_int_one_truthy (p : Q) : py_int p = 1%Z -> truthy (Some p) = true.
Proof.
  intros H. cbn. destruct (Qeq_bool p 0) eqn:E; [| reflexivity].
  exfalso. apply Qeq_bool_eq in E.
  assert (Hfloor : Qfloor p = 0%Z) by (rewrite E; reflexivity).
  assert (Hceil : Qceiling p = 0%Z) by (rewrite E; reflexivity).
  unfold py_int in H. destruct (Qle_bool 0 p); congruence.
Qed.

Section Token.

Variable config : DbrxFFNConfig.

(** Routing one token returns when [moe_top_k] is within the number of
    logits: [moe_top_k] weights and indices, and weights of sum one under
    L1 normalisation. *)
Lemma route_token_ok (logits : list R) :
  (moe_top_k config <= length logits)%nat ->
  exists r,
    route_token config logits = Ok r
    /\ length (fst (snd r)) = moe_top_k config
    /\ length (snd (snd r)) = moe_top_k config
    /\ (l1_normalized config -> sum (fst (snd r)) = 1).
Proof.
  intros Hk. unfold route_token.
  destruct (top_k_ok (softmax logits) (moe_top_k config))
    as (values & indices & Htop & Hlv & Hli & Hin);
    [rewrite softmax_length; exact Hk |].
  rewrite Htop. cbn [bind]. eexists. split; [reflexivity |]. cbn [fst snd].
  split; [| split].
  - destruct (truthy _); [destruct (moe_normalize_expert_weights config) |];
      rewrite ?length_map; exact Hlv.
  - exact Hli.
  - intros (Hk1 & p & Hp & Hint). rewrite Hp.
    rewrite (py_int_one_truthy p Hint), Hint.
    assert (Hne : logits <> []) by (intros ->; cbn in Hk; lia).
    apply l1_normalized_sum.
    + intros ->. cbn in Hlv. lia.
    + apply Forall_forall. intros v Hv.
      exact (proj1 (Forall_forall _ _) (softmax_positive logits Hne) v (Hin v Hv)).
Qed.


End Token.

End Router_tokens.

Section Router_call.
Import Py modelling_dbrx_flax.

Variable config : DbrxFFNConfig.
Variable layer : list R -> list R.

(** The projection has one output per expert. *)
Hypothesis layer_experts :
  forall v, length (layer v) = Z.to_nat (moe_num_experts config).
Hypothesis top_k_experts :
  (moe_top_k config <= Z.to_nat (moe_num_experts config))%nat.

Lemma Forall2_same_rows (x : tensor3 R) :
  Forall2 (fun row row' : list (list R) => length row' = length row) x x.
Proof. induction x; constructor; auto. Qed.

(** A call that applies jitter ([deterministic=False] with
    [moe_jitter_eps] set) raises at [self.make_rng]: no noise is drawn and
    the projection is not reached. *)
Lemma router_logits_jitter (normal : nat -> nat -> nat -> R) (x : tensor3 R)
    (eps : Q) :
  moe_jitter_eps config = Some eps ->
  router_logits config layer normal x false
  = Raise (AttributeError "'DbrxRouter' object has no attribute 'make_rng'").
Proof. intros H. unfold router_logits, jitter. rewrite H. reflexivity. Qed.

(** Every other call projects the input as it is. *)
Lemma router_logits_no_jitter (normal : nat -> nat -> nat -> R) (x : tensor3 R)
    (deterministic : bool) :
  no_jitter config deterministic ->
  router_logits config layer normal x deterministic = Ok (map (map layer) x).
Proof.
  intros [-> | H]; unfold router_logits; [reflexivity |].
  rewrite H, andb_false_r. reflexivity.
Qed.

(** The logits of a call without jitter: one vector of [moe_num_experts]
    entries per token of [x]. *)
Lemma router_logits_ok (normal : nat -> nat -> nat -> R) (x : tensor3 R)
    (deterministic : bool) :
  no_jitter config deterministic ->
  exists logits,
    router_logits config layer normal x deterministic = Ok logits
    /\ Forall2 (fun (row : list (list R)) lrow =>
                  length lrow = length row
                  /\ Forall (fun lg => length lg = Z.to_nat (moe_num_experts config))
                       lrow)
         x logits.
Proof.
  intros Hnj. exists (map (map layer) x).
  split; [apply router_logits_no_jitter; exact Hnj |].
  induction x as [| row x' IH]; cbn; constructor; [| exact IH].
  split; [apply length_map |].
  apply Forall_forall. intros lg Hlg. apply in_map_iff in Hlg as (v & <- & _).
  apply layer_experts.
Qed.

(** Routing every token: the three arrays returned are the components of
    the per-token results. *)
Lemma route_tokens (P : list R -> list R * (list R * list Z) -> Prop)
    (logits : tensor3 R) :
  uniform_expert_assignment config = false ->
  (forall row lg, In row logits -> In lg row ->
     exists r, route_token config lg = Ok r /\ P lg r) ->
  exists routed,
    route config logits
    = Ok (map (map fst) routed,
          map (map (fun r => fst (snd r))) routed,
          map (map (fun r => snd (snd r))) routed)
    /\ Forall2 (Forall2 P) logits routed.
Proof.
  intros Huniform Htokens. unfold route.
  destruct (all_rows_Forall2
              (fun row => all_rows (map (route_token config) row))
              (Forall2 P) logits) as (routed & Hrouted & HF).
  { intros row Hrow. apply all_rows_Forall2. intros lg Hlg.
    exact (Htokens row lg Hrow Hlg). }
  exists routed. rewrite Hrouted. cbn [bind]. rewrite Huniform. cbn [bind].
  split; [reflexivity | exact HF].
Qed.

Lemma Forall2_right {A B} (T : B -> Prop) (l : list A) (l' : list B) :
  Forall2 (fun _ b => T b) l l' -> Forall T l'.
Proof. induction 1; constructor; auto. Qed.

(** Every token of well-formed logits is routed. *)
Lemma routed_ok (x logits : tensor3 R) :
  Forall2 (fun (row : list (list R)) lrow =>
             length lrow = length row
             /\ Forall (fun lg => length lg = Z.to_nat (moe_num_experts config)) lrow)
    x logits ->
  exists routed,
    all_rows (map (fun row => all_rows (map (route_token config) row)) logits)
    = Ok routed
    /\ Forall2 (fun (row : list (list R)) rrow =>
                  length rrow = length row
                  /\ Forall (fun r => length (fst (snd r)) = moe_top_k config
                                      /\ length (snd (snd r)) = moe_top_k config
                                      /\ (l1_normalized config ->
                                          sum (fst (snd r)) = 1%R))
                       rrow)
         x routed.
Proof.
  induction 1 as [| row lrow x logits [Hlen Hrow] _ (routed & Hroute & IH)].
  - exists []. split; [reflexivity | constructor].
  - destruct (all_rows_Forall2 (route_token config)
                (fun _ r => length (fst (snd r)) = moe_top_k config
                            /\ length (snd (snd r)) = moe_top_k config
                            /\ (l1_normalized config -> sum (fst (snd r)) = 1%R))
                lrow) as (rrow & Hrrow & HF).
    { intros lg Hlg. apply route_token_ok.
      rewrite (proj1 (Forall_forall _ _) Hrow lg Hlg). exact top_k_experts. }
    exists (rrow :: routed). cbn [map all_rows]. rewrite Hrrow. cbn [bind].
    rewrite Hroute. cbn [bind]. split; [reflexivity |].
    constructor; [| exact IH]. split.
    + rewrite <- (Forall2_length HF). exact Hlen.
    + exact (Forall2_right _ _ _ HF).
Qed.

(** The shape of the index array before the override. *)
Lemma top_experts_shape (x : tensor3 R)
    (routed : list (list (list R * (list R * list Z)))) (ns : nat) :
  Forall (fun row => length row = ns) x ->
  Forall2 (fun (row : list (list R)) rrow =>
             length rrow = length row
             /\ Forall (fun r => length (fst (snd r)) = moe_top_k config
                                 /\ length (snd (snd r)) = moe_top_k config
                                 /\ (l1_normalized config -> sum (fst (snd r)) = 1%R))
                  rrow)
    x routed ->
  exists ns' nk',
    shape3 (map (map (fun r => snd (snd r))) routed) = (length x, ns', nk')
    /\ (length x * ns' * nk' = length x * ns * moe_top_k config)%nat
    /\ ((0 < length x)%nat -> (0 < ns)%nat -> ns' = ns /\ nk' = moe_top_k config).
Proof.
  intros Hrect HF. unfold shape3. rewrite length_map, <- (Forall2_length HF).
  destruct HF as [| row rrow x routed [Hlen Hrow] HF].
  - exists 0%nat, 0%nat. cbn. repeat split; lia.
  - inversion Hrect as [| ? ? Hns _]; subst. cbn [map hd].
    rewrite length_map, Hlen.
    destruct Hrow as [| r rrow (_ & Hk & _) _].
    + exists 0%nat, 0%nat. cbn in *. rewrite <- Hlen. repeat split; lia.
    + exists (length row), (moe_top_k config). cbn [map hd]. rewrite Hk.
      repeat split; reflexivity.
Qed.

Lemma uniform_assignment_ok (top_experts : tensor3 Z) (nb ns nk : nat) :
  shape3 top_experts = (nb, ns, nk) ->
  (Z.of_nat nb * Z.of_nat ns * Z.of_nat nk < 2147483648)%Z ->
  exists assigned,
    uniform_assignment config top_experts = Ok assigned
    /\ forall b s j, (b < nb)%nat -> (s < ns)%nat -> (j < nk)%nat ->
         nth j (nth s (nth b assigned []) []) 0%Z
         = (Z.of_nat ((b * ns + s) * nk + j) mod moe_num_experts config)%Z.
Proof.
  intros Hshape Hsize. unfold uniform_assignment. rewrite Hshape.
  replace (Z.of_nat nb * Z.of_nat ns * Z.of_nat nk)%Z
    with (Z.of_nat (nb * ns * nk)) in * by lia.
  rewrite wrap32_small by lia.
  rewrite length_map, arange_length, Nat.eqb_refl.
  eexists. split; [reflexivity |].
  intros b s j Hb Hs Hj. rewrite reshape3_nth by assumption.
  assert (Hidx : ((b * ns + s) * nk + j < nb * ns * nk)%nat).
  { assert (H1 : (S b * ns <= nb * ns)%nat) by (apply Nat.mul_le_mono_r; lia).
    assert (H2 : (S (b * ns + s) * nk <= nb * ns * nk)%nat)
      by (apply Nat.mul_le_mono_r; cbn in H1; lia).
    cbn in H2. lia. }
  change 0%Z with ((fun i => i mod moe_num_experts config)%Z 0%Z) at 1.
  rewrite map_nth, arange_nth by (try assumption; lia).
  reflexivity.
Qed.

Lemma Forall2_rows_right {A B} (T : B -> Prop) (P : list A -> list B -> Prop)
    (x : list (list A)) (y : list (list B)) :
  Forall2 (fun row rrow => P row rrow /\ Forall T rrow) x y ->
  Forall (Forall T) y.
Proof. induction 1 as [| ? ? ? ? [_ H] _ IH]; constructor; auto. Qed.

(** With the override on, a call without jitter returns and slot [j] of
    token [(b, s)] holds the flattened slot index modulo the number of
    experts. *)
Lemma router_uniform_indices (normal : nat -> nat -> nat -> R) (x : tensor3 R)
    (deterministic : bool) (ns : nat) :
  uniform_expert_assignment config = true ->
  no_jitter config deterministic ->
  Forall (fun row => length row = ns) x ->
  (Z.of_nat (length x) * Z.of_nat ns * Z.of_nat (moe_top_k config)
   < 2147483648)%Z ->
  exists weights top_weights top_experts,
    DbrxRouter_call config layer normal x deterministic
    = Ok (weights, top_weights, top_experts)
    /\ forall b s j,
         (b < length x)%nat -> (s < ns)%nat -> (j < moe_top_k config)%nat ->
         nth j (nth s (nth b top_experts []) []) 0%Z
         = (Z.of_nat ((b * ns + s) * moe_top_k config + j)
            mod moe_num_experts config)%Z.
Proof.
  intros Huniform Hnj Hrect Hsize.
  destruct (router_logits_ok normal x deterministic Hnj)
    as (logits & Hlogits & Hshape).
  destruct (routed_ok x logits Hshape) as (routed & Hrouted & HF).
  destruct (top_experts_shape x routed ns Hrect HF) as (ns' & nk' & Hs3 & Hprod & Hdims).
  destruct (uniform_assignment_ok _ _ _ _ Hs3) as (assigned & Hassigned & Hnth).
  { replace (Z.of_nat (length x) * Z.of_nat ns' * Z.of_nat nk')%Z
      with (Z.of_nat (length x * ns' * nk')) by lia.
    rewrite Hprod. lia. }
  unfold DbrxRouter_call, route. rewrite Hlogits. cbn [bind].
  rewrite Hrouted. cbn [bind]. rewrite Huniform, Hassigned. cbn [bind].
  eexists _, _, _. split; [reflexivity |].
  intros b s j Hb Hs Hj.
  destruct Hdims as [-> ->]; [lia | lia |].
  apply Hnth; assumption.
Qed.

(** C1, as amended.  With [uniform_expert_assignment] set, for every input
    array (of [ns] tokens per batch row), every projection and every call
    that applies no jitter ([deterministic=True], or [moe_jitter_eps] not
    set), the call returns and the expert index in slot [j] of token [s] of
    batch row [b] is the flattened position [(b * ns + s) * moe_top_k + j]
    of that slot modulo [moe_num_experts]. *)
Theorem uniform_assignment_cycles_slots (normal : nat -> nat -> nat -> R)
    (x : tensor3 R) (deterministic : bool) (ns : nat) :
  uniform_expert_assignment config = true ->
  (0 < moe_num_experts config)%Z ->
  no_jitter config deterministic ->
  Forall (fun row => length row = ns) x ->
  (Z.of_nat (length x) * Z.of_nat ns * Z.of_nat (moe_top_k config)
   < 2147483648)%Z ->
  exists weights top_weights top_experts,
    DbrxRouter_call config layer normal x deterministic
    = Ok (weights, top_weights, top_experts)
    /\ forall b s j,
         (b < length x)%nat -> (s < ns)%nat -> (j < moe_top_k config)%nat ->
         nth j (nth s (nth b top_experts []) []) 0%Z
         = (Z.of_nat ((b * ns + s) * moe_top_k config + j)
            mod moe_num_experts config)%Z.
Proof.
  intros Huniform _ Hnj Hrect Hsize.
  exact (router_uniform_indices normal x deterministic ns Huniform Hnj Hrect Hsize).
Qed.


End Router_call.

(** ** The router at concrete inputs *)

Section Router_instances.
Import Py modelling_dbrx_flax instances.
Local Open Scope R_scope.

Lemma uniform_assignment_cycles_slots_witness :
  exists weights top_weights top_experts,
    DbrxRouter_call router_uniform (flat_layer 4) no_noise two_tokens true
    = Ok (weights, top_weights, top_experts)
    /\ forall b s j,
         (b < 1)%nat -> (s < 2)%nat -> (j < 2)%nat ->
         nth j (nth s (nth b top_experts []) []) 0%Z
         = (Z.of_nat ((b * 2 + s) * 2 + j) mod 4)%Z.
Proof.
  apply (uniform_assignment_cycles_slots router_uniform (flat_layer 4)).
  - intros v. reflexivity.
  - cbn. lia.
  - reflexivity.
  - reflexivity.
  - left. reflexivity.
  - repeat constructor.
  - reflexivity.
Defined.

(** With two slots per token and four experts, the second token (flattened
    token index 1) is sent to expert 2 first, not to expert [1 mod 4]. *)
Lemma uniform_assignment_not_token_index :
  exists weights top_weights top_experts,
    DbrxRouter_call router_uniform (flat_layer 4) no_noise two_tokens true
    = Ok (weights, top_weights, top_experts)
    /\ nth 0 (nth 1 (nth 0 top_experts []) []) 0%Z <> (1 mod 4)%Z.
Proof.
  destruct (router_uniform_indices router_uniform (flat_layer 4)
              (fun v => eq_refl)) with (normal := no_noise) (x := two_tokens)
              (deterministic := true) (ns := 2%nat)
    as (w & tw & te & Hcall & Hidx).
  - cbn. lia.
  - reflexivity.
  - left. reflexivity.
  - repeat constructor.
  - reflexivity.
  - exists w, tw, te. split; [exact Hcall |].
    rewrite (Hidx 0%nat 1%nat 0%nat) by (cbn; lia). cbn. discriminate.
Qed.







(** The factor of lines 471-474 lies in [[1 - eps, 1 + eps]] exactly when
    the sample it is computed from lies in [[0, 1]]: the formula maps a
    uniform sample of [[0, 1)] to the interval, not a normal one. *)
Lemma jitter_factor_in_interval (eps : Q) (noise : R) :
  0 < Q2R eps ->
  (1 - Q2R eps <= jitter_factor eps noise <= 1 + Q2R eps <-> 0 <= noise <= 1).
Proof.
  intros H. unfold jitter_factor. split; intros [A B]; split; nra.
Qed.

(** C5.  With [moe_jitter_eps] set, [jitter] raises [AttributeError] at
    [self.make_rng("params")] for every input, and so does every
    non-deterministic call of the router: no noise factor is drawn or
    applied, and the call does not return. *)
Theorem jitter_raises_attribute_error (config : DbrxFFNConfig)
    (layer : list R -> list R) (normal : nat -> nat -> nat -> R)
    (x : tensor3 R) (eps : Q) :
  moe_jitter_eps config = Some eps ->
  jitter config normal x
  = Raise (AttributeError "'DbrxRouter' object has no attribute 'make_rng'")
  /\ DbrxRouter_call config layer normal x false
     = Raise (AttributeError "'DbrxRouter' object has no attribute 'make_rng'").
Proof.
  intros H. split.
  - unfold jitter. rewrite H. reflexivity.
  - unfold DbrxRouter_call.
    rewrite (router_logits_jitter config layer normal x eps H). reflexivity.
Qed.

Lemma jitter_raises_attribute_error_witness :
  jitter router_jitter (fun _ _ _ => 2) [[[1]]]
  = Raise (AttributeError "'DbrxRouter' object has no attribute 'make_rng'")
  /\ DbrxRouter_call router_jitter (flat_layer 2) (fun _ _ _ => 2) [[[1]]] false
     = Raise (AttributeError "'DbrxRouter' object has no attribute 'make_rng'").
Proof.
  apply (jitter_raises_attribute_error router_jitter (flat_layer 2)
           (fun _ _ _ => 2) [[[1]]] (1 # 10)%Q).
  reflexivity.
Defined.

End Router_instances.

(* ################################################################# *)
(** * Part II, continued: further properties of the embedded code *)

(** ** NF4: accepted sizes, code range and the round trip *)

Section NF4_sizes.
Import Py linear_nf4.

Lemma pack_pairs_ok_even (quantized : list Z) :
  is_ok (pack_pairs quantized) = Nat.even (length quantized).
Proof.
  assert (H : forall n (q : list Z), (length q <= n)%nat ->
                is_ok (pack_pairs q) = Nat.even (length q)).
  { induction n as [| n IH]; intros [| q0 [| q1 rest]] Hn; cbn in Hn;
      try lia; try reflexivity.
    cbn [pack_pairs length Nat.even].
    rewrite <- (IH rest) by lia.
    destruct (pack_pairs rest); reflexivity. }
  apply (H (length quantized)). lia.
Qed.

Lemma normalize_rows_length (rows : list (list f32)) (f : list f32 -> f32) :
  length (concat (normalize_rows rows (map f rows))) = length (concat rows).
Proof.
  rewrite normalize_rows_map.
  induction rows as [| row rows IH]; cbn; [reflexivity |].
  rewrite !length_app, IH. unfold normalize_row. rewrite length_map. reflexivity.
Qed.

Lemma rows_of_concat_back {A} (cols : nat) (Hcols : (0 < cols)%nat) :
  forall (n : nat) (l : list A) (fuel : nat),
    length l = (n * cols)%nat -> (length l <= fuel)%nat ->
    concat (rows_of fuel cols l) = l.
Proof.
  induction n as [| n IH]; intros l fuel Hlen Hfuel.
  - destruct l; [| discriminate]. rewrite rows_of_nil. reflexivity.
  - destruct fuel as [| fuel]; [cbn in Hlen; lia |].
    destruct l as [| a l']; [cbn in Hlen; lia |].
    remember (a :: l') as l eqn:El.
    replace (rows_of (S fuel) cols l)
      with (firstn cols l :: rows_of fuel cols (skipn cols l))
      by (rewrite El; reflexivity).
    cbn [concat]. rewrite IH.
    + apply firstn_skipn.
    + rewrite length_skipn. lia.
    + rewrite length_skipn. lia.
Qed.

Lemma quantize_accepts (blocks : list f32) (block_size : nat) :
  is_ok (single_quantize_and_pack_nf4 blocks block_size)
  = (0 <? block_size)%nat && (length blocks mod block_size =? 0)%nat
    && Nat.even (length blocks).
Proof.
  unfold single_quantize_and_pack_nf4, reshape_rows.
  destruct (Nat.eqb_spec block_size 0) as [-> | Hbs]; [reflexivity |].
  replace (0 <? block_size)%nat with true by (symmetry; apply Nat.ltb_lt; lia).
  destruct (Nat.eqb_spec (length blocks mod block_size) 0) as [Hmod | _];
    [| reflexivity].
  cbn [bind andb].
  assert (Hlen : length blocks = (length blocks / block_size * block_size)%nat).
  { pose proof (Nat.div_mod_eq (length blocks) block_size). lia. }
  set (rows := rows_of (length blocks) block_size blocks).
  assert (Hcat : concat rows = blocks)
    by (apply (rows_of_concat_back block_size ltac:(lia) _ _ _ Hlen); lia).
  pose proof (pack_pairs_ok_even
                (map quantize_value
                   (concat (normalize_rows rows
                              (map (fun row => row_max (map f32_abs row)) rows)))))
    as Hpack.
  rewrite length_map, normalize_rows_length, Hcat in Hpack.
  destruct (pack_pairs _); exact Hpack.
Qed.

Lemma pack_pairs_bytes (packed : list Z) :
  forall quantized, pack_pairs quantized = Ok packed ->
  Forall (fun p => (0 <= p < 256)%Z) packed.
Proof.
  induction packed as [| p packed IH]; intros quantized H; [constructor |].
  destruct quantized as [| q0 [| q1 rest]]; cbn in H; try discriminate H.
  destruct (pack_pairs rest) as [pk |] eqn:E; cbn in H; [| discriminate H].
  injection H as <- ->. constructor; [apply pack_pair_byte | exact (IH rest E)].
Qed.

Lemma quantize_sizes (blocks : list f32) (block_size : nat) (packed : list Z)
    (absmax : list f32) :
  single_quantize_and_pack_nf4 blocks block_size = Ok (packed, absmax) ->
  (2 * length packed = length blocks)%nat
  /\ (length absmax * block_size = length blocks)%nat
  /\ Forall (fun p => (0 <= p < 256)%Z) packed.
Proof.
  intros H.
  pose proof (quantize_accepts blocks block_size) as Hok. rewrite H in Hok.
  cbn [is_ok] in Hok. symmetry in Hok.
  apply andb_true_iff in Hok as [Hok _]. apply andb_true_iff in Hok as [Hbs Hmod].
  apply Nat.ltb_lt in Hbs. apply Nat.eqb_eq in Hmod.
  unfold single_quantize_and_pack_nf4, reshape_rows in H.
  destruct (Nat.eqb_spec block_size 0) as [E | _]; [lia |].
  rewrite Hmod in H. cbn [Nat.eqb bind] in H.
  assert (Hlen : length blocks = (length blocks / block_size * block_size)%nat).
  { pose proof (Nat.div_mod_eq (length blocks) block_size). lia. }
  set (rows := rows_of (length blocks) block_size blocks) in *.
  assert (Hcat : concat rows = blocks)
    by (apply (rows_of_concat_back block_size Hbs _ _ _ Hlen); lia).
  destruct (rows_of_Forall (fun _ => True) block_size Hbs _ blocks (length blocks)
              Hlen (Nat.le_refl _)) as [Hn _].
  { apply Forall_forall. auto. }
  fold rows in Hn.
  destruct (pack_pairs _) as [packed' |] eqn:Hp; cbn in H; [| discriminate H].
  injection H as <- <-.
  pose proof (pack_pairs_length _ _ Hp) as Hl.
  rewrite length_map, normalize_rows_length, Hcat in Hl.
  split; [lia |]. split; [rewrite length_map, Hn; lia |].
  exact (pack_pairs_bytes _ _ Hp).
Qed.

Lemma scale_rows_widths (cols : nat) (rows : list (list f32)) :
  Forall (fun row => length row = cols) rows ->
  forall absmax,
    Forall (fun row => length row = cols) (scale_rows rows absmax).
Proof.
  induction 1 as [| row rows Hrow _ IH]; intros [| a absmax]; cbn; try constructor.
  - rewrite length_map. exact Hrow.
  - apply IH.
Qed.

Lemma dequantize_accepts (packed_values : list Z) (absmax : list f32)
    (block_size : nat) :
  is_ok (single_dequantize_nf4 packed_values absmax block_size)
  = (2 * length packed_values =? length absmax * block_size)%nat.
Proof.
  unfold single_dequantize_nf4, reshape_to.
  rewrite length_map, unpack_nibbles_length.
  destruct (_ =? _)%nat; [| reflexivity].
  destruct (block_size =? 0)%nat; reflexivity.
Qed.

Lemma dequantize_shape (packed_values : list Z) (absmax : list f32)
    (block_size : nat) (rows : list (list f32)) :
  single_dequantize_nf4 packed_values absmax block_size = Ok rows ->
  length rows = length absmax
  /\ Forall (fun row => length row = block_size) rows.
Proof.
  unfold single_dequantize_nf4, reshape_to.
  rewrite length_map, unpack_nibbles_length.
  destruct (Nat.eqb_spec (2 * length packed_values) (length absmax * block_size))
    as [Hlen | _]; [| discriminate].
  destruct (Nat.eqb_spec block_size 0) as [-> | Hbs]; cbn [bind]; intros H;
    injection H as <-.
  - split.
    + rewrite scale_rows_length; rewrite repeat_length; reflexivity.
    + apply scale_rows_widths. apply Forall_forall. intros row Hrow.
      apply repeat_spec in Hrow. subst row. reflexivity.
  - set (flat := map (fun i => nth (Z.to_nat i) NF4_TABLE S754_nan)
                     (unpack_nibbles packed_values)).
    assert (Hflat : length flat = (length absmax * block_size)%nat)
      by (unfold flat; rewrite length_map, unpack_nibbles_length; exact Hlen).
    destruct (rows_of_Forall (fun _ => True) block_size ltac:(lia) (length absmax)
                flat (2 * length packed_values)) as [Hn Hall].
    + exact Hflat.
    + lia.
    + apply Forall_forall. auto.
    + split.
      * rewrite scale_rows_length; [exact Hn | symmetry; exact Hn].
      * apply scale_rows_widths.
        eapply Forall_impl; [| exact Hall]. intros row [Hrow _]. exact Hrow.
Qed.

Lemma searchsorted_range (a : list f32) (v : f32) :
  (0 <= searchsorted a v <= Z.of_nat (length a))%Z.
Proof.
  induction a as [| b a IH]; cbn [searchsorted length]; [lia |].
  destruct (sort_lt b v); lia.
Qed.

Lemma searchsorted_cons (b : f32) (a : list f32) (v : f32) :
  searchsorted (b :: a) v = if sort_lt b v then (1 + searchsorted a v)%Z else 0%Z.
Proof. reflexivity. Qed.

Lemma minus_infinity_below (x : f32) :
  x <> S754_infinity true -> sort_lt (S754_infinity true) x = true.
Proof. destruct x as [s | [|] | | s m e]; intros H; try reflexivity. congruence. Qed.

Lemma quantize_value_code (x : f32) :
  x <> S754_infinity true -> is_code (quantize_value x).
Proof.
  intros Hx. unfold is_code, quantize_value, NF4_BOUNDARIES.
  rewrite searchsorted_cons, minus_infinity_below by exact Hx.
  match goal with
  | |- context [searchsorted ?a ?v] => pose proof (searchsorted_range a v) as H
  end.
  cbn [length] in H. lia.
Qed.

Lemma scale_rows_map (f : list f32 -> f32) (h : list f32 -> list f32)
    (rows : list (list f32)) :
  scale_rows (map h rows) (map f rows)
  = map (fun row => map (fun x => f32_mul x (f row)) (h row)) rows.
Proof. induction rows as [| row rows IH]; cbn; [| rewrite IH]; reflexivity. Qed.

Lemma dequantize_quantized_length (blocks : list f32) (block_size : nat)
    (packed : list Z) (absmax : list f32) :
  single_quantize_and_pack_nf4 blocks block_size = Ok (packed, absmax) ->
  exists rows,
    single_dequantize_nf4 packed absmax block_size = Ok rows
    /\ length (concat rows) = length blocks.
Proof.
  intros H. destruct (quantize_sizes _ _ _ _ H) as (Hp & Ha & _).
  pose proof (dequantize_accepts packed absmax block_size) as Hok.
  replace (2 * length packed =? length absmax * block_size)%nat with true in Hok
    by (symmetry; apply Nat.eqb_eq; lia).
  destruct (single_dequantize_nf4 packed absmax block_size) as [rows |] eqn:Hd;
    [| discriminate Hok].
  destruct (dequantize_shape _ _ _ _ Hd) as [Hn Hw].
  exists rows. split; [reflexivity |].
  rewrite (length_concat_rows block_size rows Hw). lia.
Qed.

(** X1. [single_quantize_and_pack_nf4] returns exactly on the arrays whose
    number of entries is even and a multiple of a positive [block_size]; the
    result then holds one byte (a value in 0..255) per two entries and one
    scale per block. *)
Theorem nf4_quantize_accepted_inputs (blocks : list f32) (block_size : nat) :
  match single_quantize_and_pack_nf4 blocks block_size with
  | Ok (packed, absmax) =>
      (0 < block_size)%nat
      /\ (length blocks mod block_size = 0)%nat
      /\ Nat.even (length blocks) = true
      /\ (2 * length packed = length blocks)%nat
      /\ (length absmax * block_size = length blocks)%nat
      /\ Forall (fun p => (0 <= p < 256)%Z) packed
  | Raise _ =>
      (0 <? block_size)%nat && (length blocks mod block_size =? 0)%nat
      && Nat.even (length blocks) = false
  end.
Proof.
  pose proof (quantize_accepts blocks block_size) as Hok.
  destruct (single_quantize_and_pack_nf4 blocks block_size)
    as [[packed absmax] | e] eqn:Hq; cbn [is_ok] in Hok.
  - symmetry in Hok.
    apply andb_true_iff in Hok as [Hok Heven].
    apply andb_true_iff in Hok as [Hbs Hmod].
    apply Nat.ltb_lt in Hbs. apply Nat.eqb_eq in Hmod.
    destruct (quantize_sizes _ _ _ _ Hq) as (Hp & Ha & Hbytes).
    repeat split; assumption.
  - symmetry. exact Hok.
Qed.

(** X2. [single_dequantize_nf4] returns exactly when the packed bytes hold
    [len(absmax) * block_size] codes, and then returns one row of
    [block_size] entries per scale. *)
Theorem nf4_dequantize_accepted_inputs (packed_values : list Z)
    (absmax : list f32) (block_size : nat) :
  match single_dequantize_nf4 packed_values absmax block_size with
  | Ok rows =>
      (2 * length packed_values = length absmax * block_size)%nat
      /\ length rows = length absmax
      /\ Forall (fun row => length row = block_size) rows
  | Raise _ => (2 * length packed_values <> length absmax * block_size)%nat
  end.
Proof.
  pose proof (dequantize_accepts packed_values absmax block_size) as Hok.
  destruct (single_dequantize_nf4 packed_values absmax block_size)
    as [rows | e] eqn:Hd; cbn [is_ok] in Hok.
  - symmetry in Hok. apply Nat.eqb_eq in Hok.
    destruct (dequantize_shape _ _ _ _ Hd) as [Hn Hw]. repeat split; assumption.
  - symmetry in Hok. apply Nat.eqb_neq in Hok. exact Hok.
Qed.

(** X3. Whatever [single_quantize_and_pack_nf4] returns is accepted by
    [single_dequantize_nf4] with the same [block_size], and the result has
    the blocks and the number of entries of the quantized array. *)
Theorem nf4_dequantize_after_quantize (blocks : list f32) (block_size : nat)
    (packed : list Z) (absmax : list f32) :
  single_quantize_and_pack_nf4 blocks block_size = Ok (packed, absmax) ->
  exists rows,
    single_dequantize_nf4 packed absmax block_size = Ok rows
    /\ length rows = length absmax
    /\ Forall (fun row => length row = block_size) rows
    /\ length (concat rows) = length blocks.
Proof.
  intros H.
  destruct (dequantize_quantized_length _ _ _ _ H) as (rows & Hd & Hlen).
  destruct (dequantize_shape _ _ _ _ Hd) as [Hn Hw].
  exists rows. repeat split; assumption.
Qed.

Lemma nf4_dequantize_after_quantize_witness :
  exists rows,
    single_dequantize_nf4 [12%Z; 247%Z] [one] 4 = Ok rows
    /\ length rows = length [one]
    /\ Forall (fun row => length row = 4%nat) rows
    /\ length (concat rows)
       = length [S754_finite true 8388608 (-23); S754_finite false 8388608 (-24);
                 one; S754_zero false].
Proof.
  apply (nf4_dequantize_after_quantize
           [S754_finite true 8388608 (-23); S754_finite false 8388608 (-24);
            one; S754_zero false] 4 [12%Z; 247%Z] [one]).
  vm_compute. reflexivity.
Defined.

(** X4. The sixteen NF4 levels are fixed points: the code of
    [NF4_TABLE[c]] is [c], so dequantized values normalised to scale one
    quantize to the code they came from. *)
Theorem nf4_table_levels_are_fixed_points (c : Z) :
  is_code c -> quantize_value (nth (Z.to_nat c) NF4_TABLE S754_nan) = c.
Proof.
  intros Hc.
  assert (H : (c = 0 \/ c = 1 \/ c = 2 \/ c = 3 \/ c = 4 \/ c = 5 \/ c = 6
               \/ c = 7 \/ c = 8 \/ c = 9 \/ c = 10 \/ c = 11 \/ c = 12
               \/ c = 13 \/ c = 14 \/ c = 15)%Z) by (unfold is_code in Hc; lia).
  repeat (destruct H as [H | H]; [subst c; vm_compute; reflexivity |]).
  subst c. vm_compute. reflexivity.
Qed.

Lemma nf4_table_levels_are_fixed_points_witness :
  quantize_value (nth (Z.to_nat 7) NF4_TABLE S754_nan) = 7%Z.
Proof.
  apply (nf4_table_levels_are_fixed_points 7). unfold is_code. lia.
Defined.

(** X5. [jnp.searchsorted(NF4_BOUNDARIES, x) - 1] lies between -1 and 15
    for every binary32 value, NaN included, and is -1 (not a 4-bit code)
    for minus infinity only. *)
Theorem nf4_code_range (x : f32) :
  (-1 <= quantize_value x <= 15)%Z
  /\ (quantize_value x = (-1)%Z <-> x = S754_infinity true).
Proof.
  split.
  - unfold quantize_value.
    pose proof (searchsorted_range NF4_BOUNDARIES x) as H.
    change (Z.of_nat (length NF4_BOUNDARIES)) with 16%Z in H. lia.
  - split.
    + intros H. destruct x as [s | [|] | | s m e]; try reflexivity; exfalso;
        revert H; unfold quantize_value, NF4_BOUNDARIES;
        rewrite searchsorted_cons, minus_infinity_below by discriminate;
        match goal with
        | |- context [searchsorted ?a ?v] =>
            pose proof (searchsorted_range a v); lia
        end.
    + intros ->. reflexivity.
Qed.

(** X6. Quantizing and dequantizing replaces every entry [x] of a block by
    [NF4_TABLE[code(x / absmax)] * absmax], where [absmax] is the largest
    absolute value of the block of [x]; the scales returned are these
    [absmax].  The blocks have [block_size > 0] entries, their total number
    is even, no normalised entry is minus infinity, and the computation
    stays out of the subnormal range (where flush-to-zero arithmetic and
    IEEE-754 differ): no entry, no normalised entry and no dequantized
    entry is tiny. *)
Theorem nf4_roundtrip_values (rows : list (list f32)) (block_size : nat) :
  (0 < block_size)%nat ->
  Forall (fun row => length row = block_size) rows ->
  Nat.Even (length (concat rows)) ->
  Forall (fun row =>
            Forall (fun x =>
                      let absmax := row_max (map f32_abs row) in
                      let normalized := f32_div x absmax in
                      normalized <> S754_infinity true
                      /\ is_tiny x = false
                      /\ is_tiny normalized = false
                      /\ is_tiny (f32_mul
                                    (nth (Z.to_nat (quantize_value normalized))
                                         NF4_TABLE S754_nan)
                                    absmax) = false)
                   row) rows ->
  exists packed,
    single_quantize_and_pack_nf4 (concat rows) block_size
    = Ok (packed, map (fun row => row_max (map f32_abs row)) rows)
    /\ single_dequantize_nf4 packed
         (map (fun row => row_max (map f32_abs row)) rows) block_size
       = Ok (map (fun row =>
                    map (fun x =>
                           f32_mul
                             (nth (Z.to_nat
                                     (quantize_value
                                        (f32_div x (row_max (map f32_abs row)))))
                                  NF4_TABLE S754_nan)
                             (row_max (map f32_abs row)))
                        row)
                 rows).
Proof.
  intros Hbs Hrows [k Hk] Hfin.
  set (f := fun row : list f32 => row_max (map f32_abs row)).
  set (q := fun row : list f32 =>
              map quantize_value (normalize_row row (f row))).
  set (h := fun row : list f32 =>
              map (fun i => nth (Z.to_nat i) NF4_TABLE S754_nan) (q row)).
  assert (Hcodes : Forall is_code (concat (map q rows))).
  { apply Forall_concat. apply Forall_map.
    eapply Forall_impl; [| exact Hfin]. intros row Hrow. unfold q, normalize_row.
    rewrite map_map. apply Forall_map.
    eapply Forall_impl; [| exact Hrow]. intros x Hx. cbv beta zeta in Hx |- *.
    apply quantize_value_code. exact (proj1 Hx). }
  assert (Hqlen : length (concat (map q rows)) = (2 * k)%nat).
  { rewrite <- Hk. clear. induction rows as [| row rows IH]; cbn; [reflexivity |].
    rewrite !length_app, IH. unfold q, normalize_row. rewrite !length_map.
    reflexivity. }
  destruct (pack_unpack_pairs k _ Hqlen Hcodes) as (packed & Hpack & _ & Hunpack).
  exists packed.
  assert (Hquant : single_quantize_and_pack_nf4 (concat rows) block_size
                   = Ok (packed, map f rows)).
  { unfold single_quantize_and_pack_nf4, reshape_rows.
    destruct (Nat.eqb_spec block_size 0) as [E | _]; [lia |].
    rewrite (length_concat_rows block_size rows Hrows), Nat.Div0.mod_mul, Nat.eqb_refl.
    cbn [bind].
    rewrite <- (length_concat_rows block_size rows Hrows).
    rewrite (rows_of_concat block_size Hbs rows Hrows) by lia.
    fold f. rewrite normalize_rows_map, concat_map, map_map. fold q.
    rewrite Hpack. reflexivity. }
  split; [exact Hquant |].
  unfold single_dequantize_nf4, reshape_to.
  rewrite Hunpack, concat_map, map_map. fold h.
  assert (Hh : Forall (fun row => length row = block_size) (map h rows)).
  { apply Forall_map. eapply Forall_impl; [| exact Hrows]. intros row Hrow.
    unfold h, q, normalize_row. rewrite !length_map. exact Hrow. }
  rewrite (length_concat_rows block_size _ Hh), !length_map, Nat.eqb_refl.
  destruct (Nat.eqb_spec block_size 0) as [E | _]; [lia |].
  cbn [bind].
  replace (length rows * block_size)%nat with (length (concat (map h rows)))
    by (rewrite (length_concat_rows block_size _ Hh), length_map; reflexivity).
  rewrite (rows_of_concat block_size Hbs _ Hh) by lia.
  rewrite scale_rows_map. f_equal.
  apply map_ext. intros row. unfold h, q, normalize_row. rewrite !map_map.
  reflexivity.
Qed.

Lemma nf4_roundtrip_values_witness :
  exists packed,
    single_quantize_and_pack_nf4 (concat instances.kernel_rows) 2
    = Ok (packed, map (fun row => row_max (map f32_abs row)) instances.kernel_rows)
    /\ single_dequantize_nf4 packed
         (map (fun row => row_max (map f32_abs row)) instances.kernel_rows) 2
       = Ok (map (fun row =>
                    map (fun x =>
                           f32_mul
                             (nth (Z.to_nat
                                     (quantize_value
                                        (f32_div x (row_max (map f32_abs row)))))
                                  NF4_TABLE S754_nan)
                             (row_max (map f32_abs row)))
                        row)
                 instances.kernel_rows).
Proof.
  apply (nf4_roundtrip_values instances.kernel_rows 2).
  - lia.
  - repeat constructor.
  - exists 2%nat. reflexivity.
  - repeat (apply Forall_cons || apply Forall_nil);
      (split; [vm_compute; discriminate |]);
      repeat split; vm_compute; reflexivity.
Defined.

End NF4_sizes.

(** ** [LinearNF4]: conversion from and to [nnx.Linear], and the call *)

Section LinearNF4_methods.
Import Py linear_nf4 linear_nf4.LinearNF4.

Variables Key Rngs : Type.
Variable rngs_params : Rngs -> Key * Rngs.
Variable default_rngs : Rngs.
Variable canonicalize_dtype :
  pyval -> ndarray -> ndarray -> option ndarray -> Dtype.
Variable asarray : ndarray -> Dtype -> ndarray.
Variable dot_general_apply : pyval -> ndarray -> ndarray -> pyval -> result ndarray.
Variable add_bias : ndarray -> ndarray -> result ndarray.
Variable nnx_Linear :
  pyval -> pyval -> pyval -> pyval -> pyval -> pyval -> pyval -> pyval -> pyval
  -> instance.

Lemma quantize_kernel_two_arguments (kernel : ndarray) (block_size : nat) :
  length (shape kernel) = 2%nat ->
  _quantize_kernel [VArray kernel; VInt block_size]
  = single_quantize_and_pack_nf4 (data kernel) block_size.
Proof.
  intros H. unfold _quantize_kernel, call_positional, quantize_and_pack_nf4.
  cbn [length Nat.ltb Nat.leb].
  destruct (shape kernel) as [| d0 [| d1 [| d2 rest]]]; try discriminate H.
  reflexivity.
Qed.

(** The object [from_linear] returns, attribute by attribute. *)
Lemma from_linear_result (linear : Linear Key) (rngs : option Rngs)
    (block_size : nat) :
  kernel_of linear ->
  from_linear Key Rngs rngs_params default_rngs linear rngs block_size
  = (quantized <- single_quantize_and_pack_nf4 (data (lin_kernel linear))
                    block_size ;;
     let self :=
       [("scales", VParam (VFloats (snd quantized)));
        ("packed_kernel", VParam (VBytes (fst quantized)));
        ("block_size", VInt block_size);
        ("dot_general", lin_dot_general linear);
        ("bias_init", VObject "bias_init");
        ("kernel_init", VObject "kernel_init");
        ("precision", lin_precision linear);
        ("param_dtype", VDtype (lin_param_dtype linear));
        ("dtype", opt_dtype (lin_dtype linear));
        ("use_bias", VBool (lin_use_bias linear));
        ("out_features", VInt (lin_out_features linear));
        ("in_features", VInt (lin_in_features linear))]%string in
     Ok (if lin_use_bias linear
         then ("bias"%string, VParam (lin_bias linear)) :: self
         else self ++ [("bias"%string, VParam VNone)])).
Proof.
  intros [Hshape _]. unfold from_linear, __init__. rewrite andb_false_r.
  cbn [bind fst snd].
  rewrite quantize_kernel_two_arguments by (rewrite Hshape; reflexivity).
  destruct (single_quantize_and_pack_nf4 _ _) as [[packed absmax] | e];
    cbn [bind fst snd]; [| reflexivity].
  destruct (lin_use_bias linear); reflexivity.
Qed.

(** X7. An object built by the constructor (with [do_init=False], the only
    setting under which it returns) holds no kernel: [get_quantized_kernel]
    returns [(None, None)], and [__call__], [get_kernel] and [to_linear]
    raise [AttributeError] when [dequantize_nf4] reads [None.ndim]. *)
Theorem linear_nf4_constructed_without_kernel (in_features out_features : nat)
    (use_bias : bool) (dtype : option Dtype) (param_dtype : Dtype)
    (precision : pyval) (kernel_init bias_init : Initializer Key)
    (dot_general : pyval) (rngs : Rngs) (block_size : nat) (inputs : ndarray) :
  let self := snd (fst (__init__ Key Rngs rngs_params [] in_features out_features
                          use_bias dtype param_dtype precision false kernel_init
                          bias_init dot_general rngs block_size)) in
  get_quantized_kernel self = Ok (VNone, VNone)
  /\ __call__ canonicalize_dtype asarray dot_general_apply add_bias self inputs
     = Raise (AttributeError "'NoneType' object has no attribute 'ndim'")
  /\ get_kernel self
     = Raise (AttributeError "'NoneType' object has no attribute 'ndim'")
  /\ to_linear nnx_Linear self
     = Raise (AttributeError "'NoneType' object has no attribute 'ndim'").
Proof.
  cbv zeta. unfold __init__. rewrite andb_false_r. cbn [fst snd].
  repeat split.
Qed.

(** X8. [from_linear] on a layer with a two-dimensional kernel returns
    exactly when the kernel can be quantized with [block_size]; the object
    then holds the packed kernel and the scales of that quantization, the
    sizes and [use_bias] of the layer, and as bias the layer's bias when
    [use_bias] is set and [None] otherwise. *)
Theorem linear_nf4_from_linear (linear : Linear Key) (rngs : option Rngs)
    (block_size : nat) :
  kernel_of linear ->
  match from_linear Key Rngs rngs_params default_rngs linear rngs block_size with
  | Ok self =>
      exists packed absmax,
        single_quantize_and_pack_nf4 (data (lin_kernel linear)) block_size
        = Ok (packed, absmax)
        /\ get_quantized_kernel self = Ok (VBytes packed, VFloats absmax)
        /\ getattr self "block_size" = Some (VInt block_size)
        /\ getattr self "in_features" = Some (VInt (lin_in_features linear))
        /\ getattr self "out_features" = Some (VInt (lin_out_features linear))
        /\ getattr self "use_bias" = Some (VBool (lin_use_bias linear))
        /\ getattr self "bias"
           = Some (VParam (if lin_use_bias linear then lin_bias linear
                           else VNone))
  | Raise _ =>
      is_ok (single_quantize_and_pack_nf4 (data (lin_kernel linear)) block_size)
      = false
  end.
Proof.
  intros Hkernel. rewrite (from_linear_result linear rngs block_size Hkernel).
  destruct (single_quantize_and_pack_nf4 _ _) as [[packed absmax] | e];
    cbn [bind fst snd]; [| reflexivity].
  exists packed, absmax. split; [reflexivity |].
  destruct (lin_use_bias linear); repeat split.
Qed.

Lemma from_linear_dequantizes (linear : Linear Key) (rngs : option Rngs)
    (block_size : nat) (self : instance) :
  kernel_of linear ->
  from_linear Key Rngs rngs_params default_rngs linear rngs block_size = Ok self ->
  exists packed absmax rows,
    single_quantize_and_pack_nf4 (data (lin_kernel linear)) block_size
    = Ok (packed, absmax)
    /\ single_dequantize_nf4 packed absmax block_size = Ok rows
    /\ _dequantize_kernel self
       = Ok {| shape := [lin_in_features linear; lin_out_features linear];
               data := concat rows |}.
Proof.
  intros Hkernel. rewrite (from_linear_result linear rngs block_size Hkernel).
  destruct Hkernel as [_ Hdata].
  destruct (single_quantize_and_pack_nf4 _ _) as [[packed absmax] | e] eqn:Hq;
    cbn [bind fst snd]; [| discriminate].
  intros H. injection H as <-.
  destruct (dequantize_quantized_length _ _ _ _ Hq) as (rows & Hd & Hlen).
  exists packed, absmax, rows. split; [reflexivity |]. split; [exact Hd |].
  unfold _dequantize_kernel, param_value, attribute, dequantize_nf4.
  destruct (lin_use_bias linear); cbn; rewrite Hd; cbn;
    rewrite Hlen, Hdata, Nat.eqb_refl; reflexivity.
Qed.

(** X9. [to_linear] undoes [from_linear] up to the quantization of the
    kernel: on the object [from_linear] returned it returns the
    [nnx.Linear] of the same nine attributes, whose kernel is the
    dequantized quantized kernel in the shape [(in_features, out_features)]
    and whose bias, when [use_bias] is set, is the bias of the original
    layer. *)
Theorem linear_nf4_to_linear_after_from_linear (linear : Linear Key)
    (rngs : option Rngs) (block_size : nat) (self : instance) :
  kernel_of linear ->
  from_linear Key Rngs rngs_params default_rngs linear rngs block_size = Ok self ->
  exists packed absmax rows,
    single_quantize_and_pack_nf4 (data (lin_kernel linear)) block_size
    = Ok (packed, absmax)
    /\ single_dequantize_nf4 packed absmax block_size = Ok rows
    /\ to_linear nnx_Linear self
       = Ok (let restored :=
               setattr
                 (nnx_Linear (VInt (lin_in_features linear))
                    (VInt (lin_out_features linear))
                    (VBool (lin_use_bias linear))
                    (opt_dtype (lin_dtype linear))
                    (VDtype (lin_param_dtype linear))
                    (lin_precision linear) (VObject "kernel_init")
                    (VObject "bias_init") (lin_dot_general linear))
                 "kernel"
                 (VParam (VArray {| shape := [lin_in_features linear;
                                              lin_out_features linear];
                                    data := concat rows |})) in
             if lin_use_bias linear
             then setattr restored "bias" (VParam (lin_bias linear))
             else restored).
Proof.
  intros Hkernel Hfrom.
  destruct (from_linear_dequantizes linear rngs block_size self Hkernel Hfrom)
    as (packed & absmax & rows & Hq & Hd & Hdeq).
  exists packed, absmax, rows. split; [exact Hq |]. split; [exact Hd |].
  unfold to_linear. rewrite Hdeq.
  rewrite (from_linear_result linear rngs block_size Hkernel), Hq in Hfrom.
  cbn [bind fst snd] in Hfrom. injection Hfrom as <-.
  unfold param_value, attribute.
  destruct (lin_use_bias linear); reflexivity.
Qed.

(** X10. On the object [from_linear] returned, [__call__] computes the
    product of the promoted inputs with the promoted dequantized kernel and
    adds the promoted bias exactly when the layer had one: the assertion
    [self.use_bias == (bias is not None)] holds, also for a layer without
    bias.  A layer with [use_bias] set holds an array as bias. *)
Theorem linear_nf4_call_after_from_linear (linear : Linear Key)
    (rngs : option Rngs) (block_size : nat) (self : instance)
    (inputs bias : ndarray) :
  kernel_of linear ->
  (lin_use_bias linear = true -> lin_bias linear = VArray bias) ->
  from_linear Key Rngs rngs_params default_rngs linear rngs block_size = Ok self ->
  exists kernel,
    get_kernel self = Ok kernel
    /\ shape kernel = [lin_in_features linear; lin_out_features linear]
    /\ __call__ canonicalize_dtype asarray dot_general_apply add_bias self inputs
       = (let bias := if lin_use_bias linear then Some bias else None in
          let dtype :=
            canonicalize_dtype (opt_dtype (lin_dtype linear)) inputs kernel bias in
          y <- dot_general_apply (lin_dot_general linear) (asarray inputs dtype)
                 (asarray kernel dtype) (lin_precision linear) ;;
          match bias with
          | Some bias => add_bias y (asarray bias dtype)
          | None => Ok y
          end).
Proof.
  intros Hkernel Hbias Hfrom.
  destruct (from_linear_dequantizes linear rngs block_size self Hkernel Hfrom)
    as (packed & absmax & rows & Hq & Hd & Hdeq).
  eexists. split; [exact Hdeq |]. split; [reflexivity |].
  unfold __call__. rewrite Hdeq.
  rewrite (from_linear_result linear rngs block_size Hkernel), Hq in Hfrom.
  cbn [bind fst snd] in Hfrom. injection Hfrom as <-.
  unfold param_value, attribute.
  destruct (lin_use_bias linear) eqn:Hub.
  - rewrite (Hbias eq_refl). cbn.
    destruct (dot_general_apply _ _ _ _); reflexivity.
  - cbn. destruct (dot_general_apply _ _ _ _); reflexivity.
Qed.

End LinearNF4_methods.

Section LinearNF4_instances.
Import Py linear_nf4 linear_nf4.LinearNF4 instances.

Lemma linear_2x2_kernel : kernel_of linear_2x2.
Proof. split; reflexivity. Qed.

Lemma linear_nf4_from_linear_witness :
  match from_linear unit unit unit_rngs tt linear_2x2 None 2 with
  | Ok self =>
      exists packed absmax,
        single_quantize_and_pack_nf4 (data (lin_kernel linear_2x2)) 2
        = Ok (packed, absmax)
        /\ get_quantized_kernel self = Ok (VBytes packed, VFloats absmax)
        /\ getattr self "block_size" = Some (VInt 2)
        /\ getattr self "in_features" = Some (VInt (lin_in_features linear_2x2))
        /\ getattr self "out_features"
           = Some (VInt (lin_out_features linear_2x2))
        /\ getattr self "use_bias" = Some (VBool (lin_use_bias linear_2x2))
        /\ getattr self "bias"
           = Some (VParam (if lin_use_bias linear_2x2 then lin_bias linear_2x2
                           else VNone))
  | Raise _ =>
      is_ok (single_quantize_and_pack_nf4 (data (lin_kernel linear_2x2)) 2)
      = false
  end.
Proof.
  apply (linear_nf4_from_linear unit unit unit_rngs tt linear_2x2 None 2).
  split; reflexivity.
Defined.

Lemma linear_nf4_to_linear_after_from_linear_witness :
  exists packed absmax rows,
    single_quantize_and_pack_nf4 (data (lin_kernel linear_2x2)) 2
    = Ok (packed, absmax)
    /\ single_dequantize_nf4 packed absmax 2 = Ok rows
    /\ to_linear empty_Linear linear_nf4_2x2
       = Ok (let restored :=
               setattr
                 (empty_Linear (VInt (lin_in_features linear_2x2))
                    (VInt (lin_out_features linear_2x2))
                    (VBool (lin_use_bias linear_2x2))
                    (opt_dtype (lin_dtype linear_2x2))
                    (VDtype (lin_param_dtype linear_2x2))
                    (lin_precision linear_2x2) (VObject "kernel_init")
                    (VObject "bias_init") (lin_dot_general linear_2x2))
                 "kernel"
                 (VParam (VArray {| shape := [lin_in_features linear_2x2;
                                              lin_out_features linear_2x2];
                                    data := concat rows |})) in
             if lin_use_bias linear_2x2
             then setattr restored "bias" (VParam (lin_bias linear_2x2))
             else restored).
Proof.
  apply (linear_nf4_to_linear_after_from_linear unit unit unit_rngs tt
           empty_Linear linear_2x2 None 2 linear_nf4_2x2).
  - split; reflexivity.
  - vm_compute. reflexivity.
Defined.

Lemma linear_nf4_call_after_from_linear_witness :
  exists kernel,
    get_kernel linear_nf4_2x2 = Ok kernel
    /\ shape kernel = [lin_in_features linear_2x2; lin_out_features linear_2x2]
    /\ __call__ dtype_float32 no_cast dot_returns_kernel add_returns_first
         linear_nf4_2x2 bias_ones
       = (let bias := if lin_use_bias linear_2x2 then Some bias_ones else None in
          let dtype :=
            dtype_float32 (opt_dtype (lin_dtype linear_2x2)) bias_ones kernel
              bias in
          y <- dot_returns_kernel (lin_dot_general linear_2x2)
                 (no_cast bias_ones dtype) (no_cast kernel dtype)
                 (lin_precision linear_2x2) ;;
          match bias with
          | Some bias => add_returns_first y (no_cast bias dtype)
          | None => Ok y
          end).
Proof.
  apply (linear_nf4_call_after_from_linear unit unit unit_rngs tt dtype_float32
           no_cast dot_returns_kernel add_returns_first linear_2x2 None 2
           linear_nf4_2x2 bias_ones bias_ones).
  - split; reflexivity.
  - reflexivity.
  - vm_compute. reflexivity.
Defined.

End LinearNF4_instances.

(** ** [DbrxRouter]: what the routing guarantees *)

Section Router_top_k.
Import Py nnx modelling_dbrx_flax.
Local Open Scope R_scope.

Lemma better_le (a b : nat * R) :
  snd a <= snd (better a b) /\ snd b <= snd (better a b).
Proof. unfold better. destruct (Rlt_dec (snd a) (snd b)); cbn; lra. Qed.

(** [best] is a largest candidate. *)
Lemma best_max (cs : list (nat * R)) :
  forall c p, In p (c :: cs) -> snd p <= snd (best c cs).
Proof.
  unfold best. induction cs as [| a cs IH]; intros c p Hp.
  - destruct Hp as [<- | []]. cbn. lra.
  - cbn [fold_left]. destruct (better_le c a) as [Hc Ha].
    destruct Hp as [<- | [<- | Hp]].
    + apply Rle_trans with (snd (better c a)); [exact Hc |].
      apply IH. left. reflexivity.
    + apply Rle_trans with (snd (better c a)); [exact Ha |].
      apply IH. left. reflexivity.
    + apply IH. right. exact Hp.
Qed.

Lemma select_NoDup (k : nat) :
  forall cands, NoDup (map fst cands) -> NoDup (map fst (select k cands)).
Proof.
  induction k as [| k IH]; intros cands Hnd; [constructor |].
  destruct cands as [| c cs]; [constructor |].
  cbn [select map]. constructor.
  - intros Hin. apply in_map_iff in Hin as (p & Hp & Hin).
    apply select_In in Hin. apply filter_In in Hin as [_ Hne].
    rewrite Hp, Nat.eqb_refl in Hne. discriminate Hne.
  - apply IH. apply NoDup_map_filter. exact Hnd.
Qed.

(** The chosen candidates come in descending order. *)
Lemma select_descending (k : nat) :
  forall cands,
    StronglySorted (fun a b : nat * R => snd b <= snd a) (select k cands).
Proof.
  induction k as [| k IH]; intros cands; [constructor |].
  destruct cands as [| c cs]; [constructor |].
  cbn [select]. constructor; [apply IH |].
  apply Forall_forall. intros q Hq. apply select_In in Hq.
  apply filter_In in Hq as [Hq _]. apply best_max. exact Hq.
Qed.

(** A candidate that was not chosen is no larger than any chosen one. *)
Lemma select_largest (k : nat) :
  forall cands p q,
    In p cands -> ~ In (fst p) (map fst (select k cands)) ->
    In q (select k cands) -> snd p <= snd q.
Proof.
  induction k as [| k IH]; intros cands p q Hp Hnot Hq; [contradiction |].
  destruct cands as [| c cs]; [contradiction |].
  cbn [select map] in Hnot, Hq.
  destruct Hq as [<- | Hq]; [apply best_max; exact Hp |].
  apply (IH (filter (fun p0 => negb (fst p0 =? fst (best c cs))%nat) (c :: cs)));
    [| | exact Hq].
  - apply filter_In. split; [exact Hp |].
    destruct (Nat.eqb_spec (fst p) (fst (best c cs))) as [E | _]; [| reflexivity].
    exfalso. apply Hnot. left. symmetry. exact E.
  - intros Hin. apply Hnot. right. exact Hin.
Qed.

Lemma descending_values (l : list (nat * R)) :
  StronglySorted (fun a b : nat * R => snd b <= snd a) l ->
  StronglySorted (fun v v' => v' <= v) (map snd l).
Proof.
  induction 1 as [| p l _ IH Hall]; cbn; constructor; [exact IH |].
  apply Forall_map. exact Hall.
Qed.

Lemma NoDup_map_of_nat (l : list nat) : NoDup l -> NoDup (map Z.of_nat l).
Proof.
  induction 1 as [| a l Hnot _ IH]; cbn; constructor; [| exact IH].
  intros Hin. apply in_map_iff in Hin as (b & Hb & Hin).
  apply Nat2Z.inj in Hb. subst b. exact (Hnot Hin).
Qed.

(** [top_k] on an operand of at least [k] entries: [k] distinct positions
    of the operand, the values at these positions in descending order, and
    no larger value left out. *)
Lemma top_k_spec (operand : list R) (k : nat) :
  (k <= length operand)%nat ->
  exists values indices,
    top_k operand k = Ok (values, indices)
    /\ length indices = k
    /\ NoDup indices
    /\ Forall (fun i => (0 <= i < Z.of_nat (length operand))%Z) indices
    /\ values = map (fun i => nth (Z.to_nat i) operand 0) indices
    /\ StronglySorted (fun v v' => v' <= v) values
    /\ (forall i, (i < length operand)%nat -> ~ In (Z.of_nat i) indices ->
        Forall (fun v => nth i operand 0 <= v) values).
Proof.
  intros Hk. unfold top_k.
  destruct (Nat.ltb_spec (length operand) k) as [Hlt | _]; [lia |].
  set (cands := combine (seq 0 (length operand)) operand).
  assert (Hlen : length cands = length operand)
    by (unfold cands; rewrite length_combine, length_seq; lia).
  assert (Hnd : NoDup (map fst cands)).
  { unfold cands. rewrite map_fst_combine_same by (rewrite length_seq; reflexivity).
    apply seq_NoDup. }
  assert (Hin : forall p, In p (select k cands) ->
                  (fst p < length operand)%nat /\ snd p = nth (fst p) operand 0).
  { intros p Hp. apply in_combine_seq. apply select_In in Hp. exact Hp. }
  eexists _, _. split; [reflexivity |].
  split; [rewrite length_map, select_length by (try assumption; lia); reflexivity |].
  split.
  { rewrite <- (map_map fst Z.of_nat).
    apply NoDup_map_of_nat. apply select_NoDup. exact Hnd. }
  split.
  { apply Forall_map. apply Forall_forall. intros p Hp.
    destruct (Hin p Hp) as [Hr _]. lia. }
  split.
  { rewrite map_map. apply map_ext_in. intros p Hp.
    destruct (Hin p Hp) as [_ Hv]. rewrite Nat2Z.id. exact Hv. }
  split.
  { apply descending_values. apply select_descending. }
  intros i Hi Hnot. apply Forall_map. apply Forall_forall. intros q Hq.
  apply (select_largest k cands (i, nth i operand 0) q).
  - apply combine_seq_In. exact Hi.
  - intros Hin'. apply Hnot. cbn [fst] in Hin'.
    rewrite <- (map_map fst Z.of_nat). apply in_map. exact Hin'.
  - exact Hq.
Qed.

Lemma softmax_sum (logits : list R) : logits <> [] -> sum (softmax logits) = 1.
Proof.
  intros Hne. unfold softmax.
  set (x_max := fold_right Rmax (hd 0 logits) logits).
  set (unnormalized := map (fun x => exp (x - x_max)) logits).
  rewrite sum_map_div. apply Rdiv_diag.
  assert (0 < sum unnormalized); [| lra].
  apply sum_positive.
  - unfold unnormalized. destruct logits; [congruence | discriminate].
  - apply Forall_forall. intros u Hu. apply in_map_iff in Hu as (x & <- & _).
    apply exp_pos.
Qed.


Section Config.

Variable config : DbrxFFNConfig.

(** Routing the logits of one token: the weights are the softmax of the
    logits; the experts are [moe_top_k] distinct indices; the weights at
    these indices come in descending order and no expert left out has a
    larger weight; the top weights are the chosen weights, divided by their
    norm when normalisation is configured. *)
Lemma route_token_spec (logits : list R) :
  logits <> [] -> (moe_top_k config <= length logits)%nat ->
  exists r,
    route_token config logits = Ok r
    /\ (let weights := fst r in
        let top_weights := fst (snd r) in
        let top_experts := snd (snd r) in
        let chosen := map (fun e => nth (Z.to_nat e) weights 0) top_experts in
        weights = softmax logits
        /\ Forall (fun w => 0 < w) weights
        /\ sum weights = 1
        /\ length top_experts = moe_top_k config
        /\ NoDup top_experts
        /\ Forall (fun e => (0 <= e < Z.of_nat (length logits))%Z) top_experts
        /\ StronglySorted (fun v v' => v' <= v) chosen
        /\ (forall i, (i < length logits)%nat -> ~ In (Z.of_nat i) top_experts ->
            Forall (fun v => nth i weights 0 <= v) chosen)
        /\ top_weights
           = if truthy (moe_normalize_expert_weights config) then
               match moe_normalize_expert_weights config with
               | Some p => map (fun w => w / vector_norm (py_int p) chosen) chosen
               | None => chosen
               end
             else chosen).
Proof.
  intros Hne Hk. unfold route_token.
  destruct (top_k_spec (softmax logits) (moe_top_k config))
    as (values & indices & Htop & Hlen & Hnd & Hrange & Hval & Hsort & Hmax);
    [rewrite softmax_length; exact Hk |].
  rewrite softmax_length in Hrange, Hmax.
  rewrite Htop. cbn [bind]. eexists. split; [reflexivity |]. cbn [fst snd].
  rewrite <- Hval.
  repeat split; try assumption.
  - apply softmax_positive. exact Hne.
  - apply softmax_sum. exact Hne.
Qed.


Lemma Forall2_rows_length {A B C} (P : B -> C -> Prop) (x : list (list A))
    (y : list (list B)) (z : list (list C)) :
  Forall2 (fun row row' => length row' = length row) x y ->
  Forall2 (Forall2 P) y z ->
  Forall2 (fun row row' => length row' = length row) x z.
Proof.
  intros Hxy. revert z. induction Hxy as [| a b x y Hab _ IH]; intros z Hyz;
    inversion Hyz as [| ? c ? z' Hbc Hyz']; subst; constructor.
  - rewrite <- (Forall2_length Hbc). exact Hab.
  - apply IH. exact Hyz'.
Qed.

Lemma Forall2_Forall_right {A B} (T : B -> Prop) (x : list (list A))
    (y : list (list B)) :
  Forall2 (Forall2 (fun _ b => T b)) x y -> Forall (Forall T) y.
Proof.
  induction 1 as [| a b x y Hab _ IH]; constructor; [| exact IH].
  exact (Forall2_right T a b Hab).
Qed.

Section Call.

Variable layer : list R -> list R.
Hypothesis layer_experts :
  forall v, length (layer v) = Z.to_nat (moe_num_experts config).
Hypothesis top_k_experts :
  (moe_top_k config <= Z.to_nat (moe_num_experts config))%nat.
Hypothesis some_experts : (0 < moe_num_experts config)%Z.

(** X11. For a router without the override, with one logit per expert and
    [moe_top_k] within the number of experts, every call that applies no
    jitter returns, and for
    every token: the weights are positive and sum to one; the experts are
    [moe_top_k] distinct indices of experts; the weights of the chosen
    experts come in descending order and no expert left out has a larger
    weight; the top weights are the weights of the chosen experts, divided
    by their norm when [moe_normalize_expert_weights] is set. *)
Theorem router_top_k_invariants (normal : nat -> nat -> nat -> R)
    (x : tensor3 R) (deterministic : bool) :
  uniform_expert_assignment config = false ->
  no_jitter config deterministic ->
  exists routed,
    DbrxRouter_call config layer normal x deterministic
    = Ok (map (map fst) routed,
          map (map (fun r => fst (snd r))) routed,
          map (map (fun r => snd (snd r))) routed)
    /\ Forall2 (fun (row : list (list R)) rrow => length rrow = length row)
         x routed
    /\ Forall
         (Forall
            (fun r : list R * (list R * list Z) =>
               let weights := fst r in
               let top_weights := fst (snd r) in
               let top_experts := snd (snd r) in
               let chosen :=
                 map (fun e => nth (Z.to_nat e) weights 0) top_experts in
               length weights = Z.to_nat (moe_num_experts config)
               /\ Forall (fun w => 0 < w) weights
               /\ sum weights = 1
               /\ length top_experts = moe_top_k config
               /\ NoDup top_experts
               /\ Forall (fun e => (0 <= e < moe_num_experts config)%Z)
                    top_experts
               /\ StronglySorted (fun v v' => v' <= v) chosen
               /\ (forall i, (Z.of_nat i < moe_num_experts config)%Z ->
                   ~ In (Z.of_nat i) top_experts ->
                   Forall (fun v => nth i weights 0 <= v) chosen)
               /\ top_weights
                  = if truthy (moe_normalize_expert_weights config) then
                      match moe_normalize_expert_weights config with
                      | Some p =>
                          map (fun w => w / vector_norm (py_int p) chosen) chosen
                      | None => chosen
                      end
                    else chosen))
         routed.
Proof.
  intros Huniform Hnj.
  destruct (router_logits_ok config layer layer_experts normal x deterministic
              Hnj) as (logits & Hlogits & Hshape).
  destruct (route_tokens config
              (fun _ r =>
                 let weights := fst r in
                 let top_weights := fst (snd r) in
                 let top_experts := snd (snd r) in
                 let chosen :=
                   map (fun e => nth (Z.to_nat e) weights 0) top_experts in
                 length weights = Z.to_nat (moe_num_experts config)
                 /\ Forall (fun w => 0 < w) weights
                 /\ sum weights = 1
                 /\ length top_experts = moe_top_k config
                 /\ NoDup top_experts
                 /\ Forall (fun e => (0 <= e < moe_num_experts config)%Z)
                      top_experts
                 /\ StronglySorted (fun v v' => v' <= v) chosen
                 /\ (forall i, (Z.of_nat i < moe_num_experts config)%Z ->
                     ~ In (Z.of_nat i) top_experts ->
                     Forall (fun v => nth i weights 0 <= v) chosen)
                 /\ top_weights
                    = if truthy (moe_normalize_expert_weights config) then
                        match moe_normalize_expert_weights config with
                        | Some p =>
                            map (fun w => w / vector_norm (py_int p) chosen)
                                chosen
                        | None => chosen
                        end
                      else chosen)
              logits Huniform) as (routed & Hroute & HF).
  { intros row lg Hrow Hlg.
    assert (Hlen : length lg = Z.to_nat (moe_num_experts config)).
    { pose proof (Forall2_rows_right _ _ x logits Hshape) as Hall.
      exact (proj1 (Forall_forall _ _)
               (proj1 (Forall_forall _ _) Hall row Hrow) lg Hlg). }
    destruct (route_token_spec lg) as (r & Hr & Hspec).
    - intros ->. cbn in Hlen. lia.
    - rewrite Hlen. exact top_k_experts.
    - exists r. split; [exact Hr |]. cbv zeta in Hspec |- *.
      destruct Hspec as (Hw & Hpos & Hsum & Hk & Hnd & Hrange & Hsort & Hmax & Htw).
      rewrite Hlen in Hrange, Hmax.
      repeat split; try assumption.
      + rewrite Hw, softmax_length. exact Hlen.
      + eapply Forall_impl; [| exact Hrange]. intros e He. cbv beta in He. lia.
      + intros i Hi. apply Hmax. lia. }
  exists routed. unfold DbrxRouter_call. rewrite Hlogits. cbn [bind].
  split; [exact Hroute |]. split.
  - eapply Forall2_rows_length; [| exact HF].
    eapply Forall2_impl; [| exact Hshape]. intros a b [H _]. exact H.
  - eapply Forall2_Forall_right. exact HF.
Qed.

End Call.

End Config.


Section Override.

(** The per-token routing reads [moe_top_k] and
    [moe_normalize_expert_weights] only. *)
Lemma route_token_fields (config config' : DbrxFFNConfig) (logits : list R) :
  moe_top_k config' = moe_top_k config ->
  moe_normalize_expert_weights config' = moe_normalize_expert_weights config ->
  route_token config' logits = route_token config logits.
Proof. intros Hk Hn. unfold route_token. rewrite Hk, Hn. reflexivity. Qed.

(** X12. The override replaces the indices only: the weights and the top
    weights returned with [uniform_expert_assignment] are those the router
    returns without it, so the top weights handed to the experts are those
    of the experts [jax.lax.top_k] chose, not of the experts assigned. *)
Theorem uniform_assignment_keeps_weights (config config' : DbrxFFNConfig)
    (layer : list R -> list R) (normal : nat -> nat -> nat -> R) (x : tensor3 R)
    (deterministic : bool) (weights top_weights : tensor3 R)
    (top_experts : tensor3 Z) :
  uniform_expert_assignment config = true ->
  uniform_expert_assignment config' = false ->
  moe_top_k config' = moe_top_k config ->
  moe_jitter_eps config' = moe_jitter_eps config ->
  moe_normalize_expert_weights config' = moe_normalize_expert_weights config ->
  DbrxRouter_call config layer normal x deterministic
  = Ok (weights, top_weights, top_experts) ->
  exists top_experts',
    DbrxRouter_call config' layer normal x deterministic
    = Ok (weights, top_weights, top_experts').
Proof.
  intros Hu Hu' Hk He Hn. unfold DbrxRouter_call, router_logits, jitter.
  rewrite He.
  destruct (_ <- (if negb deterministic && is_some (moe_jitter_eps config) then _
                  else _) ;; _) as [logits | e]; cbn [bind]; [| discriminate].
  unfold route.
  replace (map (fun row => all_rows (map (route_token config') row)) logits)
    with (map (fun row => all_rows (map (route_token config) row)) logits).
  2:{ apply map_ext. intros row. f_equal. apply map_ext. intros lg.
      symmetry. apply route_token_fields; assumption. }
  destruct (all_rows _) as [routed | e]; cbn [bind]; [| discriminate].
  rewrite Hu, Hu'.
  destruct (uniform_assignment config _) as [assigned | e]; cbn [bind];
    [| discriminate].
  intros H. injection H as <- <- _. eexists. reflexivity.
Qed.

End Override.

Section Errors.

Lemma all_rows_raise {A B} (f : A -> result B) (l : list A) (e : exn) :
  all_rows (map f l) = Raise e -> exists a, In a l /\ f a = Raise e.
Proof.
  induction l as [| a l IH]; cbn; [discriminate |].
  destruct (f a) as [b | e'] eqn:Hfa; cbn [bind].
  - destruct (all_rows (map f l)) as [bs | e'']; cbn [bind]; [discriminate |].
    intros H. injection H as ->. destruct (IH eq_refl) as (a' & Hin & Ha').
    exists a'. split; [right; exact Hin | exact Ha'].
  - intros H. injection H as ->. exists a. split; [left; reflexivity | exact Hfa].
Qed.

Lemma route_token_raise (config : DbrxFFNConfig) (logits : list R) (e : exn) :
  route_token config logits = Raise e ->
  e = ValueError "k argument to top_k must be no larger than minor dimension"
  /\ (length logits < moe_top_k config)%nat.
Proof.
  unfold route_token, top_k. rewrite softmax_length.
  destruct (Nat.ltb_spec (length logits) (moe_top_k config)) as [Hlt | _];
    cbn [bind]; [| discriminate].
  intros H. injection H as <-. split; [reflexivity | exact Hlt].
Qed.

Lemma jitter_or_not (config : DbrxFFNConfig) (deterministic : bool) :
  (deterministic = false /\ exists eps, moe_jitter_eps config = Some eps)
  \/ no_jitter config deterministic.
Proof.
  destruct deterministic; [right; left; reflexivity |].
  destruct (moe_jitter_eps config) as [eps |] eqn:He.
  - left. split; [reflexivity | exists eps; reflexivity].
  - right. right. exact He.
Qed.

(** X13. The exceptions of [DbrxRouter.__call__]: the [AttributeError] of
    [self.make_rng] in a call that applies jitter, and otherwise the
    [ValueError] of [jax.lax.top_k] and the [TypeError] of the reshape of
    the override; the [RuntimeError] of [jitter] is never raised, since
    [jitter] is called only when [moe_jitter_eps] is set. *)
Theorem router_exceptions (config : DbrxFFNConfig) (layer : list R -> list R)
    (normal : nat -> nat -> nat -> R) (x : tensor3 R) (deterministic : bool)
    (e : exn) :
  DbrxRouter_call config layer normal x deterministic = Raise e ->
  (e = AttributeError "'DbrxRouter' object has no attribute 'make_rng'"
   /\ deterministic = false /\ moe_jitter_eps config <> None)
  \/ (no_jitter config deterministic
      /\ (e = ValueError "k argument to top_k must be no larger than minor dimension"
          \/ (e = TypeError "cannot reshape array"
              /\ uniform_expert_assignment config = true))).
Proof.
  unfold DbrxRouter_call.
  destruct (jitter_or_not config deterministic) as [(-> & eps & He) | Hnj].
  - rewrite (router_logits_jitter config layer normal x eps He). cbn [bind].
    intros H. injection H as <-. left.
    split; [reflexivity |]. split; [reflexivity |]. rewrite He. discriminate.
  - rewrite (router_logits_no_jitter config layer normal x deterministic Hnj).
    cbn [bind]. unfold route. intros H. right. split; [exact Hnj |]. revert H.
    destruct (all_rows (map (fun row => all_rows (map (route_token config) row)) _))
      as [routed | e'] eqn:Hrouted; cbn [bind].
    + destruct (uniform_expert_assignment config); cbn [bind]; [| discriminate].
      unfold uniform_assignment.
      destruct (shape3 _) as [[nb ns] nk].
      destruct (_ =? _)%nat; cbn [bind]; [discriminate |].
      intros H. injection H as <-. right. split; reflexivity.
    + intros H. injection H as ->.
      apply all_rows_raise in Hrouted as (row & _ & Hrow).
      apply all_rows_raise in Hrow as (lg & _ & Hlg).
      left. exact (proj1 (route_token_raise config lg e Hlg)).
Qed.

(** X14. With more slots than experts no call on at least one token
    returns: a call that applies jitter raises the [AttributeError] of
    [self.make_rng], every other call the [ValueError] of [jax.lax.top_k],
    whatever the normalisation and override settings. *)
Theorem router_top_k_exceeds_experts (config : DbrxFFNConfig)
    (layer : list R -> list R) (normal : nat -> nat -> nat -> R) (x : tensor3 R)
    (deterministic : bool) :
  (forall v, length (layer v) = Z.to_nat (moe_num_experts config)) ->
  (Z.to_nat (moe_num_experts config) < moe_top_k config)%nat ->
  Exists (fun row => row <> []) x ->
  DbrxRouter_call config layer normal x deterministic
  = Raise (if negb deterministic && is_some (moe_jitter_eps config)
           then AttributeError "'DbrxRouter' object has no attribute 'make_rng'"
           else ValueError "k argument to top_k must be no larger than minor dimension").
Proof.
  intros Hlayer Hk Hx.
  destruct (jitter_or_not config deterministic) as [(-> & eps & He) | Hnj].
  { unfold DbrxRouter_call.
    rewrite (router_logits_jitter config layer normal x eps He), He.
    reflexivity. }
  replace (negb deterministic && is_some (moe_jitter_eps config)) with false
    by (destruct Hnj as [-> | ->]; [reflexivity | rewrite andb_false_r; reflexivity]).
  destruct (router_logits_ok config layer Hlayer normal x deterministic Hnj)
    as (logits & Hlogits & Hshape).
  unfold DbrxRouter_call. rewrite Hlogits. cbn [bind]. unfold route.
  assert (Htoken : forall lg, length lg = Z.to_nat (moe_num_experts config) ->
            route_token config lg
            = Raise (ValueError "k argument to top_k must be no larger than minor dimension")).
  { intros lg Hlg. unfold route_token, top_k. rewrite softmax_length, Hlg.
    destruct (Nat.ltb_spec (Z.to_nat (moe_num_experts config)) (moe_top_k config));
      [reflexivity | lia]. }
  assert (Hrow : forall lrow : list (list R),
            Forall (fun lg => length lg = Z.to_nat (moe_num_experts config)) lrow ->
            all_rows (map (route_token config) lrow)
            = match lrow with
              | [] => Ok []
              | _ :: _ =>
                  Raise (ValueError "k argument to top_k must be no larger than minor dimension")
              end).
  { intros [| lg lrow] Hall; [reflexivity |]. cbn [map all_rows].
    inversion Hall as [| ? ? Hlg _]; subst. rewrite (Htoken lg Hlg). reflexivity. }
  enough (H : all_rows (map (fun row => all_rows (map (route_token config) row))
                          logits)
              = Raise (ValueError "k argument to top_k must be no larger than minor dimension"))
    by (rewrite H; reflexivity).
  clear Hlogits. induction Hshape as [| row lrow x logits [Hlen Hall] _ IH].
  - inversion Hx.
  - cbn [map all_rows]. rewrite (Hrow lrow Hall).
    destruct lrow as [| lg lrow]; [| reflexivity].
    cbn [bind]. rewrite IH; [reflexivity |].
    inversion Hx as [? ? Hne | ? ? Hx']; subst; [| exact Hx'].
    destruct row; [congruence | discriminate Hlen].
Qed.

End Errors.

End Router_top_k.

Section Router_more_instances.
Import Py nnx modelling_dbrx_flax instances.
Local Open Scope R_scope.

Lemma router_top_k_invariants_witness :
  exists routed,
    DbrxRouter_call router_l1 (flat_layer 2) no_noise two_tokens true
    = Ok (map (map fst) routed,
          map (map (fun r => fst (snd r))) routed,
          map (map (fun r => snd (snd r))) routed)
    /\ Forall2 (fun (row : list (list R)) rrow => length rrow = length row)
         two_tokens routed
    /\ Forall
         (Forall
            (fun r : list R * (list R * list Z) =>
               length (fst r) = 2%nat
               /\ sum (fst r) = 1
               /\ length (snd (snd r)) = 2%nat
               /\ NoDup (snd (snd r))))
         routed.
Proof.
  destruct (router_top_k_invariants router_l1 (flat_layer 2)
              ltac:(intros v; reflexivity) ltac:(cbn; lia) ltac:(cbn; lia)
              no_noise two_tokens true eq_refl (or_introl eq_refl))
    as (routed & Hcall & Hshape & Hall).
  exists routed. split; [exact Hcall |]. split; [exact Hshape |].
  eapply Forall_impl; [| exact Hall]. intros row Hrow.
  eapply Forall_impl; [| exact Hrow]. intros r Hr. cbv zeta in Hr.
  destruct Hr as (Hlen & _ & Hsum & Hk & Hnd & _).
  repeat split; assumption.
Defined.

Lemma uniform_assignment_keeps_weights_witness :
  exists weights top_weights top_experts top_experts',
    DbrxRouter_call router_uniform (flat_layer 4) no_noise two_tokens true
    = Ok (weights, top_weights, top_experts)
    /\ DbrxRouter_call router_top_2_of_4 (flat_layer 4) no_noise two_tokens true
       = Ok (weights, top_weights, top_experts').
Proof.
  destruct (router_uniform_indices router_uniform (flat_layer 4)
              ltac:(intros v; reflexivity) ltac:(cbn; lia)
              no_noise two_tokens true 2 eq_refl (or_introl eq_refl)
              ltac:(repeat constructor) ltac:(cbn; lia))
    as (weights & top_weights & top_experts & Hcall & _).
  destruct (uniform_assignment_keeps_weights router_uniform router_top_2_of_4
              (flat_layer 4) no_noise two_tokens true weights top_weights
              top_experts eq_refl eq_refl eq_refl eq_refl eq_refl Hcall)
    as (top_experts' & Hcall').
  exists weights, top_weights, top_experts, top_experts'.
  split; [exact Hcall | exact Hcall'].
Defined.

Lemma router_exceptions_witness :
  (AttributeError "'DbrxRouter' object has no attribute 'make_rng'"
   = AttributeError "'DbrxRouter' object has no attribute 'make_rng'"
   /\ false = false /\ moe_jitter_eps router_jitter <> None)
  \/ (no_jitter router_jitter false
      /\ (AttributeError "'DbrxRouter' object has no attribute 'make_rng'"
          = ValueError "k argument to top_k must be no larger than minor dimension"
          \/ (AttributeError "'DbrxRouter' object has no attribute 'make_rng'"
              = TypeError "cannot reshape array"
              /\ uniform_expert_assignment router_jitter = true))).
Proof.
  apply (router_exceptions router_jitter (flat_layer 2) no_noise one_token false).
  reflexivity.
Defined.

Lemma router_top_k_exceeds_experts_witness :
  DbrxRouter_call router_3_of_2 (flat_layer 2) no_noise one_token true
  = Raise (ValueError "k argument to top_k must be no larger than minor dimension").
Proof.
  apply (router_top_k_exceeds_experts router_3_of_2 (flat_layer 2) no_noise
           one_token true).
  - intros v. reflexivity.
  - cbn. lia.
  - constructor. discriminate.
Defined.

End Router_more_instances.

(** ** [DbrxExperts] and [DbrxFFN]: the mixture of experts *)

Section Experts.
Import Py nnx modelling_dbrx_flax.
Local Open Scope R_scope.

Variable config : DbrxFFNConfig.
Variables ffn_hidden_size d_model : nat.
Variables w1 v1 w2 : list (list R).
Variable activation_fn : R -> R.

Lemma zip_with_length {A B C} (f : A -> B -> C) (l : list A) :
  forall m, length (zip_with f l m) = Nat.min (length l) (length m).
Proof.
  induction l as [| a l IH]; intros [| b m]; cbn; try reflexivity.
  rewrite IH. reflexivity.
Qed.

Lemma zip_with_nth {A B C} (f : A -> B -> C) (dA : A) (dB : B) (dC : C)
    (l : list A) :
  forall m i, (i < length l)%nat -> (i < length m)%nat ->
    nth i (zip_with f l m) dC = f (nth i l dA) (nth i m dB).
Proof.
  induction l as [| a l IH]; intros [| b m] [| i] Hl Hm; cbn in *; try lia;
    [reflexivity |].
  apply IH; lia.
Qed.

Lemma sum_app (l m : list R) : sum (l ++ m) = sum l + sum m.
Proof. unfold sum. induction l as [| a l IH]; cbn; [ring | rewrite IH; ring]. Qed.

Lemma sum_map_seq_S (f : nat -> R) (n : nat) :
  sum (map f (seq 0 (S n))) = sum (map f (seq 0 n)) + f n.
Proof. rewrite seq_S, map_app, sum_app. cbn. unfold sum. cbn. ring. Qed.

(** Selecting one term of a sum over [0..n-1]. *)
Lemma sum_select (G : nat -> R) (e : Z) (n : nat) :
  (0 <= e < Z.of_nat n)%Z ->
  sum (map (fun i => (if (Z.of_nat i =? e)%Z then 1 else 0) * G i) (seq 0 n))
  = G (Z.to_nat e).
Proof.
  induction n as [| n IH]; intros He; [lia |].
  rewrite sum_map_seq_S.
  destruct (Z.eqb_spec (Z.of_nat n) e) as [E | E].
  - subst e. rewrite Nat2Z.id.
    assert (H0 : sum (map (fun i => (if (Z.of_nat i =? Z.of_nat n)%Z then 1 else 0)
                                    * G i) (seq 0 n)) = 0).
    { clear. assert (H : forall m, (m <= n)%nat ->
                sum (map (fun i => (if (Z.of_nat i =? Z.of_nat n)%Z then 1 else 0)
                                   * G i) (seq 0 m)) = 0).
      { induction m as [| m IHm]; intros Hm; [reflexivity |].
        rewrite sum_map_seq_S, IHm by lia.
        destruct (Z.eqb_spec (Z.of_nat m) (Z.of_nat n)); [lia | ring]. }
      apply H. lia. }
    rewrite H0. ring.
  - rewrite IH by lia. ring.
Qed.

(** The dense sum over the experts is the sparse sum over the slots. *)
Lemma dense_sum_is_sparse (G : nat -> R) (n : nat) (es : list Z) :
  forall ws : list R,
    Forall (fun e => (0 <= e < Z.of_nat n)%Z) es ->
    sum (map (fun i => expert_weight (Z.of_nat i) es ws * G i) (seq 0 n))
    = sum (zip_with (fun e w => w * G (Z.to_nat e)) es ws).
Proof.
  induction es as [| e es IH]; intros ws Hes.
  - unfold expert_weight. cbn.
    clear. induction n as [| n IHn]; [reflexivity |].
    rewrite sum_map_seq_S, IHn. unfold sum. cbn. ring.
  - destruct ws as [| w ws].
    + unfold expert_weight. cbn.
      clear. induction n as [| n IHn]; [reflexivity |].
      rewrite sum_map_seq_S, IHn. unfold sum. cbn. ring.
    + inversion Hes as [| ? ? He Hes']; subst.
      cbn [zip_with]. change (sum (?a :: ?l)) with (a + sum l).
      rewrite <- (IH ws Hes'), <- (sum_select G e n He).
      clear. induction n as [| n IHn]; [unfold sum; cbn; ring |].
      rewrite !sum_map_seq_S. 
      replace (expert_weight (Z.of_nat n) (e :: es) (w :: ws))
        with ((if (Z.of_nat n =? e)%Z then 1 else 0) * w
              + expert_weight (Z.of_nat n) es ws) by reflexivity.
      lra.
Qed.


Lemma GLU_token_length (token : list R) (expert_idx : nat) :
  length (DbrxExpertGLU_token ffn_hidden_size d_model w1 v1 w2 activation_fn
            token expert_idx) = d_model.
Proof.
  unfold DbrxExpertGLU_token, matmul. rewrite length_map, length_seq. reflexivity.
Qed.

Section Fold.

Variables x top_weights : tensor3 R.
Variable top_experts : tensor3 Z.

Hypothesis experts_rows : length top_experts = length x.
Hypothesis weights_rows : length top_weights = length x.
Hypothesis experts_tokens :
  forall b, (b < length x)%nat ->
    length (nth b top_experts []) = length (nth b x []).
Hypothesis weights_tokens :
  forall b, (b < length x)%nat ->
    length (nth b top_weights []) = length (nth b x []).
Hypothesis token_features :
  forall b s, (b < length x)%nat -> (s < length (nth b x []))%nat ->
    length (nth s (nth b x []) []) = d_model.

(** The state of the loop of [DbrxExperts.__call__] after [n] experts. *)
Lemma experts_loop (n : nat) :
  forall final,
    final
    = fold_left
        (fun final_hidden_state index =>
           add3 final_hidden_state
             (scale_tokens
                (zip_with (zip_with (expert_weight (Z.of_nat index)))
                   top_experts top_weights)
                (DbrxExpertGLU_call ffn_hidden_size d_model w1 v1 w2
                   activation_fn x index)))
        (seq 0 n) (zeros_like x) ->
    length final = length x
    /\ forall b, (b < length x)%nat ->
         length (nth b final []) = length (nth b x [])
         /\ forall s, (s < length (nth b x []))%nat ->
              length (nth s (nth b final []) []) = d_model
              /\ forall d, (d < d_model)%nat ->
                   nth d (nth s (nth b final []) []) 0
                   = sum (map (fun i =>
                                 expert_weight (Z.of_nat i)
                                   (nth s (nth b top_experts []) [])
                                   (nth s (nth b top_weights []) [])
                                 * nth d (DbrxExpertGLU_token ffn_hidden_size
                                            d_model w1 v1 w2 activation_fn
                                            (nth s (nth b x []) []) i) 0)
                              (seq 0 n)).
Proof.
  induction n as [| n IH]; intros final ->.
  - cbn [seq fold_left]. unfold zeros_like, map3.
    split; [apply length_map |]. intros b Hb.
    rewrite (nth_map_in_range _ x b [] []) by exact Hb.
    split; [apply length_map |]. intros s Hs.
    rewrite (nth_map_in_range _ _ s [] []) by exact Hs.
    split; [rewrite length_map; apply token_features; assumption |].
    intros d Hd.
    rewrite (nth_map_in_range _ _ d 0 0)
      by (rewrite token_features by assumption; exact Hd).
    reflexivity.
  - rewrite seq_S, fold_left_app. cbn [fold_left Nat.add].
    match goal with
    | |- context [add3 ?acc _] => destruct (IH acc eq_refl) as [Hlen Hrows];
                                  set (prev := acc) in *
    end.
    unfold add3, scale_tokens, DbrxExpertGLU_call.
    split.
    { rewrite !zip_with_length, length_map, Hlen, experts_rows, weights_rows.
      lia. }
    intros b Hb. destruct (Hrows b Hb) as [Hrow Htoks].
    rewrite (zip_with_nth _ [] [] []);
      [| lia
       | rewrite !zip_with_length, length_map, experts_rows, weights_rows; lia].
    rewrite (zip_with_nth _ [] [] []);
      [| rewrite zip_with_length, experts_rows, weights_rows; lia
       | rewrite length_map; lia].
    rewrite (zip_with_nth _ [] [] []) by lia.
    rewrite (nth_map_in_range _ x b [] []) by exact Hb.
    split.
    { rewrite !zip_with_length, length_map, Hrow, experts_tokens,
        weights_tokens by exact Hb. lia. }
    intros s Hs. destruct (Htoks s Hs) as [Htok Hentries].
    rewrite (zip_with_nth _ [] [] []);
      [| lia
       | rewrite !zip_with_length, length_map, experts_tokens, weights_tokens
           by exact Hb; lia].
    rewrite (zip_with_nth _ 0 [] []);
      [| rewrite zip_with_length, experts_tokens, weights_tokens by exact Hb; lia
       | rewrite length_map; lia].
    rewrite (zip_with_nth _ [] [] 0)
      by (rewrite ?experts_tokens, ?weights_tokens by exact Hb; lia).
    rewrite (nth_map_in_range _ _ s [] []) by exact Hs.
    split.
    { rewrite zip_with_length, length_map, Htok, GLU_token_length. lia. }
    intros d Hd.
    rewrite (zip_with_nth _ 0 0 0);
      [| lia | rewrite length_map, GLU_token_length; lia].
    rewrite (nth_map_in_range _ _ d 0 0) by (rewrite GLU_token_length; exact Hd).
    rewrite (Hentries d Hd), map_app, sum_app. unfold sum at 3. cbn. ring.
Qed.

End Fold.


(** X15. The loop of [DbrxExperts.__call__] runs every expert on every
    token, and what it returns is the sparse mixture: for index arrays of
    the shape of the tokens, with as many top weights as indices per token
    and indices of experts, entry [d] of the output for a token is the sum
    over its slots of the slot's top weight times entry [d] of the output
    of the slot's expert on that token.  The [weights] argument is not
    used. *)
Theorem experts_dense_loop_is_sparse_sum (x weights top_weights : tensor3 R)
    (top_experts : tensor3 Z) :
  Forall2 (fun (row : list (list R)) erow => length erow = length row)
    x top_experts ->
  Forall2 (Forall2 (fun (es : list Z) (ws : list R) => length ws = length es))
    top_experts top_weights ->
  Forall (Forall (fun token => length token = d_model)) x ->
  Forall (Forall (Forall (fun e => (0 <= e < moe_num_experts config)%Z)))
    top_experts ->
  let out :=
    DbrxExperts_call config ffn_hidden_size d_model w1 v1 w2 activation_fn
      x weights top_weights top_experts in
  length out = length x
  /\ forall b s,
       (b < length x)%nat -> (s < length (nth b x []))%nat ->
       length (nth b out []) = length (nth b x [])
       /\ length (nth s (nth b out []) []) = d_model
       /\ forall d, (d < d_model)%nat ->
            nth d (nth s (nth b out []) []) 0
            = sum (zip_with
                     (fun e w =>
                        w * nth d (DbrxExpertGLU_token ffn_hidden_size d_model
                                     w1 v1 w2 activation_fn
                                     (nth s (nth b x []) []) (Z.to_nat e)) 0)
                     (nth s (nth b top_experts []) [])
                     (nth s (nth b top_weights []) [])).
Proof.
  intros Hxe Hew Hx Hrange out.
  assert (Hlen_e : length top_experts = length x)
    by (symmetry; exact (Forall2_length Hxe)).
  assert (Hlen_w : length top_weights = length x)
    by (rewrite <- Hlen_e; symmetry; exact (Forall2_length Hew)).
  destruct (experts_loop x top_weights top_experts) with
    (n := Z.to_nat (moe_num_experts config)) (final := out) as [Hout Hfinal].
  - exact Hlen_e.
  - exact Hlen_w.
  - intros b Hb. exact (Forall2_nth _ x top_experts [] [] Hxe b Hb).
  - intros b Hb.
    rewrite <- (Forall2_nth _ x top_experts [] [] Hxe b Hb).
    symmetry.
    apply (Forall2_length
             (Forall2_nth _ top_experts top_weights [] [] Hew b ltac:(lia))).
  - intros b s Hb Hs.
    pose proof (proj1 (Forall_forall _ _) Hx (nth b x []) (nth_In x [] Hb)) as Hr.
    exact (proj1 (Forall_forall _ _) Hr _ (nth_In _ [] Hs)).
  - reflexivity.
  - split; [exact Hout |]. intros b s Hb Hs.
    destruct (Hfinal b Hb) as [Hrow Htoks]. destruct (Htoks s Hs) as [Htok Hentries].
    split; [exact Hrow |]. split; [exact Htok |].
    intros d Hd. rewrite (Hentries d Hd).
    apply dense_sum_is_sparse.
    assert (Hb' : (b < length top_experts)%nat) by lia.
    pose proof (proj1 (Forall_forall _ _) Hrange _ (nth_In top_experts [] Hb'))
      as Hr.
    assert (Hs' : (s < length (nth b top_experts []))%nat)
      by (rewrite (Forall2_nth _ x top_experts [] [] Hxe b Hb); exact Hs).
    pose proof (proj1 (Forall_forall _ _) Hr _ (nth_In _ [] Hs')) as He.
    eapply Forall_impl; [| exact He]. intros e H. cbv beta in H. lia.
Qed.





Variable layer : list R -> list R.


End Experts.

Section Experts_instances.
Import Py nnx modelling_dbrx_flax instances.
Local Open Scope R_scope.

Lemma experts_dense_loop_is_sparse_sum_witness :
  let out :=
    DbrxExperts_call router_l1 1 1 expert_ones expert_ones expert_ones
      identity_activation one_token one_token half_weights both_experts in
  length out = length one_token
  /\ forall b s,
       (b < length one_token)%nat -> (s < length (nth b one_token []))%nat ->
       length (nth b out []) = length (nth b one_token [])
       /\ length (nth s (nth b out []) []) = 1%nat
       /\ forall d, (d < 1)%nat ->
            nth d (nth s (nth b out []) []) 0
            = sum (zip_with
                     (fun e w =>
                        w * nth d (DbrxExpertGLU_token 1 1 expert_ones
                                     expert_ones expert_ones identity_activation
                                     (nth s (nth b one_token []) [])
                                     (Z.to_nat e)) 0)
                     (nth s (nth b both_experts []) [])
                     (nth s (nth b half_weights []) [])).
Proof.
  apply (experts_dense_loop_is_sparse_sum router_l1 1 1 expert_ones expert_ones
           expert_ones identity_activation one_token one_token half_weights
           both_experts).
  - repeat constructor.
  - repeat constructor.
  - repeat constructor.
  - repeat constructor; cbn; lia.
Defined.



End Experts_instances.

(** ** Mistral: positions, collected states and pooled scores *)

Section Mistral_positions.
Import Py nnx modeling_mistral_flax.
Local Open Scope Z_scope.

Lemma int32_small (z : Z) : -2147483648 <= z < 2147483648 -> int32 z = z.
Proof. intros H. unfold int32. rewrite Z.mod_small; lia. Qed.

(** The running sum stays where it is over masked positions. *)
Lemma cumsum_from_zeros (p : nat) (acc : Z) (rest : list Z) :
  -2147483648 <= acc < 2147483648 ->
  cumsum_from acc (repeat 0 p ++ rest) = repeat acc p ++ cumsum_from acc rest.
Proof.
  intros Hacc. induction p as [| p IH]; [reflexivity |].
  cbn [repeat app cumsum_from]. rewrite Z.add_0_r, (int32_small acc Hacc), IH.
  reflexivity.
Qed.

(** Over [n] attended positions it counts up. *)
Lemma cumsum_from_ones (n : nat) :
  forall (acc : Z) (rest : list Z),
    -2147483648 <= acc -> acc + Z.of_nat n < 2147483648 ->
    cumsum_from acc (repeat 1 n ++ rest)
    = map (fun i => acc + 1 + Z.of_nat i) (seq 0 n)
      ++ cumsum_from (acc + Z.of_nat n) rest.
Proof.
  induction n as [| n IH]; intros acc rest Hlo Hhi.
  - cbn. rewrite Z.add_0_r. reflexivity.
  - cbn [repeat app cumsum_from seq map].
    rewrite (int32_small (acc + 1)) by lia.
    rewrite IH by lia. rewrite <- seq_shift, map_map.
    replace (acc + 1 + Z.of_nat n) with (acc + Z.of_nat (S n)) by lia.
    rewrite Z.add_0_r. f_equal. f_equal. apply map_ext. intros i. lia.
Qed.

Lemma map_repeat {A B} (f : A -> B) (a : A) (n : nat) :
  map f (repeat a n) = repeat (f a) n.
Proof. induction n as [| n IH]; cbn; [| rewrite IH]; reflexivity. Qed.

(** X18. The position ids computed when none are given: with no mask
    either, every row counts 0, 1, ..., L-1; under a left-padded mask the
    padding positions get 0 and the tokens count from 0; under a
    right-padded mask the padding positions repeat the position of the last
    token.  Rows are shorter than 2^31. *)
Theorem default_position_ids (batch_size padding tokens : nat) :
  Z.of_nat (padding + tokens) < 2147483648 ->
  MistralModel_positions batch_size tokens None None
  = (repeat (repeat 1 tokens) batch_size,
     repeat (map Z.of_nat (seq 0 tokens)) batch_size)
  /\ snd (MistralModel_positions batch_size (padding + tokens)
            (Some (repeat (repeat 0 padding ++ repeat 1 tokens) batch_size))
            None)
     = repeat (repeat 0 padding ++ map Z.of_nat (seq 0 tokens)) batch_size
  /\ ((0 < tokens)%nat ->
      snd (MistralModel_positions batch_size (tokens + padding)
             (Some (repeat (repeat 1 tokens ++ repeat 0 padding) batch_size))
             None)
      = repeat (map Z.of_nat (seq 0 tokens)
                ++ repeat (Z.of_nat tokens - 1) padding) batch_size).
Proof.
  intros Hlen.
  assert (Hones : forall rest,
            map (fun c => int32 (Z.max (int32 (c - 1)) 0))
                (map (fun i => 0 + 1 + Z.of_nat i) (seq 0 tokens) ++ rest)
            = map Z.of_nat (seq 0 tokens)
              ++ map (fun c => int32 (Z.max (int32 (c - 1)) 0)) rest).
  { intros rest. rewrite map_app, map_map. f_equal.
    apply map_ext_in. intros i Hi. apply in_seq in Hi.
    rewrite (int32_small (0 + 1 + Z.of_nat i - 1)) by lia.
    rewrite int32_small by lia. lia. }
  split; [| split].
  - unfold MistralModel_positions. f_equal. rewrite map_repeat. f_equal.
    unfold cumsum. rewrite <- (app_nil_r (repeat 1 tokens)).
    rewrite cumsum_from_ones by lia. cbn [cumsum_from].
    rewrite Hones. cbn [map]. apply app_nil_r.
  - unfold MistralModel_positions. cbn [snd]. rewrite map_repeat. f_equal.
    unfold cumsum. rewrite cumsum_from_zeros by lia.
    rewrite <- (app_nil_r (repeat 1 tokens)).
    rewrite cumsum_from_ones by lia. cbn [cumsum_from].
    rewrite map_app, map_repeat, Hones. cbn [map]. rewrite app_nil_r.
    f_equal.
  - intros Htokens. unfold MistralModel_positions. cbn [snd].
    rewrite map_repeat. f_equal.
    unfold cumsum. rewrite cumsum_from_ones by lia.
    rewrite <- (app_nil_r (repeat 0 padding)).
    rewrite cumsum_from_zeros by lia. cbn [cumsum_from].
    rewrite Hones, app_nil_r, map_repeat. f_equal. f_equal.
    rewrite (int32_small (0 + Z.of_nat tokens - 1)) by lia.
    rewrite int32_small by lia. lia.
Qed.

End Mistral_positions.

Section Mistral_layers.
Import Py nnx modeling_mistral_flax.

Variables T A : Type.
Variable norm : T -> T.

(** The loop: the inputs of the layers are appended to what was collected,
    and so are the attention weights, each only when asked for. *)
Lemma layers_loop (layers : list (T -> T * A))
    (output_attentions output_hidden_states : bool) :
  forall (hidden_states : T) (collected : option (list T))
         (attentions : option (list A)),
  exists (states : list T) (weights : list A) (final : T),
    MistralModel_layers T A layers output_attentions output_hidden_states
      hidden_states collected attentions
    = (final,
       if output_hidden_states
       then option_map (fun l => l ++ states) collected else collected,
       if output_attentions
       then option_map (fun l => l ++ weights) attentions else attentions)
    /\ length states = length layers
    /\ length weights = length layers
    /\ nth_error (states ++ [final]) 0 = Some hidden_states
    /\ forall i block h,
         nth_error layers i = Some block -> nth_error states i = Some h ->
         nth_error (states ++ [final]) (S i) = Some (fst (block h))
         /\ nth_error weights i = Some (snd (block h)).
Proof.
  induction layers as [| block layers' IH]; intros hidden_states collected attentions.
  - exists [], [], hidden_states. cbn [MistralModel_layers].
    split.
    { destruct output_hidden_states, output_attentions, collected, attentions;
        cbn; rewrite ?app_nil_r; reflexivity. }
    split; [reflexivity |]. split; [reflexivity |]. split; [reflexivity |].
    intros i block h Hblock. destruct i; discriminate Hblock.
  - cbn [MistralModel_layers].
    destruct (IH (fst (block hidden_states))
                (if output_hidden_states
                 then option_map (fun l => l ++ [hidden_states]) collected
                 else collected)
                (if output_attentions
                 then option_map (fun l => l ++ [snd (block hidden_states)])
                                 attentions
                 else attentions))
      as (states & weights & final & Hrun & Hstates & Hweights & Hfirst & Hstep).
    exists (hidden_states :: states), (snd (block hidden_states) :: weights), final.
    split.
    { rewrite Hrun.
      destruct output_hidden_states, output_attentions, collected, attentions;
        cbn; rewrite <- ?app_assoc; reflexivity. }
    split; [cbn; rewrite Hstates; reflexivity |].
    split; [cbn; rewrite Hweights; reflexivity |].
    split; [reflexivity |].
    intros i block' h Hblock Hh. destruct i as [| i].
    + cbn in Hblock, Hh. injection Hblock as <-. injection Hh as <-.
      split; [exact Hfirst | reflexivity].
    + cbn in Hblock, Hh. exact (Hstep i block' h Hblock Hh).
Qed.

(** X19. What [MistralModel.__call__] collects: the last hidden state is
    the norm of the output [final] of the last layer whatever the flags;
    [all_hidden_states], when asked for, holds the input of every layer in
    order followed by the normed last hidden state (the output of the last
    layer before the norm is not among them); [all_attentions], when asked
    for, holds the weights of every layer in order; each layer runs on the
    first output of the layer before it, the first on the embeddings. *)
Theorem hidden_states_and_attentions_collected (layers : list (T -> T * A))
    (output_attentions output_hidden_states : bool) (inputs_embeds : T) :
  exists (states : list T) (weights : list A) (final : T),
    MistralModel_outputs T A norm layers output_attentions output_hidden_states
      inputs_embeds
    = (norm final,
       if output_hidden_states then Some (states ++ [norm final]) else None,
       if output_attentions then Some weights else None)
    /\ length states = length layers
    /\ length weights = length layers
    /\ nth_error (states ++ [final]) 0 = Some inputs_embeds
    /\ forall i block h,
         nth_error layers i = Some block -> nth_error states i = Some h ->
         nth_error (states ++ [final]) (S i) = Some (fst (block h))
         /\ nth_error weights i = Some (snd (block h)).
Proof.
  unfold MistralModel_outputs.
  destruct (layers_loop layers output_attentions output_hidden_states
              inputs_embeds
              (if output_hidden_states then Some [] else None)
              (if output_attentions then Some [] else None))
    as (states & weights & final & Hrun & Hrest).
  exists states, weights, final. split; [| exact Hrest].
  rewrite Hrun. destruct output_hidden_states, output_attentions; reflexivity.
Qed.

End Mistral_layers.

Section Mistral_sequence_classification.
Import Py nnx modeling_mistral_flax.
Local Open Scope Z_scope.

Variable Scores : Type.
Variable score_of_model :
  option (list (list Z)) -> option Array3 -> result (list (list Scores)).
Variable unspecified : Scores.

Lemma argmax_from_none (l : list Z) :
  forall best_index best index,
    Forall (fun v => v <= best) l ->
    argmax_from best_index best index l = best_index.
Proof.
  induction l as [| v l IH]; intros best_index best index Hall; [reflexivity |].
  inversion Hall as [| ? ? Hv Hl]; subst. cbn [argmax_from].
  destruct (Z.ltb_spec best v); [lia |]. apply IH. exact Hl.
Qed.

Lemma argmax_from_first (pre : list Z) :
  forall best_index best index v rest,
    Forall (fun w => w <= best) pre -> best < v -> Forall (fun w => w <= v) rest ->
    argmax_from best_index best index (pre ++ v :: rest)
    = (index + length pre)%nat.
Proof.
  induction pre as [| w pre IH]; intros best_index best index v rest Hpre Hv Hrest.
  - cbn [app argmax_from length]. destruct (Z.ltb_spec best v); [| lia].
    rewrite argmax_from_none by exact Hrest. lia.
  - inversion Hpre as [| ? ? Hw Hpre']; subst. cbn [app argmax_from length].
    destruct (Z.ltb_spec best w); [lia |].
    rewrite (IH best_index best (S index) v rest Hpre' Hv Hrest). lia.
Qed.

Lemma is_pad_bits (pad : Z) (row : list Z) :
  Forall (fun w => w <= 1)
    (map (fun t => if (t =? pad)%Z then 1 else 0) row).
Proof.
  apply Forall_map. apply Forall_forall. intros t _.
  destruct (t =? pad)%Z; lia.
Qed.

Lemma is_pad_zeros (pad : Z) (row : list Z) :
  ~ In pad row ->
  Forall (fun w => w <= 0)
    (map (fun t => if (t =? pad)%Z then 1 else 0) row).
Proof.
  intros Hnot. apply Forall_map. apply Forall_forall. intros t Ht.
  destruct (Z.eqb_spec t pad) as [-> | _]; [contradiction | lia].
Qed.

(** The position of the first padding token of a non-empty row, zero when
    there is none. *)
Lemma argmax_first_pad (pad : Z) (row : list Z) :
  (row <> [] -> ~ In pad row ->
   argmax (map (fun t => if (t =? pad)%Z then 1 else 0) row) = Ok 0%nat)
  /\ (forall pre post, row = pre ++ pad :: post -> ~ In pad pre ->
      argmax (map (fun t => if (t =? pad)%Z then 1 else 0) row)
      = Ok (length pre)).
Proof.
  split.
  - intros Hne Hnot. destruct row as [| t row]; [congruence |].
    cbn [map argmax]. f_equal.
    destruct (Z.eqb_spec t pad) as [-> | _]; [exfalso; apply Hnot; left; reflexivity |].
    apply argmax_from_none. apply is_pad_zeros.
    intros Hin. apply Hnot. right. exact Hin.
  - intros pre post -> Hnot. rewrite map_app. cbn [map]. rewrite Z.eqb_refl.
    destruct pre as [| t pre].
    + cbn [map app argmax length]. f_equal. apply argmax_from_none.
      apply is_pad_bits.
    + cbn [map app argmax length]. f_equal.
      destruct (Z.eqb_spec t pad) as [-> | _];
        [exfalso; apply Hnot; left; reflexivity |].
      rewrite argmax_from_first.
      * rewrite length_map. reflexivity.
      * apply is_pad_zeros. intros Hin. apply Hnot. right. exact Hin.
      * lia.
      * apply is_pad_bits.
Qed.

(** Lines 651-656 on a non-empty row: the index before the first padding
    token, wrapped to the last position when the row has no padding token
    or starts with one. *)
Lemma sequence_length_row (pad : Z) (row : list Z) :
  row <> [] ->
  exists index,
    sequence_length pad row = Ok index
    /\ 0 <= index < Z.of_nat (length row)
    /\ (forall pre post, row = pre ++ pad :: post -> ~ In pad pre -> pre <> [] ->
        index = Z.of_nat (length pre) - 1)
    /\ (~ In pad row \/ hd_error row = Some pad ->
        index = Z.of_nat (length row) - 1).
Proof.
  intros Hne.
  assert (Hpos : (0 < length row)%nat) by (destruct row; [congruence | cbn; lia]).
  destruct (argmax_first_pad pad row) as [Hnone Hfirst].
  assert (Hwrap : (Z.of_nat 0 - 1) mod Z.of_nat (length row)
                  = Z.of_nat (length row) - 1)
    by (symmetry; apply Z.mod_unique with (q := -1); lia).
  unfold sequence_length.
  destruct (argmax (map (fun t => if (t =? pad)%Z then 1 else 0) row))
    as [first_pad | e] eqn:Hargmax;
    [| destruct row; [congruence | discriminate Hargmax]].
  cbn [bind]. eexists. split; [reflexivity |]. split; [| split].
  - apply Z.mod_pos_bound. lia.
  - intros pre post Hsplit Hnot Hpre.
    injection (Hfirst pre post Hsplit Hnot) as ->.
    assert (Hk : (0 < length pre < length row)%nat).
    { rewrite Hsplit, length_app. cbn [length].
      destruct pre; [congruence | cbn; lia]. }
    apply Z.mod_small. lia.
  - intros [Hnot | Hhd].
    + injection (Hnone Hne Hnot) as ->. exact Hwrap.
    + destruct row as [| t post]; [congruence |]. cbn in Hhd. injection Hhd as ->.
      injection (Hfirst [] post eq_refl (fun H => H)) as ->. exact Hwrap.
Qed.

(** On an array with an empty sequence axis [jnp.argmax] raises. *)
Lemma sequence_lengths_empty_axis (pad : Z) (input_ids : list (list Z)) :
  Exists (fun row => row = []) input_ids ->
  all_rows (map (sequence_length pad) input_ids)
  = Raise (ValueError "attempt to get argmax of an empty sequence").
Proof.
  induction 1 as [row input_ids -> | row input_ids _ IH]; [reflexivity |].
  cbn [map all_rows]. destruct row as [| t row]; [reflexivity |].
  destruct (sequence_length_row pad (t :: row)) as (index & -> & _);
    [discriminate |].
  cbn [bind]. rewrite IH. reflexivity.
Qed.

Lemma take_in_range (scores : list Scores) (index : Z) :
  0 <= index < Z.of_nat (length scores) ->
  take Scores unspecified scores index = nth (Z.to_nat index) scores unspecified.
Proof.
  intros H. unfold take. destruct (Z.ltb_spec index 0); [lia |].
  rewrite Z.max_l, Z.min_l by lia. reflexivity.
Qed.

Lemma take_last (scores : list Scores) :
  scores <> [] ->
  take Scores unspecified scores (-1)
  = nth (length scores - 1) scores unspecified.
Proof.
  intros Hne. unfold take. cbn [Z.ltb Z.compare].
  assert (0 < length scores)%nat by (destruct scores; [congruence | cbn; lia]).
  rewrite Z.max_l, Z.min_l by lia. f_equal. lia.
Qed.

Lemma nth_error_pool (logits : list (list Scores)) :
  forall (sequence_lengths : list Z) b scores index,
    nth_error logits b = Some scores ->
    nth_error sequence_lengths b = Some index ->
    nth_error (pool Scores unspecified logits sequence_lengths) b
    = Some (take Scores unspecified scores index).
Proof.
  unfold pool.
  induction logits as [| row logits IH]; intros [| i sequence_lengths] [| b] scores
    index Hl Hs; try discriminate Hl; try discriminate Hs.
  - cbn in *. injection Hl as <-. injection Hs as <-. reflexivity.
  - cbn in *. apply IH; assumption.
Qed.

Lemma length_pool (logits : list (list Scores)) (sequence_lengths : list Z) :
  length logits = length sequence_lengths ->
  length (pool Scores unspecified logits sequence_lengths) = length logits.
Proof.
  intros H. unfold pool. rewrite length_map, length_combine. lia.
Qed.

(** X20. With a padding token and [input_ids] of at least one row: when
    the sequence axis is empty the call raises the [ValueError] of
    [jnp.argmax]; otherwise it returns, and the scores pooled for a row are
    those of the token before the first padding token, or those of the last
    position when the row holds no padding token or starts with one. *)
Theorem sequence_classification_pools_before_first_pad (pad_token_id : Z)
    (input_ids : list (list Z)) (logits : list (list Scores)) :
  score_of_model (Some input_ids) None = Ok logits ->
  Forall2 (fun (row : list Z) (scores : list Scores) =>
             length scores = length row) input_ids logits ->
  input_ids <> [] ->
  (Exists (fun row => row = []) input_ids ->
   MistralForSequenceClassification_call Scores score_of_model unspecified
     (Some pad_token_id) (Some input_ids) None
   = Raise (ValueError "attempt to get argmax of an empty sequence"))
  /\ (Forall (fun row => row <> []) input_ids ->
      exists pooled_logits,
        MistralForSequenceClassification_call Scores score_of_model unspecified
          (Some pad_token_id) (Some input_ids) None
        = Ok pooled_logits
        /\ length pooled_logits = length input_ids
        /\ forall b row scores,
             nth_error input_ids b = Some row ->
             nth_error logits b = Some scores ->
             exists pooled,
               nth_error pooled_logits b = Some pooled
               /\ (forall pre post,
                     row = pre ++ pad_token_id :: post ->
                     ~ In pad_token_id pre -> pre <> [] ->
                     pooled = nth (length pre - 1) scores unspecified)
               /\ (~ In pad_token_id row \/ hd_error row = Some pad_token_id ->
                   pooled = nth (length row - 1) scores unspecified)).
Proof.
  intros Hmodel Hshape _.
  unfold MistralForSequenceClassification_call. rewrite Hmodel.
  cbn [bind is_none is_some negb andb]. split.
  { intros Hempty. rewrite (sequence_lengths_empty_axis _ _ Hempty). reflexivity. }
  intros Hrows.
  destruct (all_rows_Forall2 (sequence_length pad_token_id)
              (fun row index =>
                 0 <= index < Z.of_nat (length row)
                 /\ (forall pre post,
                       row = pre ++ pad_token_id :: post ->
                       ~ In pad_token_id pre -> pre <> [] ->
                       index = Z.of_nat (length pre) - 1)
                 /\ (~ In pad_token_id row \/ hd_error row = Some pad_token_id ->
                     index = Z.of_nat (length row) - 1))
              input_ids) as (sequence_lengths & Hlengths & HF).
  { intros row Hrow. apply sequence_length_row.
    exact (proj1 (Forall_forall _ _) Hrows row Hrow). }
  rewrite Hlengths. cbn [bind].
  eexists. split; [reflexivity |].
  split.
  { rewrite length_pool; [symmetry; exact (Forall2_length Hshape) |].
    rewrite <- (Forall2_length Hshape). exact (Forall2_length HF). }
  intros b row scores Hrow Hscores.
  assert (Hlen : length scores = length row).
  { clear -Hshape Hrow Hscores. revert b Hrow Hscores.
    induction Hshape as [| r s ids lg Hrs _ IH]; intros [| b] Hrow Hscores;
      try discriminate Hrow.
    - cbn in *. injection Hrow as <-. injection Hscores as <-. exact Hrs.
    - cbn in *. exact (IH b Hrow Hscores). }
  assert (Hindex : exists index,
             nth_error sequence_lengths b = Some index
             /\ 0 <= index < Z.of_nat (length row)
             /\ (forall pre post,
                   row = pre ++ pad_token_id :: post ->
                   ~ In pad_token_id pre -> pre <> [] ->
                   index = Z.of_nat (length pre) - 1)
             /\ (~ In pad_token_id row \/ hd_error row = Some pad_token_id ->
                 index = Z.of_nat (length row) - 1)).
  { clear -HF Hrow. revert b Hrow.
    induction HF as [| r i ids ls Hri _ IH]; intros [| b] Hrow;
      try discriminate Hrow.
    - cbn in *. injection Hrow as <-. exists i. split; [reflexivity | exact Hri].
    - cbn in *. exact (IH b Hrow). }
  destruct Hindex as (index & Hnth & Hrange & Hbefore & Hlast).
  exists (take Scores unspecified scores index).
  split; [apply nth_error_pool; assumption |].
  rewrite take_in_range by lia.
  split.
  - intros pre post Hsplit Hnot Hpre.
    rewrite (Hbefore pre post Hsplit Hnot Hpre). f_equal.
    assert (0 < length pre)%nat by (destruct pre; [congruence | cbn; lia]). lia.
  - intros Hcase. rewrite (Hlast Hcase). f_equal. lia.
Qed.


Lemma pool_last (logits : list (list Scores)) :
  forall n, length logits = n ->
    Forall (fun scores => scores <> []) logits ->
    pool Scores unspecified logits (repeat (-1) n)
    = map (fun scores => nth (length scores - 1) scores unspecified) logits.
Proof.
  unfold pool. induction logits as [| scores logits IH]; intros n Hn Hall.
  - destruct n; reflexivity.
  - destruct n as [| n]; [discriminate Hn |].
    inversion Hall as [| ? ? Hne Hall']; subst.
    cbn [repeat combine map fst snd]. rewrite take_last by exact Hne.
    f_equal. apply IH; [cbn in Hn; lia | exact Hall'].
Qed.

(** X21. Without a padding token, or with embeddings instead of
    [input_ids], the call (once the model has returned) raises
    [ValueError] when no padding token is defined and the batch size is not
    one, and otherwise pools the scores of the last position of every
    row. *)
Theorem sequence_classification_pools_last_token (pad_token_id : option Z)
    (input_ids : option (list (list Z))) (inputs_embeds : option Array3)
    (logits : list (list Scores)) (batch_size : nat) :
  score_of_model input_ids inputs_embeds = Ok logits ->
  pad_token_id = None \/ input_ids = None ->
  match input_ids, inputs_embeds with
  | Some input_ids, _ => length input_ids = batch_size
  | None, Some inputs_embeds => batch inputs_embeds = batch_size
  | None, None => False
  end ->
  length logits = batch_size ->
  Forall (fun scores => scores <> []) logits ->
  MistralForSequenceClassification_call Scores score_of_model unspecified
    pad_token_id input_ids inputs_embeds
  = if is_none pad_token_id && negb (batch_size =? 1)%nat then
      Raise (ValueError "Cannot handle batch sizes > 1 if no padding token is defined.")
    else
      Ok (map (fun scores => nth (length scores - 1) scores unspecified) logits).
Proof.
  intros Hmodel Hpath Hbatch Hlen Hne.
  unfold MistralForSequenceClassification_call. rewrite Hmodel. cbn [bind].
  assert (Hsize : match input_ids, inputs_embeds with
                  | Some input_ids, _ => Ok (length input_ids)
                  | None, Some inputs_embeds => Ok (batch inputs_embeds)
                  | None, None =>
                      Raise (AttributeError "'NoneType' object has no attribute 'shape'")
                  end = Ok batch_size).
  { destruct input_ids as [ids |], inputs_embeds as [e |]; try contradiction;
      rewrite Hbatch; reflexivity. }
  rewrite Hsize. cbn [bind].
  destruct (is_none pad_token_id && negb (batch_size =? 1)%nat); [reflexivity |].
  replace (match pad_token_id with
           | Some pad_token_id0 =>
               match input_ids with
               | Some input_ids0 =>
                   all_rows (map (sequence_length pad_token_id0) input_ids0)
               | None => Ok (repeat (-1) batch_size)
               end
           | None => Ok (repeat (-1) batch_size)
           end) with (@Ok (list Z) (repeat (-1) batch_size)).
  - cbn [bind]. f_equal. apply pool_last; assumption.
  - destruct Hpath as [-> | ->]; [reflexivity |].
    destruct pad_token_id; reflexivity.
Qed.

End Mistral_sequence_classification.

Section Mistral_instances.
Import Py nnx modeling_mistral_flax instances.
Local Open Scope Z_scope.

Lemma default_position_ids_witness :
  MistralModel_positions 2 3 None None
  = (repeat (repeat 1 3) 2, repeat (map Z.of_nat (seq 0 3)) 2)
  /\ snd (MistralModel_positions 2 (1 + 3)
            (Some (repeat (repeat 0 1 ++ repeat 1 3) 2)) None)
     = repeat (repeat 0 1 ++ map Z.of_nat (seq 0 3)) 2
  /\ ((0 < 3)%nat ->
      snd (MistralModel_positions 2 (3 + 1)
             (Some (repeat (repeat 1 3 ++ repeat 0 1) 2)) None)
      = repeat (map Z.of_nat (seq 0 3) ++ repeat (Z.of_nat 3 - 1) 1) 2).
Proof. apply (default_position_ids 2 1 3). cbn. lia. Defined.

Lemma sequence_classification_pools_before_first_pad_witness :
  exists pooled_logits,
    MistralForSequenceClassification_call nat four_scores 0%nat (Some 0)
      (Some [[5; 6; 0; 0]]) None
    = Ok pooled_logits
    /\ nth_error pooled_logits 0 = Some 11%nat.
Proof.
  destruct (sequence_classification_pools_before_first_pad nat four_scores 0%nat
              0 [[5; 6; 0; 0]] [[10; 11; 12; 13]]%nat eq_refl
              ltac:(repeat constructor) ltac:(discriminate))
    as [_ Hreturns].
  destruct (Hreturns ltac:(repeat constructor; discriminate))
    as (pooled_logits & Hcall & _ & Hrows).
  exists pooled_logits. split; [exact Hcall |].
  destruct (Hrows 0%nat [5; 6; 0; 0] [10; 11; 12; 13]%nat eq_refl eq_refl)
    as (pooled & Hpooled & Hbefore & _).
  rewrite Hpooled.
  rewrite (Hbefore [5; 6] [0] eq_refl
             ltac:(intros [H | [H | []]]; discriminate H) ltac:(discriminate)).
  reflexivity.
Defined.

Lemma sequence_classification_pools_last_token_witness :
  MistralForSequenceClassification_call nat four_scores 0%nat None
    (Some [[5; 6; 7; 8]]) None
  = Ok [13%nat].
Proof.
  apply (sequence_classification_pools_last_token nat four_scores 0%nat None
           (Some [[5; 6; 7; 8]]) None [[10; 11; 12; 13]]%nat 1 eq_refl).
  - left. reflexivity.
  - reflexivity.
  - reflexivity.
  - repeat constructor; discriminate.
Defined.

End Mistral_instances.

(** ** [helpers.py]: loggers and timers *)

Section Helpers_logger.
Import helpers.

Lemma find_store_same (key : string) (logger : Logger)
    (loggers : list (string * Logger)) :
  find_logger key (store_logger key logger loggers) = Some logger.
Proof.
  induction loggers as [| [k v] loggers IH]; cbn.
  - rewrite String.eqb_refl. reflexivity.
  - destruct (String.eqb_spec k key) as [-> | Hne]; cbn.
    + rewrite String.eqb_refl. reflexivity.
    + destruct (String.eqb_spec k key); [contradiction | exact IH].
Qed.

Lemma find_store_other (key other : string) (logger : Logger)
    (loggers : list (string * Logger)) :
  other <> key ->
  find_logger other (store_logger key logger loggers) = find_logger other loggers.
Proof.
  intros Hother. induction loggers as [| [k v] loggers IH]; cbn.
  - destruct (String.eqb_spec key other); [congruence | reflexivity].
  - destruct (String.eqb_spec k key) as [-> | Hne]; cbn.
    + destruct (String.eqb_spec key other); [congruence | reflexivity].
    + destruct (String.eqb_spec k other); [reflexivity | exact IH].
Qed.

(** X22. Every call of [get_logger] for one name adds a handler to the
    logger of that name and removes none: after [n] calls the logger holds
    its earlier handlers and [n] new ones, each at the level of its call
    ([WARNING] in every process but the first); the logger has the level
    of the last call and does not propagate; other loggers are not
    touched. *)
Theorem get_logger_accumulates_handlers (process_index : nat) (key : string)
    (levels : list nat) (loggers : list (string * Logger)) :
  let effective level := if (0 <? process_index)%nat then 30%nat else level in
  let loggers' :=
    fold_left (fun loggers0 level => get_logger process_index key level loggers0)
      levels loggers in
  handlers (getLogger key loggers')
  = handlers (getLogger key loggers)
    ++ map (fun level =>
              {| handler_level := effective level;
                 formatter := "%(asctime)s %(levelname)-8s [%(name)s] %(message)s" |})
           levels
  /\ (levels <> [] ->
      forall level,
        propagate (getLogger key loggers') = false
        /\ logger_level (getLogger key loggers')
           = effective (last levels level))
  /\ forall other, other <> key ->
       getLogger other loggers' = getLogger other loggers.
Proof.
  cbv zeta. revert loggers.
  induction levels as [| level levels IH]; intros loggers.
  - cbn [fold_left map]. rewrite app_nil_r.
    split; [reflexivity |]. split; [intros H; congruence | reflexivity].
  - cbn [fold_left map]. destruct (IH (get_logger process_index key level loggers))
      as (Hhandlers & Hlast & Hother).
    assert (Hfirst : getLogger key (get_logger process_index key level loggers)
                     = {| logger_level :=
                            if (0 <? process_index)%nat then 30%nat else level;
                          propagate := false;
                          handlers :=
                            handlers (getLogger key loggers)
                            ++ [{| handler_level :=
                                     if (0 <? process_index)%nat then 30%nat
                                     else level;
                                   formatter := "%(asctime)s %(levelname)-8s [%(name)s] %(message)s" |}] |}).
    { unfold get_logger. unfold getLogger at 1. rewrite find_store_same.
      reflexivity. }
    split; [| split].
    + rewrite Hhandlers, Hfirst. cbn [handlers]. rewrite <- app_assoc.
      reflexivity.
    + intros _ d. destruct levels as [| level' levels'].
      * cbn [fold_left last]. rewrite Hfirst. split; reflexivity.
      * apply Hlast. discriminate.
    + intros other Hne. rewrite (Hother other Hne).
      unfold get_logger, getLogger. rewrite find_store_other by exact Hne.
      reflexivity.
Qed.

End Helpers_logger.

Section Helpers_timer.
Import helpers.
Local Open Scope R_scope.

Lemma nth_replace_nth {A} (l : list A) :
  forall n a d, (n < length l)%nat -> nth n (replace_nth n a l) d = a.
Proof.
  induction l as [| b l IH]; intros [| n] a d Hn; cbn in *; try lia;
    [reflexivity |].
  apply IH. lia.
Qed.

Lemma length_replace_nth {A} (l : list A) :
  forall n a, length (replace_nth n a l) = length l.
Proof.
  induction l as [| b l IH]; intros [| n] a; cbn; try reflexivity.
  rewrite IH. reflexivity.
Qed.

(** X23. [Timer.elapsed_time] never raises and always leaves the timer
    stopped: a running timer is stopped at the current reading of the
    clock, and its time up to then is part of the total returned; with
    [reset] the accumulated time is cleared.  A [stop()] that follows, as
    the [__exit__] of a [with] block does, raises [RuntimeError]. *)
Theorem elapsed_time_stops_timer (self : nat) (reset0 : bool) (s : State) :
  (self < length (objects s))%nat ->
  let t := nth self (objects s) (Timer_init "") in
  let total :=
    if started t then elapsed t + (now s (ticks s) - start_time t)
    else elapsed t in
  exists s',
    elapsed_time self reset0 s = (s', Returned total)
    /\ started (nth self (objects s') (Timer_init "")) = false
    /\ elapsed (nth self (objects s') (Timer_init ""))
       = (if reset0 then 0 else total)
    /\ ticks s' = (if started t then S (ticks s) else ticks s)
    /\ snd (stop self s')
       = Raised (RuntimeError ("Timer '" ++ name t ++ "' is not running")).
Proof.
  intros Hself t total. subst t total.
  cbv beta iota zeta delta [elapsed_time and_then get stop reset time_time put
                              ret raise].
  destruct (nth self (objects s) (Timer_init "")) as [n e st t0] eqn:Ht.
  cbn [started elapsed start_time name].
  destruct st, reset0;
    repeat (cbn [started elapsed start_time name negb objects ticks now snd];
            rewrite ?nth_replace_nth
              by (rewrite ?length_replace_nth; exact Hself);
            rewrite ?Ht);
    (eexists; split; [reflexivity |]);
    repeat (cbn [started elapsed start_time name negb objects ticks now snd];
            rewrite ?nth_replace_nth
              by (rewrite ?length_replace_nth; exact Hself);
            rewrite ?Ht);
    repeat split.
Qed.


(** X24. [with timer: body] on a stopped timer: whatever the body returns
    or raises is the outcome, and the time between the two readings of the
    clock, taken before and after the body, is added to the accumulated
    time.  The body leaves the timer objects alone. *)
Theorem with_timer_adds_interval {A} (self : nat) (body : M A) (s : State) :
  (self < length (objects s))%nat ->
  started (nth self (objects s) (Timer_init "")) = false ->
  (forall s0, objects (fst (body s0)) = objects s0) ->
  let t := nth self (objects s) (Timer_init "") in
  let after_body := fst (body (fst (start self s))) in
  exists s',
    with_timer self body s = (s', snd (body (fst (start self s))))
    /\ nth self (objects s') (Timer_init "")
       = {| name := name t;
            elapsed := elapsed t
                       + (now after_body (ticks after_body) - now s (ticks s));
            started := false;
            start_time := now s (ticks s) |}
    /\ ticks s' = S (ticks after_body).
Proof.
  intros Hself Hstarted Hbody t after_body. subst t after_body.
  destruct (nth self (objects s) (Timer_init "")) as [n e st t0] eqn:Ht.
  cbn [started] in Hstarted. subst st.
  unfold with_timer.
  cbv beta iota zeta delta [try_finally and_then start stop get put time_time
                              raise ret].
  rewrite Ht. cbn [started name elapsed start_time fst].
  match goal with
  | |- context [body ?s1] =>
      pose proof (Hbody s1) as Hobjects; destruct (body s1) as [s2 r] eqn:Hrun
  end.
  cbn [fst snd objects] in Hobjects |- *. rewrite Hobjects.
  rewrite nth_replace_nth by exact Hself.
  cbn [started negb name elapsed start_time].
  eexists. split; [reflexivity |]. cbn [objects ticks].
  rewrite nth_replace_nth
    by (rewrite ?Hobjects, ?length_replace_nth; exact Hself).
  split; reflexivity.
Qed.

Section Timers.

Variable format_4f : R -> string.

Lemma lookup_known (name0 : string) (timer : nat) (s : State) :
  lookup name0 (timers s) = Some timer ->
  Timers_call name0 s = (s, Returned timer).
Proof. intros H. unfold Timers_call. rewrite H. reflexivity. Qed.

(** X26. [timed] inside [timed] for one name: the inner [start] finds the
    timer running, the inner [finally] stops it (and logs it, when asked
    to), and the outer [finally] then finds it stopped: the body never
    runs, the clock is read twice and the exception raised is the
    [RuntimeError] of [stop], not the one of [start]. *)
Theorem nested_timed_raises_not_running {A} (name0 : string)
    (log0 reset0 log1 reset1 : bool) (s : State) (timer : nat) :
  lookup name0 (timers s) = Some timer ->
  (timer < length (objects s))%nat ->
  name (nth timer (objects s) (Timer_init "")) = name0 ->
  started (nth timer (objects s) (Timer_init "")) = false ->
  exists s',
    (forall body : nat -> M A,
        timed format_4f name0 log0 reset0
          (fun _ => timed format_4f name0 log1 reset1 body) s
        = (s', Raised (RuntimeError ("Timer '" ++ name0 ++ "' is not running"))))
    /\ started (nth timer (objects s') (Timer_init "")) = false
    /\ ticks s' = S (S (ticks s))
    /\ events s'
       = (if log1 then
            [Info ("time took for " ++ name0 ++ " : "
                   ++ snd (time_str_color format_4f
                             ((elapsed (nth timer (objects s) (Timer_init ""))
                               + (now s (S (ticks s)) - now s (ticks s)))
                              * 1000))
                   ++ fst (time_str_color format_4f
                             ((elapsed (nth timer (objects s) (Timer_init ""))
                               + (now s (S (ticks s)) - now s (ticks s)))
                              * 1000))
                   ++ escape ++ "[0m")]
          else []) ++ events s.
Proof.
  intros Hlookup Htimer Hname Hstarted.
  destruct (nth timer (objects s) (Timer_init "")) as [n e st t0] eqn:Ht.
  cbn [name started elapsed] in *. subst n st.
  unfold timed. unfold and_then at 1. rewrite (lookup_known name0 timer s Hlookup).
  cbv beta iota zeta delta [try_finally and_then start stop get put time_time
                              raise ret elapsed_time reset Timers_call
                              _print_log emit].
  repeat (cbn [started elapsed start_time name negb objects ticks now snd fst
               timers events];
          rewrite ?nth_replace_nth
            by (rewrite ?length_replace_nth; exact Htimer);
          rewrite ?Ht, ?Hlookup).
  destruct log1, reset1;
    repeat (cbn [started elapsed start_time name negb objects ticks now snd fst
                 timers events];
            rewrite ?nth_replace_nth
              by (rewrite ?length_replace_nth; exact Htimer);
            rewrite ?Ht, ?Hlookup);
    try (destruct (time_str_color format_4f _) as [time_str color] eqn:Hstr);
    repeat (cbn [started elapsed start_time name negb objects ticks now snd fst
                 timers events];
            rewrite ?nth_replace_nth
              by (rewrite ?length_replace_nth; exact Htimer);
            rewrite ?Ht, ?Hlookup);
    (eexists; split; [intros body; reflexivity |]);
    repeat (cbn [started elapsed start_time name negb objects ticks now snd fst
                 timers events app];
            rewrite ?nth_replace_nth
              by (rewrite ?length_replace_nth; exact Htimer);
            rewrite ?Ht, ?Hlookup);
    repeat split.
Qed.


(** [elapsed_time] returns and touches the timer and the clock only. *)
Lemma elapsed_time_frame (self : nat) (reset0 : bool) (s : State) :
  exists s' total,
    elapsed_time self reset0 s = (s', Returned total)
    /\ timers s' = timers s
    /\ length (objects s') = length (objects s)
    /\ use_wandb s' = use_wandb s
    /\ tensorboard_writer s' = tensorboard_writer s
    /\ events s' = events s.
Proof.
  cbv beta iota zeta delta [elapsed_time and_then get stop reset time_time put
                              ret raise].
  destruct (nth self (objects s) (Timer_init "")) as [n e st t0] eqn:Ht.
  destruct st, reset0;
    repeat (cbn [started elapsed start_time name negb objects ticks now];
            rewrite ?Ht);
    eexists _, _; (split; [reflexivity |]);
    cbn [timers objects use_wandb tensorboard_writer events];
    rewrite ?length_replace_nth; repeat split.
Qed.

Variable wandb_installed : bool.

(** X28. [Timers.write] with [use_wandb] set while [wandb] is not
    installed: for any number of known names the call returns, warns
    exactly once and leaves [use_wandb] off. *)
Theorem write_without_wandb_warns_once (names : list string) (iteration : nat)
    (normalizer : R) (reset0 : bool) (s : State) :
  wandb_installed = false ->
  use_wandb s = true ->
  0 < normalizer ->
  names <> [] ->
  Forall (fun name0 => lookup name0 (timers s) <> None) names ->
  exists s',
    write wandb_installed names iteration normalizer reset0 s = (s', Returned tt)
    /\ use_wandb s' = false
    /\ filter (fun e => match e with Warning _ => true | _ => false end)
         (events s')
       = Warning "`wandb` is not installed use `pip install wandb` (use_wandb=True will be ignored)"
         :: filter (fun e => match e with Warning _ => true | _ => false end)
              (events s).
Proof.
  intros Hwandb Huse Hnorm Hne Hknown. unfold write.
  destruct (Rlt_dec 0 normalizer) as [_ | H]; [| contradiction]. rewrite Hwandb.
  match goal with
  | |- context [for_each names ?f] => set (body := f)
  end.
  assert (Hstep : forall name0 s0,
            lookup name0 (timers s0) <> None ->
            exists s1,
              body name0 s0 = (s1, Returned tt)
              /\ timers s1 = timers s0
              /\ use_wandb s1 = false
              /\ filter (fun e => match e with Warning _ => true | _ => false end)
                   (events s1)
                 = (if use_wandb s0
                    then [Warning "`wandb` is not installed use `pip install wandb` (use_wandb=True will be ignored)"]
                    else [])
                   ++ filter (fun e => match e with Warning _ => true | _ => false end)
                        (events s0)).
  { intros name0 s0 Hlookup. unfold body, and_then at 1, timers_item.
    destruct (lookup name0 (timers s0)) as [timer |]; [| congruence].
    unfold and_then at 1.
    destruct (elapsed_time_frame timer reset0 s0)
      as (s1 & total & -> & Htimers & _ & Huse1 & Hboard & Hevents).
    cbv beta iota zeta delta [and_then emit ret set_use_wandb].
    destruct (tensorboard_writer s1);
      cbn [use_wandb events timers]; rewrite Huse1;
      destruct (use_wandb s0); cbn [use_wandb events timers filter app];
      eexists; (split; [reflexivity |]);
      cbn [use_wandb events timers filter app]; rewrite ?Hevents;
      repeat split; assumption. }
  assert (Hloop : forall names0 s0,
            use_wandb s0 = false ->
            Forall (fun name0 => lookup name0 (timers s0) <> None) names0 ->
            exists s1,
              for_each names0 body s0 = (s1, Returned tt)
              /\ use_wandb s1 = false
              /\ filter (fun e => match e with Warning _ => true | _ => false end)
                   (events s1)
                 = filter (fun e => match e with Warning _ => true | _ => false end)
                     (events s0)).
  { induction names0 as [| name0 names0 IH]; intros s0 Huse0 Hall.
    - exists s0. repeat split. exact Huse0.
    - inversion Hall as [| ? ? Hname Hrest]; subst.
      destruct (Hstep name0 s0 Hname) as (s1 & Hrun & Htimers & Huse1 & Hev).
      rewrite Huse0 in Hev. cbn [app] in Hev.
      destruct (IH s1 Huse1) as (s2 & Hrun2 & Huse2 & Hev2).
      { rewrite Htimers. exact Hrest. }
      exists s2. cbn [for_each]. unfold and_then. rewrite Hrun.
      split; [exact Hrun2 |]. split; [exact Huse2 |].
      rewrite Hev2. exact Hev. }
  destruct names as [| name0 names]; [congruence |].
  inversion Hknown as [| ? ? Hname Hrest]; subst.
  destruct (Hstep name0 s Hname) as (s1 & Hrun & Htimers & Huse1 & Hev).
  rewrite Huse in Hev. cbn [app] in Hev.
  destruct (Hloop names s1 Huse1) as (s2 & Hrun2 & Huse2 & Hev2).
  { rewrite Htimers. exact Hrest. }
  exists s2. cbn [for_each]. unfold and_then. rewrite Hrun.
  split; [exact Hrun2 |]. split; [exact Huse2 |].
  rewrite Hev2. exact Hev.
Qed.

End Timers.

End Helpers_timer.

Section Helpers_timed.
Import helpers.
Local Open Scope R_scope.

Variable format_4f : R -> string.

(** X27. [with self.timed(name, log, reset): body] on a registered, stopped
    timer, with a body that leaves the timer objects alone: the outcome is
    that of the body, returned or raised; the timer ends stopped; the time
    between the two readings of the clock is added to the accumulated time
    and, when [log] is set, reported in one message; the accumulated time
    is cleared only when both [log] and [reset] are set, so that [reset]
    has no effect without [log]. *)
Theorem timed_reports_and_resets {A} (name0 : string) (log0 reset0 : bool)
    (body : nat -> M A) (s : State) (timer : nat) :
  lookup name0 (timers s) = Some timer ->
  (timer < length (objects s))%nat ->
  started (nth timer (objects s) (Timer_init "")) = false ->
  (forall s0, objects (fst (body timer s0)) = objects s0) ->
  let t := nth timer (objects s) (Timer_init "") in
  let after_body := fst (body timer (fst (start timer s))) in
  let total :=
    elapsed t + (now after_body (ticks after_body) - now s (ticks s)) in
  exists s',
    timed format_4f name0 log0 reset0 body s
    = (s', snd (body timer (fst (start timer s))))
    /\ started (nth timer (objects s') (Timer_init "")) = false
    /\ elapsed (nth timer (objects s') (Timer_init ""))
       = (if log0 && reset0 then 0 else total)
    /\ events s'
       = (if log0
          then [Info ("time took for " ++ name0 ++ " : "
                      ++ snd (time_str_color format_4f (total * 1000))
                      ++ fst (time_str_color format_4f (total * 1000))
                      ++ escape ++ "[0m")]
          else [])
         ++ events after_body.
Proof.
  intros Hlookup Htimer Hstarted Hbody t after_body total.
  subst t after_body total.
  destruct (nth timer (objects s) (Timer_init "")) as [n e st t0] eqn:Ht.
  cbn [started] in Hstarted. subst st.
  unfold timed. unfold and_then at 1. rewrite (lookup_known name0 timer s Hlookup).
  cbv beta iota zeta delta [try_finally and_then start stop get put time_time
                              raise ret elapsed_time reset _print_log emit].
  rewrite Ht. cbn [started name elapsed start_time fst].
  match goal with
  | |- context [body timer ?s1] =>
      pose proof (Hbody s1) as Hobjects;
      destruct (body timer s1) as [s2 r] eqn:Hrun
  end.
  cbn [fst snd objects] in Hobjects |- *. rewrite Hobjects.
  rewrite nth_replace_nth by exact Htimer.
  cbn [started negb name elapsed start_time].
  destruct log0, reset0;
    repeat (cbn [started elapsed start_time name negb objects ticks now snd fst
                 timers events andb];
            rewrite ?nth_replace_nth
              by (rewrite ?Hobjects, ?length_replace_nth; exact Htimer));
    try (destruct (time_str_color format_4f _) as [time_str color] eqn:Hstr);
    (eexists; split; [reflexivity |]);
    repeat (cbn [started elapsed start_time name negb objects ticks now snd fst
                 timers events andb app];
            rewrite ?nth_replace_nth
              by (rewrite ?Hobjects, ?length_replace_nth; exact Htimer));
    repeat split.
Qed.

End Helpers_timed.

Section Helpers_log.
Import helpers.
Local Open Scope R_scope.

Variable format_4f : R -> string.

Lemma nth_replace_nth_other {A} (l : list A) :
  forall n m a d, n <> m -> nth m (replace_nth n a l) d = nth m l d.
Proof.
  induction l as [| b l IH]; intros [| n] [| m] a d Hne; cbn; try reflexivity;
    try congruence.
  apply IH. congruence.
Qed.

(** [elapsed_time(reset=True)] leaves the timer stopped at zero and the
    other timers as they were. *)
Lemma elapsed_time_resets (self : nat) (s : State) :
  (self < length (objects s))%nat ->
  exists s' total,
    elapsed_time self true s = (s', Returned total)
    /\ timers s' = timers s
    /\ length (objects s') = length (objects s)
    /\ events s' = events s
    /\ started (nth self (objects s') (Timer_init "")) = false
    /\ elapsed (nth self (objects s') (Timer_init "")) = 0
    /\ forall other, other <> self ->
         nth other (objects s') (Timer_init "")
         = nth other (objects s) (Timer_init "").
Proof.
  intros Hself.
  cbv beta iota zeta delta [elapsed_time and_then get stop reset time_time put
                              ret raise].
  destruct (nth self (objects s) (Timer_init "")) as [n e st t0] eqn:Ht.
  destruct st;
    repeat (cbn [started elapsed start_time name negb objects ticks now];
            rewrite ?Ht);
    eexists _, _; (split; [reflexivity |]);
    cbn [timers objects events];
    rewrite ?length_replace_nth;
    rewrite ?nth_replace_nth by (rewrite ?length_replace_nth; exact Hself);
    repeat split;
    intros other Hother; rewrite ?nth_replace_nth_other by congruence;
    reflexivity.
Qed.

(** X25. [Timers.log] with its default [reset=True], on known names and a
    positive normalizer: the call returns, logs one message per name in
    [names] and nothing else, registers no timer, and leaves every named
    timer stopped with no accumulated time, also a timer that was running
    and a name that is listed twice. *)
Theorem log_resets_every_named_timer (names : list string) (normalizer : R)
    (s : State) :
  0 < normalizer ->
  Forall (fun name0 => exists timer,
            lookup name0 (timers s) = Some timer
            /\ (timer < length (objects s))%nat) names ->
  exists s' infos,
    log format_4f (inr names) normalizer true s = (s', Returned tt)
    /\ events s' = infos ++ events s
    /\ length infos = length names
    /\ Forall (fun e => match e with Info _ => True | _ => False end) infos
    /\ timers s' = timers s
    /\ Forall (fun name0 => exists timer,
                 lookup name0 (timers s) = Some timer
                 /\ started (nth timer (objects s') (Timer_init "")) = false
                 /\ elapsed (nth timer (objects s') (Timer_init "")) = 0) names.
Proof.
  intros Hnorm Hknown. unfold log.
  destruct (Rlt_dec 0 normalizer) as [_ | H]; [| contradiction].
  match goal with
  | |- context [for_each names ?f] => set (body := f)
  end.
  assert (Hstep : forall name0 timer s0,
            lookup name0 (timers s0) = Some timer ->
            (timer < length (objects s0))%nat ->
            exists s1 message,
              body name0 s0 = (s1, Returned tt)
              /\ events s1 = Info message :: events s0
              /\ timers s1 = timers s0
              /\ length (objects s1) = length (objects s0)
              /\ started (nth timer (objects s1) (Timer_init "")) = false
              /\ elapsed (nth timer (objects s1) (Timer_init "")) = 0
              /\ forall other, other <> timer ->
                   nth other (objects s1) (Timer_init "")
                   = nth other (objects s0) (Timer_init "")).
  { intros name0 timer s0 Hlookup Htimer.
    unfold body, and_then at 1, timers_item. rewrite Hlookup.
    unfold and_then at 1.
    destruct (elapsed_time_resets timer s0 Htimer)
      as (s1 & total & -> & Htimers & Hlen & Hevents & Hstopped & Hzero & Hothers).
    unfold _print_log.
    destruct (time_str_color format_4f (total * 1000 / normalizer))
      as [time_str color].
    unfold emit. eexists _, _. split; [reflexivity |].
    cbn [events timers objects]. rewrite Hevents.
    repeat split; assumption. }
  clear Hnorm. revert s Hknown.
  induction names as [| name0 names IH]; intros s Hknown.
  - exists s, []. cbn [for_each]. repeat split; constructor.
  - inversion Hknown as [| ? ? (timer & Hlookup & Htimer) Hrest]; subst.
    destruct (Hstep name0 timer s Hlookup Htimer)
      as (s1 & message & Hrun & Hevents & Htimers & Hlen & Hstopped & Hzero
          & Hothers).
    destruct (IH s1) as (s2 & infos & Hrun2 & Hevents2 & Hinfos & Hall & Htimers2
                         & Hreset).
    { eapply Forall_impl; [| exact Hrest]. intros name1 (timer1 & Hl & Ht).
      exists timer1. rewrite Htimers, Hlen. split; assumption. }
    exists s2, (infos ++ [Info message]).
    cbn [for_each]. unfold and_then. rewrite Hrun.
    split; [exact Hrun2 |].
    split; [rewrite Hevents2, Hevents, <- app_assoc; reflexivity |].
    split; [rewrite length_app, Hinfos; cbn; lia |].
    split; [apply Forall_app; split; [exact Hall | repeat constructor] |].
    split; [rewrite Htimers2; exact Htimers |].
    constructor.
    + exists timer. split; [exact Hlookup |].
      assert (Hlater : forall names1 s3 s4 r,
                for_each names1 body s3 = (s4, r) ->
                Forall (fun name1 => exists timer1,
                          lookup name1 (timers s3) = Some timer1
                          /\ (timer1 < length (objects s3))%nat) names1 ->
                started (nth timer (objects s3) (Timer_init "")) = false ->
                elapsed (nth timer (objects s3) (Timer_init "")) = 0 ->
                started (nth timer (objects s4) (Timer_init "")) = false
                /\ elapsed (nth timer (objects s4) (Timer_init "")) = 0).
      { clear -Hstep. induction names1 as [| name1 names1 IH1];
          intros s3 s4 r Hrun Hall Hs He.
        - cbn in Hrun. injection Hrun as <- _. split; assumption.
        - inversion Hall as [| ? ? (timer1 & Hl & Ht) Hrest]; subst.
          destruct (Hstep name1 timer1 s3 Hl Ht)
            as (s5 & message & Hrun5 & _ & Htimers5 & Hlen5 & Hs5 & He5 & Ho5).
          cbn [for_each] in Hrun. unfold and_then in Hrun. rewrite Hrun5 in Hrun.
          apply (IH1 s5 s4 r Hrun).
          + eapply Forall_impl; [| exact Hrest]. intros n (t & Hl' & Ht').
            exists t. rewrite Htimers5, Hlen5. split; assumption.
          + destruct (Nat.eq_dec timer timer1) as [-> | Hne];
              [exact Hs5 | rewrite Ho5 by exact Hne; exact Hs].
          + destruct (Nat.eq_dec timer timer1) as [-> | Hne];
              [exact He5 | rewrite Ho5 by exact Hne; exact He]. }
      apply (Hlater names s1 s2 (Returned tt) Hrun2); try assumption.
      eapply Forall_impl; [| exact Hrest]. intros name1 (timer1 & Hl & Ht).
      exists timer1. rewrite Htimers, Hlen. split; assumption.
    + eapply Forall_impl; [| exact Hreset]. intros name1 (timer1 & Hl & Hs & He).
      exists timer1. rewrite <- Htimers. repeat split; assumption.
Qed.

End Helpers_log.

Section Helpers_instances.
Import helpers instances.
Local Open Scope R_scope.

Lemma elapsed_time_stops_timer_witness :
  let t := nth 0 (objects one_timer) (Timer_init "") in
  let total :=
    if started t
    then elapsed t + (now one_timer (ticks one_timer) - start_time t)
    else elapsed t in
  exists s',
    elapsed_time 0 true one_timer = (s', Returned total)
    /\ started (nth 0 (objects s') (Timer_init "")) = false
    /\ elapsed (nth 0 (objects s') (Timer_init "")) = (if true then 0 else total)
    /\ ticks s' = (if started t then S (ticks one_timer) else ticks one_timer)
    /\ snd (stop 0 s')
       = Raised (RuntimeError ("Timer '" ++ name t ++ "' is not running")).
Proof. apply (elapsed_time_stops_timer 0 true one_timer). cbn. lia. Defined.

Lemma with_timer_adds_interval_witness :
  let t := nth 0 (objects one_timer) (Timer_init "") in
  let after_body := fst (ret tt (fst (start 0 one_timer))) in
  exists s',
    with_timer 0 (ret tt) one_timer
    = (s', snd (ret tt (fst (start 0 one_timer))))
    /\ nth 0 (objects s') (Timer_init "")
       = {| name := name t;
            elapsed := elapsed t
                       + (now after_body (ticks after_body)
                          - now one_timer (ticks one_timer));
            started := false;
            start_time := now one_timer (ticks one_timer) |}
    /\ ticks s' = S (ticks after_body).
Proof.
  apply (with_timer_adds_interval 0 (ret tt) one_timer).
  - cbn. lia.
  - reflexivity.
  - intros s0. reflexivity.
Defined.

Lemma nested_timed_raises_not_running_witness :
  exists s',
    timed plain_format "step" true true
      (fun _ => timed plain_format "step" true true (fun _ => ret tt)) one_timer
    = (s', Raised (RuntimeError "Timer 'step' is not running")).
Proof.
  destruct (@nested_timed_raises_not_running plain_format unit "step" true true
              true true one_timer 0 eq_refl ltac:(cbn; lia) eq_refl eq_refl)
    as (s' & Hrun & _).
  exists s'. exact (Hrun (fun _ => ret tt)).
Defined.

Lemma write_without_wandb_warns_once_witness :
  exists s',
    write false ["step"; "step"]%string 7 1 false one_timer = (s', Returned tt)
    /\ use_wandb s' = false
    /\ filter (fun e => match e with Warning _ => true | _ => false end)
         (events s')
       = Warning "`wandb` is not installed use `pip install wandb` (use_wandb=True will be ignored)"
         :: filter (fun e => match e with Warning _ => true | _ => false end)
              (events one_timer).
Proof.
  apply (write_without_wandb_warns_once false ["step"; "step"]%string 7 1 false
           one_timer).
  - reflexivity.
  - reflexivity.
  - lra.
  - discriminate.
  - repeat constructor; discriminate.
Defined.

Lemma timed_reports_and_resets_witness :
  let t := nth 0 (objects one_timer) (Timer_init "") in
  let after_body := fst (ret tt (fst (start 0 one_timer))) in
  let total :=
    elapsed t
    + (now after_body (ticks after_body) - now one_timer (ticks one_timer)) in
  exists s',
    timed plain_format "step" false true (fun _ => ret tt) one_timer
    = (s', snd (ret tt (fst (start 0 one_timer))))
    /\ started (nth 0 (objects s') (Timer_init "")) = false
    /\ elapsed (nth 0 (objects s') (Timer_init ""))
       = (if false && true then 0 else total)
    /\ events s'
       = (if false
          then [Info ("time took for " ++ "step" ++ " : "
                      ++ snd (time_str_color plain_format (total * 1000))
                      ++ fst (time_str_color plain_format (total * 1000))
                      ++ escape ++ "[0m")]
          else [])
         ++ events after_body.
Proof.
  apply (timed_reports_and_resets plain_format "step" false true
           (fun _ => ret tt) one_timer 0).
  - reflexivity.
  - cbn. lia.
  - reflexivity.
  - intros s0. reflexivity.
Defined.

Lemma log_resets_every_named_timer_witness :
  exists s' infos,
    log plain_format (inr ["step"; "step"]%string) 1 true one_timer
    = (s', Returned tt)
    /\ events s' = infos ++ events one_timer
    /\ length infos = length ["step"; "step"]%string
    /\ Forall (fun e => match e with Info _ => True | _ => False end) infos
    /\ timers s' = timers one_timer
    /\ Forall (fun name0 => exists timer,
                 lookup name0 (timers one_timer) = Some timer
                 /\ started (nth timer (objects s') (Timer_init "")) = false
                 /\ elapsed (nth timer (objects s') (Timer_init "")) = 0)
         ["step"; "step"]%string.
Proof.
  apply (log_resets_every_named_timer plain_format ["step"; "step"]%string 1
           one_timer).
  - lra.
  - repeat constructor; exists 0%nat; (split; [reflexivity | cbn; lia]).
Defined.

End Helpers_instances.

(** ** Configuration and data preparation *)

Section Qwen_rope_scaling.
Import qwen2_vl_configuration.

Lemma contains_item (key : string) (d : dict) :
  contains key d = true <-> exists v, item d key = Some v.
Proof.
  induction d as [| [k w] d IH]; cbn.
  - split; [discriminate | intros [v H]; discriminate H].
  - destruct (String.eqb k key); cbn.
    + split; [intros _; exists w; reflexivity | reflexivity].
    + exact IH.
Qed.

Lemma item_setitem_same (d : dict) (key : string) (v : value) :
  item (setitem d key v) key = Some v.
Proof.
  induction d as [| [k w] d IH]; cbn.
  - rewrite String.eqb_refl. reflexivity.
  - destruct (String.eqb k key) eqn:E; cbn; rewrite E; [reflexivity | exact IH].
Qed.

Lemma item_setitem_other (d : dict) (key other : string) (v : value) :
  other <> key -> item (setitem d key v) other = item d other.
Proof.
  intros Hne. induction d as [| [k w] d IH]; cbn.
  - destruct (String.eqb_spec key other); [congruence | reflexivity].
  - destruct (String.eqb_spec k key) as [-> | Hk]; cbn.
    + destruct (String.eqb_spec key other); [congruence | reflexivity].
    + destruct (String.eqb_spec k other); [reflexivity | exact IH].
Qed.

Lemma setitem_same_value (d : dict) (key : string) (v : value) :
  item d key = Some v -> setitem d key v = d.
Proof.
  induction d as [| [k w] d IH]; cbn; [discriminate |].
  destruct (String.eqb k key) eqn:E.
  - intros H. injection H as ->. reflexivity.
  - intros H. rewrite (IH H). reflexivity.
Qed.

Lemma contains_setitem (d : dict) (key other : string) (v : value) :
  contains other (setitem d key v)
  = (contains other d || String.eqb key other)%bool.
Proof.
  induction d as [| [k w] d IH]; cbn.
  - rewrite orb_false_r. reflexivity.
  - destruct (String.eqb_spec k key) as [-> | Hk]; cbn.
    + destruct (String.eqb_spec key other); cbn; [reflexivity |].
      rewrite orb_false_r. reflexivity.
    + rewrite IH. destruct (String.eqb k other); reflexivity.
Qed.

(** X29. What [Qwen2VLConfig.__init__] leaves in a [rope_scaling]
    dictionary: running it again changes nothing; the keys other than
    ["type"] and ["rope_type"] keep their values; a dictionary without
    ["type"] is left as it is (also when its ["rope_type"] is ["mrope"]);
    with ["type"], both keys hold one value afterwards, which is
    ["default"] where ["type"] was ["mrope"] and the former ["type"]
    otherwise, and never ["mrope"]. *)
Theorem rope_scaling_type_normalized (d : dict) :
  match Qwen2VLConfig_rope_scaling (Some d) with
  | None => False
  | Some d' =>
      Qwen2VLConfig_rope_scaling (Some d') = Some d'
      /\ (forall key, key <> "type"%string -> key <> "rope_type"%string ->
          item d' key = item d key)
      /\ if contains "type" d then
           item d' "rope_type" = item d' "type"
           /\ equals_str (item d' "type") "mrope" = false
           /\ item d' "type"
              = (if equals_str (item d "type") "mrope"
                 then Some (Str "default") else item d "type")
         else d' = d
  end.
Proof.
  unfold Qwen2VLConfig_rope_scaling at 1.
  destruct (contains "type" d) eqn:Hc.
  2:{ split; [| split; [reflexivity | reflexivity]].
      unfold Qwen2VLConfig_rope_scaling. rewrite Hc. reflexivity. }
  apply contains_item in Hc as [v Hv].
  set (d1 := if equals_str (item d "type") "mrope"
             then setitem d "type" (Str "default") else d).
  assert (H1 : item d1 "type"
               = (if equals_str (item d "type") "mrope"
                  then Some (Str "default") else item d "type")).
  { unfold d1. destruct (equals_str (item d "type") "mrope");
      [apply item_setitem_same | reflexivity]. }
  assert (Hnot : equals_str (item d1 "type") "mrope" = false).
  { rewrite H1. destruct (equals_str (item d "type") "mrope") eqn:E;
      [reflexivity | exact E]. }
  assert (Hother : forall key, key <> "type"%string -> item d1 key = item d key).
  { intros key Hk. unfold d1. destruct (equals_str (item d "type") "mrope");
      [apply item_setitem_other; exact Hk | reflexivity]. }
  destruct (item d1 "type") as [v1 |] eqn:Hv1.
  2:{ exfalso. rewrite Hv in H1.
      destruct (equals_str (Some v) "mrope"); discriminate H1. }
  assert (Htype : item (setitem d1 "rope_type" v1) "type" = Some v1)
    by (rewrite item_setitem_other by discriminate; exact Hv1).
  split; [| split].
  - unfold Qwen2VLConfig_rope_scaling.
    assert (Hc' : contains "type" (setitem d1 "rope_type" v1) = true)
      by (apply contains_item; exists v1; exact Htype).
    cbv zeta. rewrite Hc', Htype, Hnot, Htype.
    rewrite (setitem_same_value (setitem d1 "rope_type" v1) "rope_type" v1)
      by apply item_setitem_same.
    reflexivity.
  - intros key Hk Hk'. rewrite item_setitem_other by exact Hk'.
    apply Hother. exact Hk.
  - rewrite Htype, item_setitem_same. split; [reflexivity |].
    split; [exact Hnot | exact H1].
Qed.

End Qwen_rope_scaling.

Section Train_clm.
Import train_clm.
Local Open Scope string_scope.

Lemma append_assoc (a b c : string) : (a ++ b) ++ c = a ++ (b ++ c).
Proof. induction a as [| x a IH]; cbn; [reflexivity | rewrite IH; reflexivity]. Qed.

Lemma append_empty (a : string) : a ++ "" = a.
Proof. induction a as [| x a IH]; cbn; [| rewrite IH]; reflexivity. Qed.

Lemma fold_left_append {A} (f : A -> string) (l : list A) :
  forall prompt,
    fold_left (fun prompt a => prompt ++ f a) l prompt
    = prompt ++ fold_right (fun a rest => f a ++ rest) "" l.
Proof.
  induction l as [| a l IH]; intros prompt; cbn [fold_left fold_right].
  - symmetry. apply append_empty.
  - rewrite IH. apply append_assoc.
Qed.

Lemma filter_none {A} (f : A -> bool) (l : list A) :
  Forall (fun a => f a = false) l -> filter f l = [].
Proof.
  induction 1 as [| a l Ha _ IH]; cbn; [reflexivity |]. rewrite Ha. exact IH.
Qed.

Lemma combine_longer {A B} (l : list A) (rest : list A) :
  forall m : list B, length l = length m -> combine (l ++ rest) m = combine l m.
Proof.
  induction l as [| a l IH]; intros [| b m] H; try discriminate H.
  - cbn. destruct rest; reflexivity.
  - cbn. f_equal. apply IH. cbn in H. lia.
Qed.

(** X30. For a conversation of alternating user and assistant messages,
    possibly opened by messages of other roles and closed by user messages
    without an answer, the prompt is the text of the turns in order; the
    other messages leave no trace in it. *)
Theorem ultra_chat_prompt_of_alternating_turns (system : list message)
    (turns : list (string * string)) (unanswered : list string) :
  Forall (fun chunk => role chunk <> "user" /\ role chunk <> "assistant") system ->
  ultra_chat_prompting_process
    (system
     ++ flat_map (fun pair => [{| role := "user"; content := fst pair |};
                               {| role := "assistant"; content := snd pair |}])
                 turns
     ++ map (fun uc => {| role := "user"; content := uc |}) unanswered)
  = fold_right (fun pair rest => turn (fst pair) (snd pair) ++ rest) "" turns.
Proof.
  intros Hsystem. unfold ultra_chat_prompting_process.
  rewrite !filter_app.
  rewrite (filter_none (fun chunk => role chunk =? "user") system).
  2:{ eapply Forall_impl; [| exact Hsystem]. intros chunk [H _].
      destruct (String.eqb_spec (role chunk) "user"); [contradiction |].
      reflexivity. }
  rewrite (filter_none (fun chunk => role chunk =? "assistant") system).
  2:{ eapply Forall_impl; [| exact Hsystem]. intros chunk [_ H].
      destruct (String.eqb_spec (role chunk) "assistant"); [contradiction |].
      reflexivity. }
  cbn [app].
  assert (Hu : map content
                 (filter (fun chunk => role chunk =? "user")
                    (flat_map (fun pair =>
                                 [{| role := "user"; content := fst pair |};
                                  {| role := "assistant"; content := snd pair |}])
                              turns))
               = map fst turns).
  { clear. induction turns as [| pair turns IH]; [reflexivity |].
    cbn. rewrite IH. reflexivity. }
  assert (Ha : map content
                 (filter (fun chunk => role chunk =? "assistant")
                    (flat_map (fun pair =>
                                 [{| role := "user"; content := fst pair |};
                                  {| role := "assistant"; content := snd pair |}])
                              turns))
               = map snd turns).
  { clear. induction turns as [| pair turns IH]; [reflexivity |].
    cbn. rewrite IH. reflexivity. }
  assert (Hrest : filter (fun chunk => role chunk =? "assistant")
                    (map (fun uc => {| role := "user"; content := uc |}) unanswered)
                  = []).
  { apply filter_none. apply Forall_map. apply Forall_forall.
    intros uc _. reflexivity. }
  rewrite Hrest, app_nil_r, map_app, Hu, Ha.
  rewrite combine_longer by (rewrite !length_map; reflexivity).
  replace (combine (map fst turns) (map snd turns)) with turns.
  - rewrite fold_left_append. reflexivity.
  - clear. induction turns as [| [uc ac] turns IH]; [reflexivity |].
    cbn. rewrite <- IH. reflexivity.
Qed.

End Train_clm.

Section Train_clm_instances.
Import train_clm.
Local Open Scope string_scope.

Lemma ultra_chat_prompt_of_alternating_turns_witness :
  ultra_chat_prompting_process
    ([{| role := "system"; content := "be brief" |}]
     ++ flat_map (fun pair => [{| role := "user"; content := fst pair |};
                               {| role := "assistant"; content := snd pair |}])
                 [("hi", "hello")]
     ++ map (fun uc => {| role := "user"; content := uc |}) ["bye"])
  = fold_right (fun pair rest => turn (fst pair) (snd pair) ++ rest) ""
               [("hi", "hello")].
Proof.
  apply (ultra_chat_prompt_of_alternating_turns
           [{| role := "system"; content := "be brief" |}] [("hi", "hello")]
           ["bye"]).
  repeat constructor; discriminate.
Defined.

End Train_clm_instances.
